(** * Part 3 - Training Neural Networks (Exercises)

    A verification development for the notebook
    [intro-to-pytorch/Part 3 - Training Neural Networks (Exercises).ipynb].

    The notebook is a sequence of code cells that call into PyTorch.  The
    development has three layers:
    - [Source]: the text of the code cells and the captured output, as
      stored in the notebook file;
    - [Torch]: the interface of the framework the cells call into, with the
      mutable objects (parameters, gradients, the random generator) kept in
      an explicit store;
    - [Notebook]: the code cells as programs over that store.

    Two instances of the interface make the cells run: [Toy], which
    computes with small integers, and [Shapes], which computes the shapes
    of the tensors.  The properties follow the definitions. *)

From Stdlib Require Import String Ascii QArith Sorted.
From stdpp Require Import gmap list strings.

(** ** The text of the code cells *)

Module Source.

(** The double-quote character, used by the one f-string of the notebook. *)
Definition dq : string := String (ascii_of_nat 34) EmptyString.

(** Each code cell is named after its [execution_count]; a cell is the list
    of its source lines, line terminators dropped. *)

Definition cell_4 : list string :=
  [ "import torch";
    "from torch import nn";
    "import torch.nn.functional as F";
    "from torchvision import datasets, transforms";
    "";
    "# Define a transform to normalize the data";
    "transform = transforms.Compose([transforms.ToTensor(),";
    "                              transforms.Normalize((0.5,), (0.5,))])";
    "";
    "# Download and load the training data";
    "trainset = datasets.MNIST('~/.pytorch/MNIST_data/', download=True, train=True, transform=transform)";
    "trainloader = torch.utils.data.DataLoader(trainset, batch_size=64, shuffle=True)" ].

Definition cell_30 : list string :=
  [ "# Build a feed-forward network";
    "";
    "model = nn.Sequential(nn.Linear(784,128),";
    "                     nn.ReLU(),";
    "                     nn.Linear(128,64),";
    "                     nn.ReLU(),";
    "                     nn.Linear(64,10))";
    "";
    "# Define the loss";
    "criterion = nn.CrossEntropyLoss()";
    "";
    "# Get our data";
    "images, labels = next(iter(trainloader))";
    "";
    "# Flatten images";
    "images = images.view(images.shape[0], -1)";
    "";
    "# Forward pass, get our logits";
    "logits = model(images)";
    "";
    "# Calculate the loss with the logits and the labels";
    "";
    "loss = criterion(logits, labels)";
    "";
    "print(loss)" ].

Definition cell_9 : list string :=
  [ "# TODO: Build a feed-forward network";
    "model = nn.Sequential(nn.Linear(784, 128),";
    "                     nn.ReLU(),";
    "                     nn.Linear(128, 64),";
    "                     nn.ReLU(),";
    "                     nn.Linear(64, 10),";
    "                     nn.LogSoftmax(dim=1))";
    "";
    "# TODO: Define the loss";
    "criterion = nn.NLLLoss()";
    "";
    "### Run this to check your work";
    "# Get our data";
    "images, labels = next(iter(trainloader))";
    "";
    "# Flatten images";
    "images = images.view(images.shape[0], -1)";
    "";
    "# Forward pass, get our logits";
    "logits = model(images)";
    "";
    "# Calculate the loss with the logits and the labels";
    "loss = criterion(logits, labels)";
    "print(loss)" ].

Definition cell_21 : list string :=
  [ "x = torch.randn(2,2, requires_grad=True)";
    "print(x)" ].

Definition cell_22 : list string :=
  [ "y = x**2";
    "print(y)" ].

Definition cell_23 : list string :=
  [ "## grad_fn shows the function that generated this variable";
    "print(y.grad_fn)" ].

Definition cell_24 : list string :=
  [ "z = y.mean()";
    "print(z)" ].

Definition cell_25 : list string :=
  [ "print(x.grad)" ].

Definition cell_26 : list string :=
  [ "z.backward()";
    "print(x.grad)";
    "print(x/2)" ].

Definition cell_15 : list string :=
  [ "# Build a feed-forward network";
    "model = nn.Sequential(nn.Linear(784, 128),";
    "                     nn.ReLU(),";
    "                     nn.Linear(128, 64),";
    "                     nn.ReLU(),";
    "                     nn.Linear(64, 10),";
    "                     nn.LogSoftmax(dim=1))";
    "";
    "images, labels = next(iter(trainloader))";
    "";
    "images = images.view(images.shape[0], -1)";
    "";
    "criterion = nn.NLLLoss()";
    "";
    "logits = model(images)";
    "";
    "loss = criterion(logits, labels)";
    "print(loss)" ].

Definition cell_16 : list string :=
  [ "print('Before backward pass: \n', model[0].weight.grad)";
    "";
    "loss.backward()";
    "";
    "print('After backward pass: \n', model[0].weight.grad)" ].

Definition cell_31 : list string :=
  [ "from torch import optim";
    "";
    "# Optimizers require the parameters to optimize and a learning rate";
    "optimizer = optim.SGD(model.parameters(), lr=0.01)" ].

Definition cell_32 : list string :=
  [ "print('Initial weights - ', model[0].weight)";
    "";
    "images, labels = next(iter(trainloader))";
    "images.resize_(64, 784)";
    "";
    "# Clear the gradients, do this because gradients are accumulated";
    "optimizer.zero_grad()";
    "";
    "# Forward pass, then backward pass, then update weights";
    "output = model(images)";
    "loss = criterion(output, labels)";
    "loss.backward()";
    "print('Gradient -', model[0].weight.grad)" ].

Definition cell_33 : list string :=
  [ "# Take an update step and few the new weights";
    "optimizer.step()";
    "print('Updated weights - ', model[0].weight)" ].

Definition cell_37 : list string :=
  [ "## Your solution here";
    "#defining the model";
    "model = nn.Sequential(nn.Linear(784, 128),";
    "                     nn.ReLU(),";
    "                     nn.Linear(128, 64),";
    "                     nn.ReLU(),";
    "                     nn.Linear(64, 10),";
    "                     nn.LogSoftmax(dim=1))";
    "";
    "#define the loss";
    "criterion = nn.NLLLoss()";
    "optimizer = optim.SGD(model.parameters(), lr = 0.001)";
    "";
    "epochs = 10";
    "";
    "for epoch in range(epochs):";
    "    ";
    "    running_loss = 0";
    "    for images, labels in trainloader:";
    "        #flatten the images";
    "        images = images.view(images.shape[0], -1)";
    "        ";
    "        #clearing the gradients, to prevent accumulation";
    "        optimizer.zero_grad()";
    "        ";
    "        #forward pass";
    "        logits = model(images)";
    "        ";
    "        #calculating the loss";
    "        loss = criterion(logits, labels)";
    "        ";
    "        #calculating the gradients";
    "        loss.backward()";
    "        ";
    "        #updating the weights";
    "        optimizer.step()";
    "        ";
    "        running_loss += loss.item()";
    "        ";
    "    else:";
    ("        print(f" +:+ dq +:+ "Training loss: {running_loss/len(trainloader)}" +:+ dq +:+ ")") ].

Definition cell_60 : list string :=
  [ "%matplotlib inline";
    "import helper";
    "";
    "images, labels = next(iter(trainloader))";
    "";
    "img = images[0].view(1, 784)";
    "# Turn off gradients to speed up this part";
    "with torch.no_grad():";
    "    logps = model(img)";
    "";
    "# Output of the network are log-probabilities, need to take exponential for probabilities";
    "ps = torch.exp(logps)";
    "helper.view_classify(img.view(1, 28, 28), ps)" ].

(** The code cells in document order, which is the order in which a
    sequential run ("Run All") evaluates them. *)
Definition code_cells : list (nat * list string) :=
  [ (4, cell_4);
    (30, cell_30);
    (9, cell_9);
    (21, cell_21);
    (22, cell_22);
    (23, cell_23);
    (24, cell_24);
    (25, cell_25);
    (26, cell_26);
    (15, cell_15);
    (16, cell_16);
    (31, cell_31);
    (32, cell_32);
    (33, cell_33);
    (37, cell_37);
    (60, cell_60) ].

(** The lines of the stdout stream stored with the training cell (37). *)
Definition stdout_37 : list string :=
  [ "Training loss: 2.220362721984066";
    "Training loss: 1.9394281483662408";
    "Training loss: 1.4821817316988637";
    "Training loss: 1.0869049643402668";
    "Training loss: 0.8456874970815329";
    "Training loss: 0.7032986052318423";
    "Training loss: 0.6149345007595985";
    "Training loss: 0.5545827348285647";
    "Training loss: 0.509674562510651";
    "Training loss: 0.47521274567031657" ].

(** *** Lexical view of the code *)

(** Characters of Python identifiers and keywords. *)
Definition is_ident_char (c : ascii) : bool :=
  let n := nat_of_ascii c in
  ((48 <=? n) && (n <=? 57)) || ((65 <=? n) && (n <=? 90))
  || ((97 <=? n) && (n <=? 122)) || (n =? 95).

Definition flush (cur : string) : list string :=
  match cur with EmptyString => [] | _ => [cur] end.

(** The words of a line: maximal runs of identifier characters.  Comments
    and string literals are not skipped, so a word found nowhere is in
    particular found in no statement. *)
Fixpoint words_from (cur : string) (s : string) : list string :=
  match s with
  | EmptyString => flush cur
  | String c s' =>
      if is_ident_char c
      then words_from (cur +:+ String c EmptyString) s'
      else flush cur ++ words_from EmptyString s'
  end.

Definition words (line : string) : list string := words_from EmptyString line.

Definition cell_words (cell : list string) : list string :=
  concat (map words cell).

Definition code_words : list string :=
  concat (map (fun c => cell_words (snd c)) code_cells).

(** Python's exception-handling statements and the ways to define or raise
    an error of one's own. *)
Definition handler_keywords : list string := ["try"; "except"; "finally"].
Definition error_definition_words : list string :=
  ["raise"; "class"; "assert"; "Exception"; "BaseException"].


(** *** Inventory of the code *)

(** The text of a line before its comment.  No string literal of the
    notebook holds a hash sign. *)
Fixpoint before_hash (s : string) : string :=
  match s with
  | EmptyString => EmptyString
  | String c s' =>
      if Ascii.eqb c "#" then EmptyString else String c (before_hash s')
  end.

(** The lines of code of all cells, in order: comments removed, lines
    without a word dropped.  A statement may run over several lines. *)
Definition code_lines : list string :=
  filter (fun line => words line <> [])
         (before_hash <$> concat (map snd code_cells)).

(** The lines of code in which a word occurs. *)
Definition lines_with (w : string) : list string :=
  filter (fun line => w ∈ words line) code_lines.











(** Words that would fix the state of the random generator. *)
Definition seeding_words : list string :=
  ["manual_seed"; "seed"; "set_rng_state"; "Generator"].

(** *** The captured output as numbers *)

Definition digit_of (c : ascii) : option N :=
  let n := N_of_ascii c in
  if ((48 <=? n) && (n <=? 57))%N then Some (n - 48)%N else None.

(** [decimal m k s] reads the digits of [s] after mantissa [m]; [k] is
    [None] before the decimal point and the count of fraction digits after
    it.  The result is the mantissa and the number of fraction digits. *)
Fixpoint decimal (m : N) (k : option nat) (s : string) : option (N * nat) :=
  match s with
  | EmptyString => Some (m, default 0 k)
  | String "." s' => match k with None => decimal m (Some 0) s' | Some _ => None end
  | String c s' =>
      d ← digit_of c;
      decimal (10 * m + d)%N (S <$> k) s'
  end.

Definition parse_decimal (s : string) : option Q :=
  match s with
  | EmptyString => None
  | _ => '(m, k) ← decimal 0%N None s;
         Some (Z.of_N m # Z.to_pos (10 ^ Z.of_nat k))
  end.

Fixpoint strip_prefix (p s : string) : option string :=
  match p, s with
  | EmptyString, _ => Some s
  | String a p', String b s' => if Ascii.eqb a b then strip_prefix p' s' else None
  | _, _ => None
  end.

(** The number printed on a line of the training cell's output. *)
Definition printed_loss (line : string) : option Q :=
  strip_prefix "Training loss: " line ≫= parse_decimal.

Definition recorded_losses : option (list Q) := mapM printed_loss stdout_37.

End Source.

(** ** The framework the cells call into *)

Module Torch.

(** Identity of an object of the interpreter: parameters and modules are
    told apart by it. *)
Abbreviation loc := nat.

(** [transforms.ToTensor] and [transforms.Normalize]; a
    [transforms.Compose] is the list of its steps. *)
Inductive Transform :=
| ToTensor
| Normalize (mean std : list Q).

(** The numerical side of PyTorch, of torchvision and of Python's floats.
    Everything here is computed by the framework; the notebook only calls
    it. *)
Class Framework := {
  tensor : Type;
  pyfloat : Type;
  lib_error : Type;
  generator : Type;
  dataset : Type;
  figure : Type;
  (* Python floats *)
  float_of_int : Z -> pyfloat;
  float_lit : Q -> pyfloat;
  float_add : pyfloat -> pyfloat -> pyfloat;
  float_div : pyfloat -> pyfloat -> pyfloat;
  (* torch.Tensor *)
  t_shape0 : tensor -> lib_error + Z;
  t_view : tensor -> list Z -> lib_error + tensor;
  t_getitem : tensor -> Z -> lib_error + tensor;
  t_item : tensor -> lib_error + pyfloat;
  t_exp : tensor -> lib_error + tensor;
  t_add : tensor -> tensor -> tensor;
  t_zero : tensor -> tensor;
  (* autograd: a parameter seen as a leaf of the graph, a result cut off
     from the graph, and the gradient of a result for each leaf it reaches *)
  leaf : loc -> tensor -> tensor;
  detach : tensor -> tensor;
  autograd : tensor -> lib_error + gmap loc tensor;
  (* torch.nn.functional *)
  F_linear : tensor -> tensor -> tensor -> lib_error + tensor;
  F_relu : tensor -> tensor;
  F_log_softmax : tensor -> Z -> lib_error + tensor;
  F_nll_loss : tensor -> tensor -> lib_error + tensor;
  F_cross_entropy : tensor -> tensor -> lib_error + tensor;
  (* nn.Linear.reset_parameters: weight and bias drawn from the generator *)
  linear_reset : nat -> nat -> generator -> tensor * tensor * generator;
  (* the update of optim.SGD: p.data.add_(-lr, p.grad) *)
  sgd_update : pyfloat -> tensor -> tensor -> tensor;
  (* torchvision.datasets.MNIST(root, download, train, transform) *)
  mnist : string -> bool -> bool -> list Transform -> lib_error + dataset;
  (* what that call prints while it downloads and processes the files, which
     it does when they are not yet under root *)
  mnist_log : string -> bool -> bool -> list Transform -> list string;
  dataset_len : dataset -> nat;
  (* torch.utils.data.DataLoader(dataset, batch_size, shuffle): the
     constructor raises when its sampler rejects the dataset, as the
     shuffling sampler does for an empty one *)
  loader_init : dataset -> nat -> bool -> lib_error + unit;
  (* the batches of one pass over a loader: dataset, batch size, shuffle *)
  fetch_batches :
    dataset -> nat -> bool -> generator -> list (tensor * tensor) * generator;
  (* helper.view_classify(img, ps): helper.py is not among the sources, so
     the call is a parameter; it draws a figure from an image and its class
     probabilities, or raises *)
  view_classify : tensor -> tensor -> lib_error + figure;
}.

Section Objects.
Context {F : Framework}.

(** A [torch.nn.Parameter]: its data and its [.grad] field. *)
Record Param := { data : tensor; grad : option tensor }.

(** The layers used by the notebook.  A linear layer owns two parameters. *)
Inductive Layer :=
| Linear (in_features out_features : nat) (weight bias : loc)
| ReLU
| LogSoftmax (dim : Z).

(** [nn.Sequential]. *)
Record Sequential := { m_id : loc; layers : list Layer }.

Inductive Criterion := CrossEntropyLoss | NLLLoss.

(** [optim.SGD]: the parameters it was given and the learning rate. *)
Record SGD := { param_group : list loc; lr : pyfloat }.

(** [torch.utils.data.DataLoader]. *)
Record DataLoader := { dl_dataset : dataset; batch_size : nat; shuffle : bool }.

(** What a name of the notebook can be bound to. *)
Inductive value :=
| VModule (name : string)
| VTransform (ts : list Transform)
| VDataset (d : dataset)
| VLoader (ld : DataLoader)
| VModel (m : Sequential)
| VCriterion (c : Criterion)
| VOptimizer (o : SGD)
| VTensor (t : tensor)
| VInt (n : Z)
| VFloat (x : pyfloat).

(** A printed or displayed item: literal text, the text of a value, or a
    figure. *)
Inductive fragment := Str (s : string) | Repr (v : value) | Fig (f : figure).
Definition output := list fragment.

(** The calls into the framework, as observed from outside, with what they
    returned.  [ELayer] is emitted by [nn.Sequential] for each of its layers;
    [ERaise] marks the framework raising. *)
Inductive event :=
| ENewLinear (l : Layer)
| ENewSequential (m : Sequential)
| ENewSGD (o : SGD)
| ENewLoader (ld : DataLoader)
| EIter (ld : DataLoader) (n : nat)
| EView (out : tensor)
| EGetItem (out : tensor)
| EExp (out : tensor)
| EZeroGrad (o : SGD)
| ELayer (l : Layer) (out : tensor)
| EForward (m : Sequential) (out : tensor)
| ELoss (c : Criterion) (out : tensor)
| EBackward (gs : gmap loc tensor)
| EStep (o : SGD)
| EItem (v : pyfloat)
| EFigure (f : figure)
| ERaise (e : lib_error).

Inductive exn :=
| LibError (e : lib_error)      (* whatever the framework raised *)
| NameError (x : string)
| TypeError                     (* a value of the wrong kind for the operation *)
| ZeroDivisionError
| StopIteration
| Dangling (l : loc).           (* a parameter that is not in the store *)

(** The state of the kernel: the notebook's namespace, the parameter
    objects, the framework's global state and the output so far. *)
Record state := {
  globals : gmap string value;
  heap : gmap loc Param;
  next : loc;
  rng : generator;
  grad_enabled : bool;
  stdout : list output;
  calls : list event;
}.

Definition set_globals (g : gmap string value) (s : state) : state :=
  {| globals := g; heap := heap s; next := next s; rng := rng s;
     grad_enabled := grad_enabled s; stdout := stdout s; calls := calls s |}.
Definition set_heap (h : gmap loc Param) (s : state) : state :=
  {| globals := globals s; heap := h; next := next s; rng := rng s;
     grad_enabled := grad_enabled s; stdout := stdout s; calls := calls s |}.
Definition set_next (n : loc) (s : state) : state :=
  {| globals := globals s; heap := heap s; next := n; rng := rng s;
     grad_enabled := grad_enabled s; stdout := stdout s; calls := calls s |}.
Definition set_rng (g : generator) (s : state) : state :=
  {| globals := globals s; heap := heap s; next := next s; rng := g;
     grad_enabled := grad_enabled s; stdout := stdout s; calls := calls s |}.
Definition set_grad_enabled (b : bool) (s : state) : state :=
  {| globals := globals s; heap := heap s; next := next s; rng := rng s;
     grad_enabled := b; stdout := stdout s; calls := calls s |}.
Definition set_stdout (o : list output) (s : state) : state :=
  {| globals := globals s; heap := heap s; next := next s; rng := rng s;
     grad_enabled := grad_enabled s; stdout := o; calls := calls s |}.
Definition set_calls (c : list event) (s : state) : state :=
  {| globals := globals s; heap := heap s; next := next s; rng := rng s;
     grad_enabled := grad_enabled s; stdout := stdout s; calls := c |}.

(** *** Statements: state passing with exceptions *)

Definition M (A : Type) : Type := state -> (exn + A) * state.

#[export] Instance M_ret : MRet M := fun A a s => (inr a, s).
#[export] Instance M_bind : MBind M := fun A B k m s =>
  match m s with
  | (inl e, s') => (inl e, s')
  | (inr a, s') => k a s'
  end.

Definition raise {A} (e : exn) : M A := fun s => (inl e, s).
Definition gets {A} (f : state -> A) : M A := fun s => (inr (f s), s).
Definition modify (f : state -> state) : M unit := fun s => (inr tt, f s).

Definition emit (e : event) : M unit :=
  modify (fun s => set_calls (calls s ++ [e]) s).

(** A call into the framework: its exception, if any, becomes the
    exception of the statement. *)
Definition lib {A} (r : lib_error + A) : M A :=
  match r with
  | inl e => emit (ERaise e);; raise (LibError e)
  | inr a => mret a
  end.

(** Reading and binding a name of the notebook. *)
Definition load (x : string) : M value :=
  g ← gets globals;
  match g !! x with
  | Some v => mret v
  | None => raise (NameError x)
  end.

Definition store (x : string) (v : value) : M unit :=
  modify (fun s => set_globals (<[x:=v]> (globals s)) s).

Definition use (x : string) : M unit :=
  v ← load x; match v with VModule _ => mret tt | _ => raise TypeError end.
Definition load_transform (x : string) : M (list Transform) :=
  v ← load x; match v with VTransform t => mret t | _ => raise TypeError end.
Definition load_dataset (x : string) : M dataset :=
  v ← load x; match v with VDataset d => mret d | _ => raise TypeError end.
Definition load_loader (x : string) : M DataLoader :=
  v ← load x; match v with VLoader ld => mret ld | _ => raise TypeError end.
Definition load_model (x : string) : M Sequential :=
  v ← load x; match v with VModel m => mret m | _ => raise TypeError end.
Definition load_criterion (x : string) : M Criterion :=
  v ← load x; match v with VCriterion c => mret c | _ => raise TypeError end.
Definition load_optimizer (x : string) : M SGD :=
  v ← load x; match v with VOptimizer o => mret o | _ => raise TypeError end.
Definition load_tensor (x : string) : M tensor :=
  v ← load x; match v with VTensor t => mret t | _ => raise TypeError end.
Definition load_int (x : string) : M Z :=
  v ← load x; match v with VInt n => mret n | _ => raise TypeError end.

Definition print (o : output) : M unit :=
  modify (fun s => set_stdout (stdout s ++ [o]) s).

(** [for x in xs: body], for a body without [break]. *)
Fixpoint for_each {A} (xs : list A) (body : A -> M unit) : M unit :=
  match xs with
  | [] => mret tt
  | x :: xs' => body x;; for_each xs' body
  end.

Definition range (n : Z) : list Z := Z.of_nat <$> seq 0 (Z.to_nat n).

(** [a + b] and [a / n] on Python numbers; [n] is an [int], as [len]
    returns. *)
Definition py_add (a b : value) : M value :=
  match a, b with
  | VInt x, VInt y => mret (VInt (x + y)%Z)
  | VInt x, VFloat y => mret (VFloat (float_add (float_of_int x) y))
  | VFloat x, VInt y => mret (VFloat (float_add x (float_of_int y)))
  | VFloat x, VFloat y => mret (VFloat (float_add x y))
  | _, _ => raise TypeError
  end.

Definition py_truediv (a : value) (n : Z) : M value :=
  if decide (n = 0%Z) then raise ZeroDivisionError
  else match a with
       | VInt x => mret (VFloat (float_div (float_of_int x) (float_of_int n)))
       | VFloat x => mret (VFloat (float_div x (float_of_int n)))
       | _ => raise TypeError
       end.

(** *** The objects of the framework over the store *)

(** [datasets.MNIST(root, download, train, transform)]: what the call prints
    goes to the output of the cell, before the dataset is returned or the
    exception raised. *)
Definition datasets_MNIST (root : string) (download train : bool)
    (transform : list Transform) : M dataset :=
  modify (fun s => set_stdout
                     (stdout s ++ ((fun line => [Str line])
                                     <$> mnist_log root download train transform)) s);;
  lib (mnist root download train transform).

(** [torch.utils.data.DataLoader(dataset, batch_size, shuffle)]. *)
Definition utils_DataLoader (d : dataset) (size : nat) (shuffled : bool)
  : M DataLoader :=
  lib (loader_init d size shuffled);;
  emit (ENewLoader {| dl_dataset := d; batch_size := size; shuffle := shuffled |});;
  mret {| dl_dataset := d; batch_size := size; shuffle := shuffled |}.

Definition fresh : M loc :=
  n ← gets next; modify (set_next (S n));; mret n.

Definition alloc (p : Param) : M loc :=
  l ← fresh; modify (fun s => set_heap (<[l:=p]> (heap s)) s);; mret l.

Definition deref (l : loc) : M Param :=
  h ← gets heap;
  match h !! l with
  | Some p => mret p
  | None => raise (Dangling l)
  end.

(** With gradients switched off, results are cut off from the graph. *)
Definition recorded (y : tensor) : M tensor :=
  on ← gets grad_enabled; mret (if on : bool then y else detach y).

Definition tensor_view (t : tensor) (dims : list Z) : M tensor :=
  y ← lib (t_view t dims); y ← recorded y; emit (EView y);; mret y.
Definition tensor_getitem (t : tensor) (i : Z) : M tensor :=
  y ← lib (t_getitem t i); y ← recorded y; emit (EGetItem y);; mret y.
Definition torch_exp (t : tensor) : M tensor :=
  y ← lib (t_exp t); y ← recorded y; emit (EExp y);; mret y.
Definition tensor_item (t : tensor) : M pyfloat :=
  v ← lib (t_item t); emit (EItem v);; mret v.

(** [nn.Linear(i, o)]: two new parameters, initialised from the generator,
    without gradient. *)
Definition nn_Linear (i o : nat) : M Layer :=
  g ← gets rng;
  let '(w, b, g') := linear_reset i o g in
  modify (set_rng g');;
  lw ← alloc {| data := w; grad := None |};
  lb ← alloc {| data := b; grad := None |};
  emit (ENewLinear (Linear i o lw lb));;
  mret (Linear i o lw lb).

Definition nn_Sequential (ls : list Layer) : M Sequential :=
  id ← fresh;
  emit (ENewSequential {| m_id := id; layers := ls |});;
  mret {| m_id := id; layers := ls |}.

(** [model.parameters()]. *)
Definition layer_parameters (l : Layer) : list loc :=
  match l with
  | Linear _ _ w b => [w; b]
  | _ => []
  end.
Definition parameters (m : Sequential) : list loc :=
  concat (map layer_parameters (layers m)).

Definition nn_ReLU : M Layer := mret ReLU.
Definition nn_LogSoftmax (dim : Z) : M Layer := mret (LogSoftmax dim).

Definition optim_SGD (ps : list loc) (rate : pyfloat) : M SGD :=
  emit (ENewSGD {| param_group := ps; lr := rate |});;
  mret {| param_group := ps; lr := rate |}.

(** Applying one layer, and [nn.Sequential.forward]: the layers in order. *)
Definition call_layer (l : Layer) (x : tensor) : M tensor :=
  y ← match l with
      | Linear _ _ w b =>
          pw ← deref w; pb ← deref b;
          lib (F_linear x (leaf w (data pw)) (leaf b (data pb)))
      | ReLU => mret (F_relu x)
      | LogSoftmax d => lib (F_log_softmax x d)
      end;
  y ← recorded y; emit (ELayer l y);; mret y.

Fixpoint call_layers (ls : list Layer) (x : tensor) : M tensor :=
  match ls with
  | [] => mret x
  | l :: ls' => y ← call_layer l x; call_layers ls' y
  end.

Definition call_model (m : Sequential) (x : tensor) : M tensor :=
  y ← call_layers (layers m) x; emit (EForward m y);; mret y.

Definition call_criterion (c : Criterion) (input target : tensor) : M tensor :=
  y ← lib (match c with
           | CrossEntropyLoss => F_cross_entropy input target
           | NLLLoss => F_nll_loss input target
           end);
  y ← recorded y; emit (ELoss c y);; mret y.

(** [optimizer.zero_grad()]: every gradient that exists is set to zero. *)
Definition zero_param (p : Param) : Param :=
  {| data := data p; grad := t_zero <$> grad p |}.

Definition zero_grad (o : SGD) : M unit :=
  modify (fun s => set_heap (foldr (alter zero_param) (heap s) (param_group o)) s);;
  emit (EZeroGrad o).

(** [loss.backward()]: the gradient for each leaf is added to what the
    leaf's [.grad] holds, or stored if it holds nothing. *)
Definition accumulate (g : tensor) (p : Param) : Param :=
  {| data := data p;
     grad := Some (match grad p with None => g | Some a => t_add a g end) |}.

Definition backward_into (gs : gmap loc tensor) (h : gmap loc Param) : gmap loc Param :=
  map_imap (fun l p => Some (match gs !! l with
                             | Some g => accumulate g p
                             | None => p
                             end)) h.

Definition backward (t : tensor) : M unit :=
  gs ← lib (autograd t);
  modify (fun s => set_heap (backward_into gs (heap s)) s);;
  emit (EBackward gs).

(** [optimizer.step()]: parameters without gradient are skipped. *)
Definition sgd_param (rate : pyfloat) (p : Param) : Param :=
  match grad p with
  | None => p
  | Some g => {| data := sgd_update rate (data p) g; grad := Some g |}
  end.

Definition step (o : SGD) : M unit :=
  modify (fun s => set_heap (foldr (alter (sgd_param (lr o))) (heap s) (param_group o)) s);;
  emit (EStep o).

(** [len(trainloader)] and one pass over the loader.  The order of a pass
    is drawn from the generator when the pass starts. *)
Definition loader_len (ld : DataLoader) : nat :=
  (dataset_len (dl_dataset ld) + batch_size ld - 1) / batch_size ld.

Definition iter_loader (ld : DataLoader) : M (list (tensor * tensor)) :=
  g ← gets rng;
  let '(bs, g') := fetch_batches (dl_dataset ld) (batch_size ld) (shuffle ld) g in
  modify (set_rng g');;
  emit (EIter ld (length bs));;
  mret bs.

(** [next(iter(trainloader))]. *)
Definition next_iter (ld : DataLoader) : M (tensor * tensor) :=
  bs ← iter_loader ld;
  match bs with
  | [] => raise StopIteration
  | b :: _ => mret b
  end.

(** [with torch.no_grad(): body]: the previous mode is restored on the way
    out, also when the body raises; the exception is not caught. *)
Definition no_grad {A} (body : M A) : M A := fun s =>
  let '(r, s') := body (set_grad_enabled false s) in
  (r, set_grad_enabled (grad_enabled s) s').

End Objects.
End Torch.

(** ** The code cells as programs *)

Module Notebook.
Import Torch.

Section Cells.
Context {F : Framework}.

(** Cell 4: imports, the training set and its loader. *)
Definition cell_4 : M unit :=
  (* import torch ... from torchvision import datasets, transforms *)
  store "torch" (VModule "torch");;
  store "nn" (VModule "torch.nn");;
  store "F" (VModule "torch.nn.functional");;
  store "datasets" (VModule "torchvision.datasets");;
  store "transforms" (VModule "torchvision.transforms");;
  (* transform = transforms.Compose([transforms.ToTensor(),
                                     transforms.Normalize((0.5,), (0.5,))]) *)
  use "transforms";;
  store "transform" (VTransform [ToTensor; Normalize [1 # 2] [1 # 2]]);;
  (* trainset = datasets.MNIST('~/.pytorch/MNIST_data/', download=True,
                               train=True, transform=transform) *)
  use "datasets";;
  transform ← load_transform "transform";
  trainset ← datasets_MNIST "~/.pytorch/MNIST_data/" true true transform;
  store "trainset" (VDataset trainset);;
  (* trainloader = torch.utils.data.DataLoader(trainset, batch_size=64,
                                               shuffle=True) *)
  use "torch";;
  trainset ← load_dataset "trainset";
  trainloader ← utils_DataLoader trainset 64 true;
  store "trainloader" (VLoader trainloader).

(** Cell 30: a forward pass and its loss. *)
Definition cell_30 : M unit :=
  (* model = nn.Sequential(nn.Linear(784,128), nn.ReLU(), nn.Linear(128,64),
                           nn.ReLU(), nn.Linear(64,10)) *)
  use "nn";;
  l1 ← nn_Linear 784 128;
  a1 ← nn_ReLU;
  l2 ← nn_Linear 128 64;
  a2 ← nn_ReLU;
  l3 ← nn_Linear 64 10;
  model ← nn_Sequential [l1; a1; l2; a2; l3];
  store "model" (VModel model);;
  (* criterion = nn.CrossEntropyLoss() *)
  use "nn";;
  store "criterion" (VCriterion CrossEntropyLoss);;
  (* images, labels = next(iter(trainloader)) *)
  trainloader ← load_loader "trainloader";
  batch ← next_iter trainloader;
  store "images" (VTensor batch.1);;
  store "labels" (VTensor batch.2);;
  (* images = images.view(images.shape[0], -1) *)
  images ← load_tensor "images";
  n ← lib (t_shape0 images);
  images ← tensor_view images [n; -1]%Z;
  store "images" (VTensor images);;
  (* logits = model(images) *)
  model ← load_model "model";
  images ← load_tensor "images";
  logits ← call_model model images;
  store "logits" (VTensor logits);;
  (* loss = criterion(logits, labels) *)
  criterion ← load_criterion "criterion";
  logits ← load_tensor "logits";
  labels ← load_tensor "labels";
  loss ← call_criterion criterion logits labels;
  store "loss" (VTensor loss);;
  (* print(loss) *)
  loss ← load "loss";
  print [Repr loss].

(** Cell 37, the training cell.  The body of the inner loop comes in two
    halves: everything up to [loss.backward()], then [optimizer.step()] and
    the bookkeeping of the loss. *)
Definition forward_backward (batch : tensor * tensor) : M unit :=
  (* for images, labels in trainloader: *)
  store "images" (VTensor batch.1);;
  store "labels" (VTensor batch.2);;
  (* images = images.view(images.shape[0], -1) *)
  images ← load_tensor "images";
  n ← lib (t_shape0 images);
  images ← tensor_view images [n; -1]%Z;
  store "images" (VTensor images);;
  (* optimizer.zero_grad() *)
  optimizer ← load_optimizer "optimizer";
  zero_grad optimizer;;
  (* logits = model(images) *)
  model ← load_model "model";
  images ← load_tensor "images";
  logits ← call_model model images;
  store "logits" (VTensor logits);;
  (* loss = criterion(logits, labels) *)
  criterion ← load_criterion "criterion";
  logits ← load_tensor "logits";
  labels ← load_tensor "labels";
  loss ← call_criterion criterion logits labels;
  store "loss" (VTensor loss);;
  (* loss.backward() *)
  loss ← load_tensor "loss";
  backward loss.

Definition step_and_log : M unit :=
  (* optimizer.step() *)
  optimizer ← load_optimizer "optimizer";
  step optimizer;;
  (* running_loss += loss.item() *)
  running_loss ← load "running_loss";
  loss ← load_tensor "loss";
  v ← tensor_item loss;
  running_loss ← py_add running_loss (VFloat v);
  store "running_loss" running_loss.

Definition train_batch (batch : tensor * tensor) : M unit :=
  forward_backward batch;; step_and_log.

(** The [else] branch of the inner [for]: it runs when the loop has gone
    through all its batches, and the loop has no [break]. *)
Definition print_training_loss : M unit :=
  (* print(f"Training loss: {running_loss/len(trainloader)}") *)
  running_loss ← load "running_loss";
  trainloader ← load_loader "trainloader";
  avg ← py_truediv running_loss (Z.of_nat (loader_len trainloader));
  print [Str "Training loss: "; Repr avg].

Definition train_epoch (epoch : Z) : M unit :=
  (* for epoch in range(epochs): *)
  store "epoch" (VInt epoch);;
  (* running_loss = 0 *)
  store "running_loss" (VInt 0);;
  (* for images, labels in trainloader: ... else: ... *)
  trainloader ← load_loader "trainloader";
  batches ← iter_loader trainloader;
  for_each batches train_batch;;
  print_training_loss.

Definition cell_37 : M unit :=
  (* model = nn.Sequential(nn.Linear(784, 128), nn.ReLU(),
                           nn.Linear(128, 64), nn.ReLU(),
                           nn.Linear(64, 10), nn.LogSoftmax(dim=1)) *)
  use "nn";;
  l1 ← nn_Linear 784 128;
  a1 ← nn_ReLU;
  l2 ← nn_Linear 128 64;
  a2 ← nn_ReLU;
  l3 ← nn_Linear 64 10;
  out ← nn_LogSoftmax 1;
  model ← nn_Sequential [l1; a1; l2; a2; l3; out];
  store "model" (VModel model);;
  (* criterion = nn.NLLLoss() *)
  use "nn";;
  store "criterion" (VCriterion NLLLoss);;
  (* optimizer = optim.SGD(model.parameters(), lr = 0.001) *)
  use "optim";;
  model ← load_model "model";
  optimizer ← optim_SGD (parameters model) (float_lit (1 # 1000));
  store "optimizer" (VOptimizer optimizer);;
  (* epochs = 10 *)
  store "epochs" (VInt 10);;
  (* for epoch in range(epochs): *)
  epochs ← load_int "epochs";
  for_each (range epochs) train_epoch.

(** Cell 60: the prediction for one image. *)
Definition cell_60 : M unit :=
  (* import helper *)
  store "helper" (VModule "helper");;
  (* images, labels = next(iter(trainloader)) *)
  trainloader ← load_loader "trainloader";
  batch ← next_iter trainloader;
  store "images" (VTensor batch.1);;
  store "labels" (VTensor batch.2);;
  (* img = images[0].view(1, 784) *)
  images ← load_tensor "images";
  image ← tensor_getitem images 0;
  img ← tensor_view image [1; 784]%Z;
  store "img" (VTensor img);;
  (* with torch.no_grad(): logps = model(img) *)
  use "torch";;
  no_grad (model ← load_model "model";
           img ← load_tensor "img";
           logps ← call_model model img;
           store "logps" (VTensor logps));;
  (* ps = torch.exp(logps) *)
  use "torch";;
  logps ← load_tensor "logps";
  ps ← torch_exp logps;
  store "ps" (VTensor ps);;
  (* helper.view_classify(img.view(1, 28, 28), ps) *)
  use "helper";;
  img ← load_tensor "img";
  shown ← tensor_view img [1; 28; 28]%Z;
  ps ← load_tensor "ps";
  fig ← lib (view_classify shown ps);
  emit (EFigure fig);;
  print [Fig fig].

(** *** Reading a trace *)

(** The five steps of a training pass, as the calls that perform them. *)
Inductive phase := Forward | Loss | Backward | ParameterStep | GradientReset.

Definition phase_of (e : event) : option phase :=
  match e with
  | EForward _ _ => Some Forward
  | ELoss _ _ => Some Loss
  | EBackward _ => Some Backward
  | EStep _ => Some ParameterStep
  | EZeroGrad _ => Some GradientReset
  | _ => None
  end.

Definition phases (evs : list event) : list phase := omap phase_of evs.

(** The stages of the data flow, as the calls that perform them. *)
Inductive stage :=
| Flatten
| ApplyLinear (in_features out_features : nat)
| ApplyReLU
| ApplyLogSoftmax (dim : Z)
| Output
| ComputeLoss (c : Criterion)
| Gradients
| Update.

Definition stage_of (e : event) : option stage :=
  match e with
  | EView _ => Some Flatten
  | ELayer (Linear i o _ _) _ => Some (ApplyLinear i o)
  | ELayer ReLU _ => Some ApplyReLU
  | ELayer (LogSoftmax d) _ => Some (ApplyLogSoftmax d)
  | EForward _ _ => Some Output
  | ELoss c _ => Some (ComputeLoss c)
  | EBackward _ => Some Gradients
  | EStep _ => Some Update
  | _ => None
  end.

Definition stages (evs : list event) : list stage := omap stage_of evs.

(** The stage at which a layer is applied, and the stages of one call of a
    model and of one training iteration on it under a criterion. *)
Definition layer_stage (l : Layer) : stage :=
  match l with
  | Linear i o _ _ => ApplyLinear i o
  | ReLU => ApplyReLU
  | LogSoftmax d => ApplyLogSoftmax d
  end.

Definition forward_stages (m : Sequential) : list stage :=
  (layer_stage <$> layers m) ++ [Output].

Definition iteration_stages (m : Sequential) (c : Criterion) : list stage :=
  Flatten :: forward_stages m ++ [ComputeLoss c; Gradients; Update].

(** The pipeline of cell 30, which stops at the loss, and the pipeline
    of an iteration of the training loop of cell 37. *)
Definition pipeline_30 : list stage :=
  [Flatten; ApplyLinear 784 128; ApplyReLU; ApplyLinear 128 64; ApplyReLU;
   ApplyLinear 64 10; Output; ComputeLoss CrossEntropyLoss].

Definition pipeline_37 : list stage :=
  [Flatten; ApplyLinear 784 128; ApplyReLU; ApplyLinear 128 64; ApplyReLU;
   ApplyLinear 64 10; ApplyLogSoftmax 1; Output; ComputeLoss NLLLoss;
   Gradients; Update].

(** The pipeline as the specification words it, for a criterion [c]: the
    class scores come straight out of the third linear layer. *)
Definition spec_pipeline (c : Criterion) : list stage :=
  [Flatten; ApplyLinear 784 128; ApplyReLU; ApplyLinear 128 64; ApplyReLU;
   ApplyLinear 64 10; Output; ComputeLoss c; Gradients; Update].

(** [k] passes through a pipeline, one after the other. *)
Definition passes (k : nat) (p : list stage) : list stage := concat (replicate k p).

(** Sequences of whole passes, and of whole passes and then the start of one. *)
Definition whole (p l : list stage) : Prop := exists k, l = passes k p.
Definition cut (p l : list stage) : Prop :=
  exists k rest, l = passes k p ++ rest /\ rest `prefix_of` p.

(** The names an iteration reads the model and the criterion from. *)
Definition names (m : Sequential) (c : Criterion) (s : state) : Prop :=
  globals s !! "model" = Some (VModel m) /\
  globals s !! "criterion" = Some (VCriterion c).

(** The order of an iteration as the specification words it. *)
Definition spec_training_order : list phase :=
  [Forward; Loss; Backward; ParameterStep; GradientReset].

(** The values returned by [loss.item()]. *)
Definition item_of (e : event) : option pyfloat :=
  match e with EItem v => Some v | _ => None end.
Definition items_of (evs : list event) : list pyfloat := omap item_of evs.

Definition is_iter (e : event) : Prop :=
  match e with EIter _ _ => True | _ => False end.
Definition is_raise (e : event) : Prop :=
  match e with ERaise _ => True | _ => False end.
Definition is_layer (e : event) : Prop :=
  match e with ELayer _ _ => True | _ => False end.

(** The events added to the trace between two states. *)
Definition since (s s' : state) : list event := drop (length (calls s)) (calls s').

(** The line the training cell prints for an average [v]. *)
Definition training_loss_line (v : pyfloat) : output :=
  [Str "Training loss: "; Repr (VFloat v)].

(** Whether a statement ended without an exception, the numbers among the
    printed lines, and the error of the framework a trace ends with. *)
Definition succeeded {A} (r : exn + A) : bool :=
  match r with inr _ => true | inl _ => false end.

Definition printed_value (line : output) : option pyfloat :=
  match line with
  | [Str _; Repr (VFloat v)] => Some v
  | _ => None
  end.

Definition printed_values (out : list output) : list pyfloat :=
  omap printed_value out.

Definition final_error (evs : list event) : option lib_error :=
  match last evs with
  | Some (ERaise e) => Some e
  | _ => None
  end.

(** *** What the properties speak of *)

(** What holds after a statement: [Qok] after a normal end, [Qerr] after an
    exception. *)
Definition wp {A} (m : M A) (Qok : A -> state -> Prop)
    (Qerr : exn -> state -> Prop) (s : state) : Prop :=
  match m s with
  | (inr a, s') => Qok a s'
  | (inl e, s') => Qerr e s'
  end.

(** Exceptions of Python itself, as opposed to those of the framework. *)
Definition python_exn (e : exn) : Prop :=
  match e with LibError _ => False | _ => True end.

Definition no_raise (evs : list event) : Prop := Forall (fun e => ~ is_raise e) evs.

(** The framework's exception and the trace agree: the framework raised at
    most once, as the last thing that happened, and what it raised is the
    exception of the statement. *)
Definition raised {A} (r : exn + A) (evs : list event) : Prop :=
  match r with
  | inl (LibError e) => exists evs0, evs = evs0 ++ [ERaise e] /\ no_raise evs0
  | _ => no_raise evs
  end.

Definition layer_event (e : event) : Prop := is_layer e \/ is_raise e.

Definition training_order : list phase :=
  [GradientReset; Forward; Loss; Backward; ParameterStep].

(** A gradient field that carries nothing from earlier backward passes. *)
Definition zeroed (p : Param) : Prop :=
  grad p = None \/ exists a, grad p = Some (t_zero a).

(** What [.grad] holds after one backward pass with gradient [g] on a
    zeroed field: [g] itself, or [g] added to a zero tensor. *)
Definition holds_only (g : tensor) (p : Param) : Prop :=
  grad p = Some g \/ exists a, grad p = Some (t_add (t_zero a) g).

Definition no_iter (evs : list event) : Prop := Forall (fun e => ~ is_iter e) evs.

(** The float a Python number stands for in an addition with a float. *)
Definition as_float (v : value) : pyfloat :=
  match v with
  | VInt x => float_of_int x
  | VFloat x => x
  | _ => float_of_int 0
  end.

Definition numeric (v : value) : Prop :=
  match v with VInt _ | VFloat _ => True | _ => False end.

(** The average the claim speaks of: the sum of the [loss.item()] values of
    the epoch, taken in order from 0, divided by [len(trainloader)]. *)
Definition spec_epoch_average (items : list pyfloat) (n : nat) : pyfloat :=
  float_div (fold_left float_add items (float_of_int 0)) (float_of_int (Z.of_nat n)).

(** The trace of one completed epoch: the pass over the loader starts, and
    one loss is read for each of its [n] batches. *)
Definition one_pass (ld : DataLoader) (evs : list event) : Prop :=
  exists n rest, evs = EIter ld n :: rest /\ no_iter rest /\ length (items_of rest) = n.

(** The lines printed for a list of completed epochs. *)
Definition epoch_lines (ld : DataLoader) (epochs : list (list event)) : list output :=
  (fun evs => training_loss_line (spec_epoch_average (items_of evs) (loader_len ld)))
    <$> epochs.

(** What training may do, for a model [m] and its optimizer [o]: evaluate
    [m], and reset or step [o]; it constructs nothing. *)
Definition trains (m : Sequential) (o : SGD) (e : event) : Prop :=
  match e with
  | EForward m' _ => m' = m
  | EZeroGrad o' | EStep o' => o' = o
  | ENewLinear _ | ENewSequential _ | ENewSGD _ => False
  | _ => True
  end.

(** What the prediction may do with a model [m]: evaluate it.  It
    constructs nothing and neither computes gradients nor updates. *)
Definition evaluates (m : Sequential) (e : event) : Prop :=
  match e with
  | EForward m' _ => m' = m
  | ENewLinear _ | ENewSequential _ | ENewSGD _
  | EZeroGrad _ | EBackward _ | EStep _ => False
  | _ => True
  end.

(** The model and the optimizer that cell 37 builds in a state [s]. *)
Definition model_37 (s : state) : Sequential :=
  {| m_id := 6 + next s;
     layers := [Linear 784 128 (next s) (1 + next s); ReLU;
                Linear 128 64 (2 + next s) (3 + next s); ReLU;
                Linear 64 10 (4 + next s) (5 + next s); LogSoftmax 1] |}.

Definition optimizer_37 (s : state) : SGD :=
  {| param_group := parameters (model_37 s); lr := float_lit (1 # 1000) |}.

(** The constructor calls of cell 37, in order. *)
Definition construction_37 (s : state) : list event :=
  [ENewLinear (Linear 784 128 (next s) (1 + next s));
   ENewLinear (Linear 128 64 (2 + next s) (3 + next s));
   ENewLinear (Linear 64 10 (4 + next s) (5 + next s));
   ENewSequential (model_37 s);
   ENewSGD (optimizer_37 s)].

Definition bound (m : Sequential) (o : SGD) (s : state) : Prop :=
  globals s !! "model" = Some (VModel m) /\
  globals s !! "optimizer" = Some (VOptimizer o).

(** What a call leaves in the graph: its result, cut off from the graph
    when gradients are switched off. *)
Definition record (on : bool) (y : tensor) : tensor := if on then y else detach y.

(** The layer [l] maps [x] to [y], with the parameters as the store [h]
    holds them. *)
Definition applies (on : bool) (h : gmap loc Param) (l : Layer) (x y : tensor) : Prop :=
  match l with
  | Linear _ _ w b =>
      exists pw pb y0,
        h !! w = Some pw /\ h !! b = Some pb /\
        F_linear x (leaf w (data pw)) (leaf b (data pb)) = inr y0 /\
        y = record on y0
  | ReLU => y = record on (F_relu x)
  | LogSoftmax d => exists y0, F_log_softmax x d = inr y0 /\ y = record on y0
  end.

(** The calls of a forward pass through the layers [ls], from [x] to [y]:
    one call per layer, each layer applied to what the layer before it
    returned. *)
Fixpoint forward_pass (on : bool) (h : gmap loc Param) (ls : list Layer)
    (x : tensor) (evs : list event) (y : tensor) : Prop :=
  match ls, evs with
  | [], [] => y = x
  | l :: ls', ELayer l' z :: evs' =>
      l' = l /\ applies on h l x z /\ forward_pass on h ls' z evs' y
  | _, _ => False
  end.

(** The calls of one completed iteration of the training loop on the batch
    [b], for the model [m], the criterion [c] and the optimizer [o], from
    the store [h]: the images are flattened, the gradients reset, the
    flattened images go through the layers of [m], the loss is computed by
    [c] from what the last layer returned and the labels, the gradients [gs]
    are those of that loss, the optimizer steps, and the loss is read. *)
Definition iteration (on : bool) (m : Sequential) (c : Criterion) (o : SGD)
    (h : gmap loc Param) (b : tensor * tensor) (evs : list event) : Prop :=
  exists n flat layer_evs logits loss gs v,
    t_shape0 b.1 = inr n /\
    t_view b.1 [n; -1]%Z = inr flat /\
    forward_pass on h (layers m) (record on flat) layer_evs logits /\
    match c with
    | CrossEntropyLoss => F_cross_entropy logits b.2
    | NLLLoss => F_nll_loss logits b.2
    end = inr loss /\
    autograd (record on loss) = inr gs /\
    t_item (record on loss) = inr v /\
    evs = [EView (record on flat); EZeroGrad o] ++ layer_evs ++
          [EForward m logits; ELoss c (record on loss); EBackward gs; EStep o;
           EItem v].

(** What a call does to the store of parameters: [zero_grad], [backward]
    and [step] change it as the framework defines them, and no other call
    changes it. *)
Definition heap_step (h : gmap loc Param) (e : event) : gmap loc Param :=
  match e with
  | EZeroGrad o => foldr (alter zero_param) h (param_group o)
  | EBackward gs => backward_into gs h
  | EStep o => foldr (alter (sgd_param (lr o))) h (param_group o)
  | _ => h
  end.

Definition heap_after (evs : list event) (h : gmap loc Param) : gmap loc Param :=
  foldl heap_step h evs.

(** Iterations one after the other, each from the store that the one
    before it left. *)
Fixpoint iterations (P : gmap loc Param -> list event -> Prop)
    (h : gmap loc Param) (its : list (list event)) : Prop :=
  match its with
  | [] => True
  | it :: rest => P h it /\ iterations P (heap_after it h) rest
  end.

(** The calls of a completed pass over a loader, given the calls of its
    iterations: the pass starts, the loader announcing as many batches as
    there are iterations, and the iterations follow. *)
Definition pass_events (p : DataLoader * list (list event)) : list event :=
  EIter p.1 (length p.2) :: concat p.2.

(** The store once cell 37 has constructed its model in a state [s]: the
    six new parameters, drawn from the generator, without gradient. *)
Definition built_37 (s : state) : gmap loc Param :=
  let '(w1, b1, g1) := linear_reset 784 128 (rng s) in
  let '(w2, b2, g2) := linear_reset 128 64 g1 in
  let '(w3, b3, _) := linear_reset 64 10 g2 in
  <[5 + next s := {| data := b3; grad := None |}]>
    (<[4 + next s := {| data := w3; grad := None |}]>
       (<[3 + next s := {| data := b2; grad := None |}]>
          (<[2 + next s := {| data := w2; grad := None |}]>
             (<[1 + next s := {| data := b1; grad := None |}]>
                (<[next s := {| data := w1; grad := None |}]> (heap s)))))).

(** An iteration of the training loop of cell 37 run from a state [s], on
    some batch. *)
Definition iteration_37 (s : state) (h : gmap loc Param) (evs : list event) : Prop :=
  exists b, iteration (grad_enabled s) (model_37 s) NLLLoss (optimizer_37 s) h b evs.

(** A statement through which every exception of the framework passes
    untouched: the trace shows the framework raising only if the statement
    ends with that very exception, and then as the last event. *)
Definition uncaught {A} (m : M A) : Prop :=
  forall s,
    wp m (fun _ s' => exists evs, calls s' = calls s ++ evs /\ no_raise evs)
         (fun e s' => exists evs, calls s' = calls s ++ evs /\ raised (inl e : exn + A) evs) s.

End Cells.
End Notebook.

(** ** A small executable framework

    Integers modulo 1009 stand for tensors and for floats, and a tensor
    carries its derivative with respect to each parameter it depends on.
    It serves to run the cells on concrete inputs. *)

Module Toy.
Import Torch.

Record num := { val : Z; dep : gmap nat Z }.

Definition norm (x : Z) : Z := (x `mod` 1009)%Z.
Definition const (x : Z) : num := {| val := x; dep := ∅ |}.
Definition scale (k : Z) (d : gmap nat Z) : gmap nat Z := (fun x => norm (k * x)) <$> d.
Definition plus (d1 d2 : gmap nat Z) : gmap nat Z :=
  union_with (fun x y => Some (x + y)%Z) d1 d2.

Definition linear (x w b : num) : num :=
  {| val := norm (val w * val x + val b);
     dep := plus (plus (scale (val x) (dep w)) (scale (val w) (dep x))) (dep b) |}.

Definition relu (x : num) : num :=
  if (val x <? 0)%Z then {| val := 0; dep := scale 0 (dep x) |} else x.

(** A squared error in place of the likelihood losses. *)
Definition loss (input target : num) : num :=
  {| val := norm ((val input - val target) * (val input - val target));
     dep := scale (2 * (val input - val target)) (dep input) |}.

Definition grads (t : num) : string + gmap nat num :=
  if decide (dep t = ∅) then inl "element 0 of tensors does not require grad"
  else inr (const <$> dep t).

(** The examples [(i, 2 i)], and batches that add up their examples. *)
Definition examples (train : bool) : list (Z * Z) :=
  (fun i => (Z.of_nat i, 2 * Z.of_nat i)%Z) <$> seq 1 (if train then 130 else 20).

Fixpoint chunks (fuel : nat) (size : nat) (xs : list (Z * Z)) : list (list (Z * Z)) :=
  match fuel, xs with
  | S fuel', _ :: _ => take size xs :: chunks fuel' size (drop size xs)
  | _, _ => []
  end.

Definition batch_of (xs : list (Z * Z)) : num * num :=
  (const (norm (foldr Z.add 0%Z xs.*1)), const (norm (foldr Z.add 0%Z xs.*2))).

Definition batches (ds : list (Z * Z)) (size : nat) (shuffled : bool) (g : Z)
  : list (num * num) * Z :=
  let k := if shuffled then Z.to_nat (g `mod` Z.of_nat (length ds))%Z else 0 in
  (batch_of <$> chunks (length ds) size (rotate k ds),
   if shuffled then (g + 1)%Z else g).

#[export] Instance framework : Framework := {|
  tensor := num;
  pyfloat := Z;
  lib_error := string;
  generator := Z;
  dataset := list (Z * Z);
  figure := Z;
  float_of_int := fun x => x;
  float_lit := fun q => Qnum q;
  float_add := Z.add;
  float_div := Z.div;
  t_shape0 := fun _ => inr 1%Z;
  t_view := fun t _ => inr t;
  t_getitem := fun t _ => inr t;
  t_item := fun t => inr (val t);
  t_exp := fun t => inr t;
  t_add := fun a g => {| val := val a + val g; dep := plus (dep a) (dep g) |};
  t_zero := fun _ => const 0;
  leaf := fun l t => {| val := val t; dep := {[ l := 1%Z ]} |};
  detach := fun t => const (val t);
  autograd := grads;
  F_linear := fun x w b => inr (linear x w b);
  F_relu := relu;
  F_log_softmax := fun x _ => inr x;
  F_nll_loss := fun input target => inr (loss input target);
  F_cross_entropy := fun input target => inr (loss input target);
  linear_reset := fun _ _ g => (const (norm g), const 0, (g + 1)%Z);
  sgd_update := fun rate d g => const (norm (val d - rate * val g));
  mnist := fun _ _ train _ => inr (examples train);
  mnist_log := fun _ _ _ _ => [];
  dataset_len := length;
  loader_init := fun ds _ shuffled =>
    if shuffled && (length ds =? 0)
    then inl "num_samples should be a positive integer value, but got num_samples=0"
    else inr tt;
  fetch_batches := batches;
  view_classify := fun _ ps => inr (val ps);
|}.

(** The kernel before any cell has run, with a given seed. *)
Definition start (seed : Z) : state :=
  {| globals := ∅; heap := ∅; next := 0; rng := seed; grad_enabled := true;
     stdout := []; calls := [] |}.

(** The state after cell 4 and the import of cell 31. *)
Definition ready (seed : Z) : state :=
  ((Notebook.cell_4;; store "optim" (VModule "torch.optim")) (start seed)).2.

(** The loader that cell 4 creates there, and the state after cell 37. *)
Definition loader : DataLoader :=
  {| dl_dataset := examples true; batch_size := 64; shuffle := true |}.

Definition trained (seed : Z) : state := (Notebook.cell_37 (ready seed)).2.

(** The first batch of the examples in their order. *)
Definition first_batch : num * num := batch_of (take 64 (examples true)).

(** A kernel in which gradients have been switched off. *)
Definition without_grad (seed : Z) : state := set_grad_enabled false (ready seed).

End Toy.


(** ** The framework at the level of shapes

    A tensor is its shape, together with the parameters it depends on and
    their shapes; numbers and the generator carry no information.  The
    operations follow the shape rules of the PyTorch documentation. *)

Module Shapes.
Import Torch.

Record shaped := { dims : list nat; leaves : list (nat * list nat) }.

Definition plain (d : list nat) : shaped := {| dims := d; leaves := [] |}.
Definition numel (d : list nat) : nat := foldr Nat.mul 1 d.

(** [Tensor.view]: one requested dimension may be -1 and is then inferred
    from the number of elements. *)
Definition is_hole (z : Z) : bool := (z =? -1)%Z.
Definition known (req : list Z) : nat :=
  foldr (fun z acc => if is_hole z then acc else Z.to_nat z * acc) 1 req.
Definition holes (req : list Z) : nat :=
  foldr (fun z acc => if is_hole z then S acc else acc) 0 req.
Definition fill (k : nat) (req : list Z) : list nat :=
  (fun z => if is_hole z then k else Z.to_nat z) <$> req.

Definition view_dims (d : list nat) (req : list Z) : string + list nat :=
  if existsb (fun z => (z <? -1)%Z) req then inl "invalid shape dimension"
  else match holes req with
       | 0 => if numel d =? known req then inr (fill 0 req)
              else inl "shape is invalid for input of this size"
       | 1 => if (0 <? known req) && (numel d `mod` known req =? 0)
              then inr (fill (numel d / known req) req)
              else inl "shape is invalid for input of this size"
       | _ => inl "only one dimension can be inferred"
       end.

Definition view (t : shaped) (req : list Z) : string + shaped :=
  match view_dims (dims t) req with
  | inl e => inl e
  | inr d => inr {| dims := d; leaves := leaves t |}
  end.

Definition shape0 (t : shaped) : string + Z :=
  match dims t with
  | d :: _ => inr (Z.of_nat d)
  | [] => inl "tuple index out of range"
  end.

Definition getitem (t : shaped) (i : Z) : string + shaped :=
  match dims t with
  | d :: rest =>
      if ((- Z.of_nat d <=? i) && (i <? Z.of_nat d))%Z
      then inr {| dims := rest; leaves := leaves t |}
      else inl "index out of range"
  | [] => inl "invalid index of a 0-dim tensor"
  end.

Definition item (t : shaped) : string + unit :=
  if numel (dims t) =? 1 then inr tt
  else inl "only one element tensors can be converted to Python scalars".

(** [F.linear(input, weight, bias)]: the last dimension of the input is
    [in]; the weight is [out x in], the bias [out], and the output has the
    input's shape with [out] as last dimension. *)
Definition linear (x w b : shaped) : string + shaped :=
  match dims w, dims b, last (dims x) with
  | [o; i], [o'], Some i' =>
      if (o =? o') && (i =? i')
      then inr {| dims := removelast (dims x) ++ [o];
                  leaves := leaves x ++ leaves w ++ leaves b |}
      else inl "size mismatch"
  | _, _, _ => inl "size mismatch"
  end.

Definition log_softmax (x : shaped) (dim : Z) : string + shaped :=
  if ((- Z.of_nat (length (dims x)) <=? dim) && (dim <? Z.of_nat (length (dims x))))%Z
  then inr x else inl "dimension out of range".

(** [F.nll_loss] and [F.cross_entropy] with the default mean reduction:
    input [N x C], target [N], output a scalar. *)
Definition class_loss (input target : shaped) : string + shaped :=
  match dims input, dims target with
  | [n; _], [n'] =>
      if n =? n' then inr {| dims := []; leaves := leaves input |}
      else inl "expected input batch size to match target batch size"
  | _, _ => inl "dimension mismatch"
  end.

(** [backward]: defined for a scalar that depends on some parameter; the
    gradient for a parameter has the parameter's shape. *)
Definition grads (t : shaped) : string + gmap nat shaped :=
  match dims t, leaves t with
  | [], _ :: _ => inr (list_to_map ((fun ld => (ld.1, plain ld.2)) <$> leaves t))
  | [], [] => inl "element 0 of tensors does not require grad"
  | _, _ => inl "grad can be implicitly created only for scalar outputs"
  end.

(** The batches of a pass over [n] images of 1 x 28 x 28: their sizes. *)
Fixpoint batch_sizes (fuel n size : nat) : list nat :=
  match fuel with
  | 0 => []
  | S fuel' =>
      if n =? 0 then []
      else if n <=? size then [n]
           else size :: batch_sizes fuel' (n - size) size
  end.

Definition image_batch (k : nat) : shaped * shaped :=
  (plain [k; 1; 28; 28], plain [k]).

Definition framework : Framework := {|
  tensor := shaped;
  pyfloat := unit;
  lib_error := string;
  generator := unit;
  dataset := nat;
  figure := unit;
  float_of_int := fun _ => tt;
  float_lit := fun _ => tt;
  float_add := fun _ _ => tt;
  float_div := fun _ _ => tt;
  t_shape0 := shape0;
  t_view := view;
  t_getitem := getitem;
  t_item := item;
  t_exp := fun t => inr t;
  t_add := fun a _ => plain (dims a);
  t_zero := fun a => plain (dims a);
  leaf := fun l t => {| dims := dims t; leaves := [(l, dims t)] |};
  detach := fun t => plain (dims t);
  autograd := grads;
  F_linear := linear;
  F_relu := fun x => x;
  F_log_softmax := log_softmax;
  F_nll_loss := class_loss;
  F_cross_entropy := class_loss;
  linear_reset := fun i o g => (plain [o; i], plain [o], g);
  sgd_update := fun _ d _ => plain (dims d);
  mnist := fun _ _ train _ => inr (N.to_nat (if train then 60000 else 10000));
  mnist_log := fun _ _ _ _ => [];
  dataset_len := fun n => n;
  loader_init := fun n _ shuffled =>
    if shuffled && (n =? 0)
    then inl "num_samples should be a positive integer value, but got num_samples=0"
    else inr tt;
  fetch_batches := fun n size _ g => (image_batch <$> batch_sizes n n size, g);
  view_classify := fun _ _ => inr tt;
|}.

#[local] Existing Instance framework.

(** The shape of what a call returned. *)
Definition event_dims (e : @event framework) : option (list nat) :=
  match e with
  | EView t | EGetItem t | EExp t | ELayer _ t | EForward _ t | ELoss _ t =>
      Some (dims t)
  | _ => None
  end.

Definition dims_of (evs : list (@event framework)) : list (list nat) :=
  omap event_dims evs.

(** The parameters of the model that cell 37 builds in a state [s0] have,
    in the state [s], the shapes [nn.Linear] gives them. *)
Definition parameter_shapes (s0 : @state framework) : list (nat * list nat) :=
  [(next s0, [128; 784]); (1 + next s0, [128]);
   (2 + next s0, [64; 128]); (3 + next s0, [64]);
   (4 + next s0, [10; 64]); (5 + next s0, [10])].

Definition params_shaped (s0 s : @state framework) : Prop :=
  Forall (fun ld => exists p, heap s !! ld.1 = Some p /\ dims (data p) = ld.2)
         (parameter_shapes s0).

(** The names are bound as cell 37 binds them, gradients are enabled, and
    the parameters have their shapes. *)
Definition prepared (s0 s : @state framework) : Prop :=
  Notebook.bound (Notebook.model_37 s0) (Notebook.optimizer_37 s0) s /\
  globals s !! "criterion" = Some (VCriterion NLLLoss) /\
  grad_enabled s = true /\
  params_shaped s0 s.

(** A state in which an iteration of the training loop of cell 37 can run:
    prepared, and with a number as running loss. *)
Definition trainable (s0 s : @state framework) : Prop :=
  prepared s0 s /\
  exists acc, globals s !! "running_loss" = Some acc /\ Notebook.numeric acc.

(** The loader that cell 4 creates, over [d] images. *)
Definition loader (d : nat) : @DataLoader framework :=
  {| dl_dataset := d; batch_size := 64; shuffle := true |}.

(** A state in which cell 37 can run: the modules are imported,
    [trainloader] is the loader that cell 4 creates over [d] images, and
    gradients are enabled. *)
Definition ready_for_37 (d : nat) (s : @state framework) : Prop :=
  (exists n, globals s !! "nn" = Some (VModule n)) /\
  (exists n, globals s !! "optim" = Some (VModule n)) /\
  globals s !! "trainloader" = Some (VLoader (loader d)) /\
  0 < d /\
  grad_enabled s = true.

(** A state in which cell 30 can run. *)
Definition ready_for_30 (d : nat) (s : @state framework) : Prop :=
  (exists n, globals s !! "nn" = Some (VModule n)) /\
  globals s !! "trainloader" = Some (VLoader (loader d)) /\
  0 < d /\
  grad_enabled s = true.

(** What flows through the network has the expected shape at every call of
    a training run: flattened images have 784 elements each; the layers map
    them to 128, 64 and then 10 elements per image, the last layer keeping
    10; the loss is a scalar; and the gradients are one per parameter, of the
    parameter's shape. *)
Definition flows (s0 : @state framework) (e : @event framework) : Prop :=
  match e with
  | EView t => exists n, dims t = [n; 784]
  | ELayer (Linear _ o _ _) t => exists n, dims t = [n; o]
  | ELayer ReLU t => exists n, dims t = [n; 128] \/ dims t = [n; 64]
  | ELayer (LogSoftmax _) t | EForward _ t => exists n, dims t = [n; 10]
  | ELoss _ t => dims t = []
  | EBackward gs =>
      gs = list_to_map ((fun ld => (ld.1, plain ld.2)) <$> parameter_shapes s0)
  | _ => True
  end.

(** The kernel before any cell has run, and after cell 4 and the import
    of cell 31. *)
Definition start : @state framework :=
  {| globals := ∅; heap := ∅; next := 0; rng := tt; grad_enabled := true;
     stdout := []; calls := [] |}.

Definition ready : @state framework :=
  ((Notebook.cell_4;; store "optim" (VModule "torch.optim")) start).2.

End Shapes.

(** ** The exercise cells

    The cells 9, 15, 16, 31, 32 and 33: a forward pass through the model
    with a [LogSoftmax] output, a look at a gradient before and after a
    backward pass, and one training step made by hand. *)

Module Exercises.
Import Torch Notebook.

(** What these cells use of the framework beyond [Framework]: the errors
    that [nn.Sequential.__getitem__] and [nn.Module.__getattr__] raise, and
    [Tensor.resize_]. *)
Class Indexing (F : Framework) := {
  index_error : Z -> lib_error;
  attribute_error : Layer -> string -> lib_error;
  t_resize_ : tensor -> list Z -> lib_error + tensor;
}.

Section Cells.
Context {F : Framework} {X : Indexing F}.

(** [model[i]] and [layer.weight]. *)
Definition model_getitem (m : Sequential) (i : nat) : M Layer :=
  lib (match layers m !! i with
       | Some l => inr l
       | None => inl (index_error (Z.of_nat i))
       end).

Definition layer_weight (l : Layer) : M loc :=
  lib (match l with
       | Linear _ _ w _ => inr w
       | _ => inl (attribute_error l "weight")
       end).

(** [model[0].weight]: the parameter object. *)
Definition first_weight : M Param :=
  model ← load_model "model";
  l ← model_getitem model 0;
  w ← layer_weight l;
  deref w.

(** The text of a [.grad] field. *)
Definition show_grad (g : option tensor) : fragment :=
  match g with
  | Some t => Repr (VTensor t)
  | None => Str "None"
  end.

(** Cell 9. *)
Definition cell_9 : M unit :=
  (* model = nn.Sequential(nn.Linear(784, 128), nn.ReLU(),
                           nn.Linear(128, 64), nn.ReLU(),
                           nn.Linear(64, 10), nn.LogSoftmax(dim=1)) *)
  use "nn";;
  l1 ← nn_Linear 784 128;
  a1 ← nn_ReLU;
  l2 ← nn_Linear 128 64;
  a2 ← nn_ReLU;
  l3 ← nn_Linear 64 10;
  out ← nn_LogSoftmax 1;
  model ← nn_Sequential [l1; a1; l2; a2; l3; out];
  store "model" (VModel model);;
  (* criterion = nn.NLLLoss() *)
  use "nn";;
  store "criterion" (VCriterion NLLLoss);;
  (* images, labels = next(iter(trainloader)) *)
  trainloader ← load_loader "trainloader";
  batch ← next_iter trainloader;
  store "images" (VTensor batch.1);;
  store "labels" (VTensor batch.2);;
  (* images = images.view(images.shape[0], -1) *)
  images ← load_tensor "images";
  n ← lib (t_shape0 images);
  images ← tensor_view images [n; -1]%Z;
  store "images" (VTensor images);;
  (* logits = model(images) *)
  model ← load_model "model";
  images ← load_tensor "images";
  logits ← call_model model images;
  store "logits" (VTensor logits);;
  (* loss = criterion(logits, labels) *)
  criterion ← load_criterion "criterion";
  logits ← load_tensor "logits";
  labels ← load_tensor "labels";
  loss ← call_criterion criterion logits labels;
  store "loss" (VTensor loss);;
  (* print(loss) *)
  loss ← load "loss";
  print [Repr loss].

(** Cell 15: as cell 9, with the criterion defined after the batch has
    been fetched and flattened. *)
Definition cell_15 : M unit :=
  (* model = nn.Sequential(...) *)
  use "nn";;
  l1 ← nn_Linear 784 128;
  a1 ← nn_ReLU;
  l2 ← nn_Linear 128 64;
  a2 ← nn_ReLU;
  l3 ← nn_Linear 64 10;
  out ← nn_LogSoftmax 1;
  model ← nn_Sequential [l1; a1; l2; a2; l3; out];
  store "model" (VModel model);;
  (* images, labels = next(iter(trainloader)) *)
  trainloader ← load_loader "trainloader";
  batch ← next_iter trainloader;
  store "images" (VTensor batch.1);;
  store "labels" (VTensor batch.2);;
  (* images = images.view(images.shape[0], -1) *)
  images ← load_tensor "images";
  n ← lib (t_shape0 images);
  images ← tensor_view images [n; -1]%Z;
  store "images" (VTensor images);;
  (* criterion = nn.NLLLoss() *)
  use "nn";;
  store "criterion" (VCriterion NLLLoss);;
  (* logits = model(images) *)
  model ← load_model "model";
  images ← load_tensor "images";
  logits ← call_model model images;
  store "logits" (VTensor logits);;
  (* loss = criterion(logits, labels) *)
  criterion ← load_criterion "criterion";
  logits ← load_tensor "logits";
  labels ← load_tensor "labels";
  loss ← call_criterion criterion logits labels;
  store "loss" (VTensor loss);;
  (* print(loss) *)
  loss ← load "loss";
  print [Repr loss].

(** Cell 16: the gradient of the first weight before and after the backward
    pass. *)
Definition cell_16 : M unit :=
  (* print('Before backward pass: \n', model[0].weight.grad) *)
  p ← first_weight;
  print [Str "Before backward pass: \n"; show_grad (grad p)];;
  (* loss.backward() *)
  loss ← load_tensor "loss";
  backward loss;;
  (* print('After backward pass: \n', model[0].weight.grad) *)
  p ← first_weight;
  print [Str "After backward pass: \n"; show_grad (grad p)].

(** Cell 31: the optimizer over the parameters of the current model. *)
Definition cell_31 : M unit :=
  (* from torch import optim *)
  store "optim" (VModule "torch.optim");;
  (* optimizer = optim.SGD(model.parameters(), lr=0.01) *)
  use "optim";;
  model ← load_model "model";
  optimizer ← optim_SGD (parameters model) (float_lit (1 # 100));
  store "optimizer" (VOptimizer optimizer).

(** Cell 32: gradient reset, forward pass, loss and backward pass on one
    batch.  [resize_] works in place: the name [images] then denotes the
    resized tensor. *)
Definition cell_32 : M unit :=
  (* print('Initial weights - ', model[0].weight) *)
  p ← first_weight;
  print [Str "Initial weights - "; Repr (VTensor (data p))];;
  (* images, labels = next(iter(trainloader)) *)
  trainloader ← load_loader "trainloader";
  batch ← next_iter trainloader;
  store "images" (VTensor batch.1);;
  store "labels" (VTensor batch.2);;
  (* images.resize_(64, 784) *)
  images ← load_tensor "images";
  images ← lib (t_resize_ images [64; 784]%Z);
  store "images" (VTensor images);;
  (* optimizer.zero_grad() *)
  optimizer ← load_optimizer "optimizer";
  zero_grad optimizer;;
  (* output = model(images) *)
  model ← load_model "model";
  images ← load_tensor "images";
  output ← call_model model images;
  store "output" (VTensor output);;
  (* loss = criterion(output, labels) *)
  criterion ← load_criterion "criterion";
  output ← load_tensor "output";
  labels ← load_tensor "labels";
  loss ← call_criterion criterion output labels;
  store "loss" (VTensor loss);;
  (* loss.backward() *)
  loss ← load_tensor "loss";
  backward loss;;
  (* print('Gradient -', model[0].weight.grad) *)
  p ← first_weight;
  print [Str "Gradient -"; show_grad (grad p)].

(** Cell 33: the update step. *)
Definition cell_33 : M unit :=
  (* optimizer.step() *)
  optimizer ← load_optimizer "optimizer";
  step optimizer;;
  (* print('Updated weights - ', model[0].weight) *)
  p ← first_weight;
  print [Str "Updated weights - "; Repr (VTensor (data p))].

(** *** Running cells one after the other *)

(** The kernel keeps what a cell has done when the cell raises, and the
    next cell runs from there. *)
Definition run_cells (cells : list (M unit)) (s : state) : state :=
  foldl (fun s cell => (cell s).2) s cells.

(** The modelled cells of the notebook. *)
Definition notebook_cells : list (M unit) :=
  [cell_4; cell_30; cell_9; cell_15; cell_16; cell_31; cell_32; cell_33;
   cell_37; cell_60].

(** The names that each cell assigns to, as its text shows them. *)
Definition assigned_names : list (M unit * list string) :=
  [(cell_4, ["torch"; "nn"; "F"; "datasets"; "transforms"; "transform";
             "trainset"; "trainloader"]);
   (cell_30, ["model"; "criterion"; "images"; "labels"; "logits"; "loss"]);
   (cell_9, ["model"; "criterion"; "images"; "labels"; "logits"; "loss"]);
   (cell_15, ["model"; "criterion"; "images"; "labels"; "logits"; "loss"]);
   (cell_16, []);
   (cell_31, ["optim"; "optimizer"]);
   (cell_32, ["images"; "labels"; "output"; "loss"]);
   (cell_33, []);
   (cell_37, ["model"; "criterion"; "optimizer"; "epochs"; "epoch";
              "running_loss"; "images"; "labels"; "logits"; "loss"]);
   (cell_60, ["helper"; "images"; "labels"; "img"; "logps"; "ps"])].

(** Every name outside [ns] is bound in [s'] as it is in [s]. *)
Definition keeps_names (ns : list string) (s s' : state) : Prop :=
  forall x, x ∉ ns -> globals s' !! x = globals s !! x.

(** *** What the properties speak of *)

(** The model bound in a state returns log-probabilities whenever the
    criterion bound there expects them. *)
Definition paired (s : state) : Prop :=
  forall m, globals s !! "model" = Some (VModel m) ->
            globals s !! "criterion" = Some (VCriterion NLLLoss) ->
            last (layers m) = Some (LogSoftmax 1).

(** The model that cells 9 and 15 build in a state [s]; it is the model of
    cell 37. *)
Definition model_15 (s : state) : Sequential := model_37 s.

(** The parameters below [n] of a store [h] have the same data in [h'];
    and the parameters that exist in a state [s] have the same data in
    [s']. *)
Definition data_kept (n : nat) (h h' : gmap loc Param) : Prop :=
  forall l p, l < n -> h !! l = Some p ->
              exists p', h' !! l = Some p' /\ data p' = data p.

Definition keeps_data (s s' : state) : Prop :=
  data_kept (next s) (heap s) (heap s').

(** What cell 9 or cell 15, run from [s], has done when it ends normally in
    [s1]: the new model and its criterion are bound, the six parameters of
    the model are new and without gradient, and the parameters that existed
    are what they were. *)
Definition fresh_model (s s1 : state) : Prop :=
  globals s1 !! "model" = Some (VModel (model_15 s)) /\
  globals s1 !! "criterion" = Some (VCriterion NLLLoss) /\
  next s1 = 7 + next s /\
  (forall l, l ∈ parameters (model_15 s) ->
             exists p, heap s1 !! l = Some p /\ grad p = None) /\
  (forall l, l < next s -> heap s1 !! l = heap s !! l).

(** A loader none of whose passes yields a batch. *)
Definition yields_nothing (ld : DataLoader) : Prop :=
  forall g, (fetch_batches (dl_dataset ld) (batch_size ld) (shuffle ld) g).1 = [].

End Cells.

(** The two instances, extended. *)
#[export] Instance toy_indexing : Indexing Toy.framework :=
  Build_Indexing Toy.framework
    (fun _ => "index out of range"%string)
    (fun _ _ => "object has no attribute"%string)
    (fun t _ => inr t).

(** [resize_] gives the tensor the requested shape, whatever its number of
    elements was. *)
Definition shapes_resize (t : Shapes.shaped) (req : list Z) : string + Shapes.shaped :=
  if forallb (fun z => (0 <=? z)%Z) req
  then inr {| Shapes.dims := Z.to_nat <$> req; Shapes.leaves := Shapes.leaves t |}
  else inl "invalid shape dimension"%string.

Definition shapes_indexing : Indexing Shapes.framework :=
  Build_Indexing Shapes.framework
    (fun _ => "index out of range"%string)
    (fun _ _ => "object has no attribute"%string)
    shapes_resize.

(** *** Kernels on which the cells are run *)

(** The small framework after cell 4 alone, after cell 4 and the cells 15,
    31 and 32 in turn, and with a loader over no example at all, which
    cannot shuffle. *)
Definition toy_after_4 : @state Toy.framework := (cell_4 (Toy.start 0)).2.
Definition toy_after_15 : @state Toy.framework := (cell_15 (Toy.ready 0)).2.
Definition toy_after_31 : @state Toy.framework := (cell_31 toy_after_15).2.
Definition toy_after_32 : @state Toy.framework := (cell_32 toy_after_31).2.

Definition toy_empty_loader : @DataLoader Toy.framework :=
  @Build_DataLoader Toy.framework [] 64 false.

Definition toy_empty : @state Toy.framework :=
  set_globals (<["trainloader" := VLoader toy_empty_loader]> (globals (Toy.ready 0)))
    (Toy.ready 0).

(** The optimizer that cell 31 makes there, and the first weight as cell 15
    draws it. *)
Definition toy_optimizer : @SGD Toy.framework :=
  @Build_SGD Toy.framework [0; 1; 2; 3; 4; 5] 1%Z.

Definition toy_first_weight : @Param Toy.framework :=
  @Build_Param Toy.framework (Toy.const 0) None.

End Exercises.

(** ** The autograd cells

    The cells 21 to 26: a random tensor that requires a gradient, its
    square, the mean of the square, and the gradient of the mean. *)

Module Autograd.
Import Torch Notebook Exercises.

(** What these cells use of the framework beyond [Framework]: [torch.randn],
    the operations [**], [mean] and [/], the name of the function that made
    a tensor, and the parameter object behind a tensor that is a leaf of
    the graph. *)
Class Elementwise (F : Framework) := {
  randn : list Z -> generator -> tensor * generator;
  t_pow : tensor -> Z -> lib_error + tensor;
  t_mean : tensor -> lib_error + tensor;
  t_div : tensor -> Z -> lib_error + tensor;
  grad_fn : tensor -> option string;
  leaf_of : tensor -> option loc;
}.

Section Cells.
Context {F : Framework} {X : Indexing F} {Y : Elementwise F}.

(** [torch.randn(dims, requires_grad=True)]: a new leaf of the graph, drawn
    from the generator, without gradient. *)
Definition torch_randn (dims : list Z) : M tensor :=
  g ← gets rng;
  let '(d, g') := randn dims g in
  modify (set_rng g');;
  l ← alloc {| data := d; grad := None |};
  mret (leaf l d).

(** [t.grad]: the gradient field of the object behind a leaf, and [None]
    for a tensor that is not a leaf. *)
Definition tensor_grad (t : tensor) : M (option tensor) :=
  match leaf_of t with
  | Some l => p ← deref l; mret (grad p)
  | None => mret None
  end.

(** The text of a [.grad_fn] field. *)
Definition show_grad_fn (f : option string) : fragment :=
  match f with
  | Some name => Str name
  | None => Str "None"
  end.

(** Cell 21. *)
Definition cell_21 : M unit :=
  (* x = torch.randn(2,2, requires_grad=True) *)
  use "torch";;
  x ← torch_randn [2; 2]%Z;
  store "x" (VTensor x);;
  (* print(x) *)
  x ← load "x";
  print [Repr x].

(** Cell 22. *)
Definition cell_22 : M unit :=
  (* y = x**2 *)
  x ← load_tensor "x";
  y ← lib (t_pow x 2);
  y ← recorded y;
  store "y" (VTensor y);;
  (* print(y) *)
  y ← load "y";
  print [Repr y].

(** Cell 23. *)
Definition cell_23 : M unit :=
  (* print(y.grad_fn) *)
  y ← load_tensor "y";
  print [show_grad_fn (grad_fn y)].

(** Cell 24. *)
Definition cell_24 : M unit :=
  (* z = y.mean() *)
  y ← load_tensor "y";
  z ← lib (t_mean y);
  z ← recorded z;
  store "z" (VTensor z);;
  (* print(z) *)
  z ← load "z";
  print [Repr z].

(** Cell 25. *)
Definition cell_25 : M unit :=
  (* print(x.grad) *)
  x ← load_tensor "x";
  g ← tensor_grad x;
  print [show_grad g].

(** Cell 26. *)
Definition cell_26 : M unit :=
  (* z.backward() *)
  z ← load_tensor "z";
  backward z;;
  (* print(x.grad) *)
  x ← load_tensor "x";
  g ← tensor_grad x;
  print [show_grad g];;
  (* print(x/2) *)
  x ← load_tensor "x";
  half ← lib (t_div x 2);
  half ← recorded half;
  print [Repr (VTensor half)].

(** The sixteen code cells of the notebook, in document order. *)
Definition code_cells : list (M unit) :=
  [cell_4; cell_30; cell_9; cell_21; cell_22; cell_23; cell_24; cell_25;
   cell_26; cell_15; cell_16; cell_31; cell_32; cell_33; cell_37; cell_60].

End Cells.

(** The small framework, extended: a tensor is a leaf when it depends on
    one parameter object, with derivative 1. *)
Definition toy_pow (x : Toy.num) (k : Z) : Toy.num :=
  {| Toy.val := Toy.norm (Toy.val x ^ k);
     Toy.dep := Toy.scale (k * Toy.val x ^ (k - 1)) (Toy.dep x) |}.

Definition toy_leaf_of (x : Toy.num) : option nat :=
  match map_to_list (Toy.dep x) with
  | [(l, 1%Z)] => Some l
  | _ => None
  end.

#[export] Instance toy_elementwise : Elementwise Toy.framework :=
  Build_Elementwise Toy.framework
    (fun _ g => (Toy.const (Toy.norm g), (g + 1)%Z))
    (fun x k => inr (toy_pow x k))
    (fun x => inr x)
    (fun x k => if decide (k = 0%Z) then inl "division by zero"%string
                else inr (Toy.const (Toy.val x `div` k)))
    (fun x => if decide (Toy.dep x = ∅) then None
              else match toy_leaf_of x with
                   | Some _ => None
                   | None => Some "<Backward>"%string
                   end)
    toy_leaf_of.

End Autograd.

(** * Properties *)

(** ** The stored text and output *)

(** C2.  The ten numbers on the lines of the training cell's stored output,
    from 2.220362721984066 down to 0.47521274567031657, are strictly
    decreasing: each is smaller than every one before it. *)
Theorem recorded_losses_strictly_decreasing :
  exists ls,
    Source.recorded_losses = Some ls /\
    length ls = 10 /\
    head ls = Some 2.220362721984066%Q /\
    last ls = Some 0.47521274567031657%Q /\
    StronglySorted (fun a b => (b < a)%Q) ls.
Proof.
  eexists. split; [vm_compute; reflexivity|].
  split; [reflexivity|]. split; [reflexivity|]. split; [reflexivity|].
  repeat (constructor; [|repeat (constructor; [reflexivity|]); constructor]).
  constructor.
Qed.

(** ** Reasoning about statements *)

Import Torch Notebook.

Section Reasoning.
Context {F : Framework}.


Lemma wp_run {A} (m : M A) Qok Qerr s :
  wp m Qok Qerr s <->
  forall r s', m s = (r, s') ->
    match r with inr a => Qok a s' | inl e => Qerr e s' end.
Proof.
  unfold wp. split.
  - intros H r s' E. by rewrite E in H.
  - intros H. destruct (m s) as [r s'] eqn:E. by apply (H r s').
Qed.

Lemma wp_bind {A B} (m : M A) (k : A -> M B) Qok Qerr s :
  wp m (fun a s1 => wp (k a) Qok Qerr s1) Qerr s -> wp (m ≫= k) Qok Qerr s.
Proof.
  unfold wp, mbind, M_bind. by destruct (m s) as [[e|a] s1].
Qed.

Lemma wp_ret {A} (a : A) (Qok : A -> state -> Prop) Qerr s :
  Qok a s -> wp (mret a) Qok Qerr s.
Proof. done. Qed.

Lemma wp_raise {A} e (Qok : A -> state -> Prop) Qerr s :
  Qerr e s -> wp (raise e) Qok Qerr s.
Proof. done. Qed.

Lemma wp_gets {A} (f : state -> A) (Qok : A -> state -> Prop) Qerr s :
  Qok (f s) s -> wp (gets f) Qok Qerr s.
Proof. done. Qed.

Lemma wp_modify f (Qok : unit -> state -> Prop) Qerr s :
  Qok tt (f s) -> wp (modify f) Qok Qerr s.
Proof. done. Qed.

Lemma wp_lib {A} (r : lib_error + A) (Qok : A -> state -> Prop) Qerr s :
  match r with
  | inr a => Qok a s
  | inl e => Qerr (LibError e) (set_calls (calls s ++ [ERaise e]) s)
  end -> wp (lib r) Qok Qerr s.
Proof. by destruct r. Qed.

Lemma wp_mono {A} (m : M A) (Qok Qok' : A -> state -> Prop) (Qerr Qerr' : exn -> state -> Prop) s :
  wp m Qok Qerr s ->
  (forall a s', Qok a s' -> Qok' a s') ->
  (forall e s', Qerr e s' -> Qerr' e s') ->
  wp m Qok' Qerr' s.
Proof. unfold wp. destruct (m s) as [[e|a] s1]; auto. Qed.


Lemma wp_load x (Qok : value -> state -> Prop) Qerr s :
  (forall v, globals s !! x = Some v -> Qok v s) ->
  (forall e, python_exn e -> Qerr e s) ->
  wp (load x) Qok Qerr s.
Proof.
  intros Hok Herr. unfold wp, load, mbind, M_bind, gets.
  destruct (globals s !! x) as [v|] eqn:E; simpl; [by apply Hok | by apply Herr].
Qed.

Lemma wp_use x (Qok : unit -> state -> Prop) Qerr s :
  (forall n, globals s !! x = Some (VModule n) -> Qok tt s) ->
  (forall e, python_exn e -> Qerr e s) ->
  wp (use x) Qok Qerr s.
Proof.
  intros Hok Herr. apply wp_bind, wp_load; [|done].
  intros [] E; try (by apply Herr). by eapply Hok.
Qed.

Lemma wp_load_transform x (Qok : list Transform -> state -> Prop) Qerr s :
  (forall t, globals s !! x = Some (VTransform t) -> Qok t s) ->
  (forall e, python_exn e -> Qerr e s) ->
  wp (load_transform x) Qok Qerr s.
Proof.
  intros Hok Herr. apply wp_bind, wp_load; [|done].
  intros [] E; try (by apply Herr). by eapply Hok.
Qed.

Lemma wp_load_dataset x (Qok : dataset -> state -> Prop) Qerr s :
  (forall d, globals s !! x = Some (VDataset d) -> Qok d s) ->
  (forall e, python_exn e -> Qerr e s) ->
  wp (load_dataset x) Qok Qerr s.
Proof.
  intros Hok Herr. apply wp_bind, wp_load; [|done].
  intros [] E; try (by apply Herr). by eapply Hok.
Qed.

Lemma wp_load_loader x (Qok : DataLoader -> state -> Prop) Qerr s :
  (forall ld, globals s !! x = Some (VLoader ld) -> Qok ld s) ->
  (forall e, python_exn e -> Qerr e s) ->
  wp (load_loader x) Qok Qerr s.
Proof.
  intros Hok Herr. apply wp_bind, wp_load; [|done].
  intros [] E; try (by apply Herr). by eapply Hok.
Qed.

Lemma wp_load_model x (Qok : Sequential -> state -> Prop) Qerr s :
  (forall m, globals s !! x = Some (VModel m) -> Qok m s) ->
  (forall e, python_exn e -> Qerr e s) ->
  wp (load_model x) Qok Qerr s.
Proof.
  intros Hok Herr. apply wp_bind, wp_load; [|done].
  intros [] E; try (by apply Herr). by eapply Hok.
Qed.

Lemma wp_load_criterion x (Qok : Criterion -> state -> Prop) Qerr s :
  (forall c, globals s !! x = Some (VCriterion c) -> Qok c s) ->
  (forall e, python_exn e -> Qerr e s) ->
  wp (load_criterion x) Qok Qerr s.
Proof.
  intros Hok Herr. apply wp_bind, wp_load; [|done].
  intros [] E; try (by apply Herr). by eapply Hok.
Qed.

Lemma wp_load_optimizer x (Qok : SGD -> state -> Prop) Qerr s :
  (forall o, globals s !! x = Some (VOptimizer o) -> Qok o s) ->
  (forall e, python_exn e -> Qerr e s) ->
  wp (load_optimizer x) Qok Qerr s.
Proof.
  intros Hok Herr. apply wp_bind, wp_load; [|done].
  intros [] E; try (by apply Herr). by eapply Hok.
Qed.

Lemma wp_load_tensor x (Qok : tensor -> state -> Prop) Qerr s :
  (forall t, globals s !! x = Some (VTensor t) -> Qok t s) ->
  (forall e, python_exn e -> Qerr e s) ->
  wp (load_tensor x) Qok Qerr s.
Proof.
  intros Hok Herr. apply wp_bind, wp_load; [|done].
  intros [] E; try (by apply Herr). by eapply Hok.
Qed.

Lemma wp_load_int x (Qok : Z -> state -> Prop) Qerr s :
  (forall n, globals s !! x = Some (VInt n) -> Qok n s) ->
  (forall e, python_exn e -> Qerr e s) ->
  wp (load_int x) Qok Qerr s.
Proof.
  intros Hok Herr. apply wp_bind, wp_load; [|done].
  intros [] E; try (by apply Herr). by eapply Hok.
Qed.

Lemma wp_no_grad {A} (body : M A) (Qok : A -> state -> Prop) Qerr s :
  wp body (fun a s' => Qok a (set_grad_enabled (grad_enabled s) s'))
          (fun e s' => Qerr e (set_grad_enabled (grad_enabled s) s'))
          (set_grad_enabled false s) ->
  wp (no_grad body) Qok Qerr s.
Proof.
  unfold wp, no_grad. by destruct (body (set_grad_enabled false s)) as [[e|a] s1].
Qed.

(** A loop with an invariant over the elements already visited. *)
Lemma wp_for_each {A} (Inv : list A -> state -> Prop) (xs : list A)
    (body : A -> M unit) (Qok : unit -> state -> Prop) Qerr s :
  Inv [] s ->
  (forall done x rest s1, xs = done ++ x :: rest -> Inv done s1 ->
     wp (body x) (fun _ s2 => Inv (done ++ [x]) s2) Qerr s1) ->
  (forall s2, Inv xs s2 -> Qok tt s2) ->
  wp (for_each xs body) Qok Qerr s.
Proof.
  intros H0 Hbody Hend.
  assert (forall done rest s1, xs = done ++ rest -> Inv done s1 ->
            wp (for_each rest body) Qok Qerr s1) as Hgen.
  { intros done rest. revert done.
    induction rest as [|x rest IH]; intros done s1 Hxs HI.
    - apply wp_ret, Hend. by rewrite Hxs, app_nil_r.
    - simpl. apply wp_bind.
      eapply wp_mono; [by eapply Hbody | | done].
      intros [] s2 HI2. apply (IH (done ++ [x])); [|done].
      by rewrite <- app_assoc. }
  by apply (Hgen [] xs).
Qed.

End Reasoning.


Section Rules.
Context {F : Framework}.




Lemma state_eta s :
  {| globals := globals s; heap := heap s; next := next s; rng := rng s;
     grad_enabled := grad_enabled s; stdout := stdout s; calls := calls s |} = s.
Proof. by destruct s. Qed.

End Rules.

Ltac st_simpl :=
  unfold set_globals, set_heap, set_next, set_rng, set_grad_enabled,
    set_stdout, set_calls in *;
  cbn [globals heap next rng grad_enabled stdout calls fst snd] in *.

Ltac head_of t := lazymatch t with ?f _ => head_of f | _ => t end.

Ltac map_simpl :=
  repeat first
    [ rewrite lookup_insert_eq
    | rewrite lookup_insert_ne by done
    | match goal with
      | H : context [<[_:=_]> _ !! _] |- _ =>
          first [rewrite lookup_insert_eq in H | rewrite lookup_insert_ne in H by done]
      end ];
  simplify_eq.

(** One step through a statement; [err] closes the goals for the ways the
    statement can raise. *)
Ltac wp_step0 err :=
  lazymatch goal with
  | |- wp (mbind _ _) _ _ _ => apply wp_bind
  | |- wp (mret _) _ _ _ => apply wp_ret
  | |- wp (raise _) _ _ _ => apply wp_raise; st_simpl; err
  | |- wp (gets _) _ _ _ => apply wp_gets
  | |- wp (modify _) _ _ _ => apply wp_modify
  | |- wp (lib ?r) _ _ _ =>
      apply wp_lib; let E := fresh "E" in destruct r eqn:E; [st_simpl; err|]
  | |- wp (load _) _ _ _ => apply wp_load; [intros ? ?|intros ? ?; st_simpl; err]
  | |- wp (use _) _ _ _ => apply wp_use; [intros ? ?|intros ? ?; st_simpl; err]
  | |- wp (load_transform _) _ _ _ =>
      apply wp_load_transform; [intros ? ?|intros ? ?; st_simpl; err]
  | |- wp (load_dataset _) _ _ _ =>
      apply wp_load_dataset; [intros ? ?|intros ? ?; st_simpl; err]
  | |- wp (load_loader _) _ _ _ =>
      apply wp_load_loader; [intros ? ?|intros ? ?; st_simpl; err]
  | |- wp (load_model _) _ _ _ =>
      apply wp_load_model; [intros ? ?|intros ? ?; st_simpl; err]
  | |- wp (load_criterion _) _ _ _ =>
      apply wp_load_criterion; [intros ? ?|intros ? ?; st_simpl; err]
  | |- wp (load_optimizer _) _ _ _ =>
      apply wp_load_optimizer; [intros ? ?|intros ? ?; st_simpl; err]
  | |- wp (load_tensor _) _ _ _ =>
      apply wp_load_tensor; [intros ? ?|intros ? ?; st_simpl; err]
  | |- wp (load_int _) _ _ _ =>
      apply wp_load_int; [intros ? ?|intros ? ?; st_simpl; err]
  | |- wp (no_grad _) _ _ _ => apply wp_no_grad
  | |- wp (call_layers _ _) _ _ _ => fail "call_layers: use its rule"
  | |- wp (for_each _ _) _ _ _ => fail "for_each: give an invariant"
  | |- wp (match ?x with _ => _ end) _ _ _ => destruct x eqn:?
  | |- wp ?m _ _ _ => let h := head_of m in unfold h
  end; st_simpl; map_simpl.


Section Rules2.
Context {F : Framework}.

Lemma wp_call_layers ls x (Qok : tensor -> state -> Prop) Qerr s :
  (forall r evs, Forall layer_event evs -> raised r evs ->
     match r with
     | inr y => Qok y (set_calls (calls s ++ evs) s)
     | inl e => Qerr e (set_calls (calls s ++ evs) s)
     end) ->
  wp (call_layers ls x) Qok Qerr s.
Proof.
  revert x s Qok Qerr. induction ls as [|l ls IH]; intros x s Qok Qerr H.
  - apply wp_ret. specialize (H (inr x) []). unfold set_calls in H.
    rewrite app_nil_r, state_eta in H. apply H; constructor.
  - assert (forall e evs,
        set_calls ((calls s ++ [e]) ++ evs) (set_calls (calls s ++ [e]) s)
        = set_calls (calls s ++ e :: evs) s) as Hs.
    { intros e evs. by rewrite <- app_assoc. }
    assert (forall (r : exn + tensor) e evs, ~ is_raise e -> raised r evs -> raised r (e :: evs)) as Hr.
    { intros [[]|] ev evs He; simpl; try (by constructor).
      intros (evs0 & -> & H0). exists (ev :: evs0). split; [done|by constructor]. }
    simpl. repeat wp_step0 idtac.
    all: try (apply IH; intros r evs Hl Hr'; st_simpl; rewrite Hs;
              apply H; [constructor; [by left|done] | apply Hr; [tauto|done]]).
    all: try (match goal with
              | |- _ (Dangling ?l) _ =>
                  specialize (H (inl (Dangling l)) []);
                  rewrite app_nil_r, state_eta in H;
                  apply H; by constructor
              end).
    all: apply (H (inl _) [_]);
      [constructor; [by right|constructor] | exists []; split; [done|constructor]].
Qed.

Lemma wp_call_model m x (Qok : tensor -> state -> Prop) Qerr s :
  (forall r evs, Forall layer_event evs -> raised r evs ->
     match r with
     | inr y => Qok y (set_calls (calls s ++ evs ++ [EForward m y]) s)
     | inl e => Qerr e (set_calls (calls s ++ evs) s)
     end) ->
  wp (call_model m x) Qok Qerr s.
Proof.
  intros H. unfold call_model. apply wp_bind, wp_call_layers.
  intros [e|y] evs Hl Hr; [by apply (H (inl e))|].
  specialize (H (inr y) evs Hl Hr). simpl in H.
  repeat wp_step0 idtac. by rewrite <- app_assoc.
Qed.

End Rules2.

Ltac wp_step err :=
  lazymatch goal with
  | |- wp (call_model _ _) _ _ _ =>
      apply wp_call_model; intros [?|?] ? ? ?; st_simpl; [err|]
  | |- wp (call_layers _ _) _ _ _ =>
      apply wp_call_layers; intros [?|?] ? ? ?; st_simpl; [err|]
  | |- _ => wp_step0 err
  end.

Ltac wp_steps err := repeat wp_step err.



Ltac trace_split :=
  eexists; split;
  [ first [ reflexivity | rewrite <- !app_assoc; reflexivity
          | symmetry; apply app_nil_r ] | ].

Ltac trace_eq :=
  first [ reflexivity | rewrite <- !app_assoc; reflexivity
        | symmetry; apply app_nil_r ].
Ltac trace_ex := eexists; trace_eq.

Section Frames.
Context {F : Framework}.

Lemma wp_frame_heap_cell_60 s :
  wp cell_60 (fun _ s' => heap s' = heap s /\ grad_enabled s' = grad_enabled s)
             (fun _ s' => heap s' = heap s /\ grad_enabled s' = grad_enabled s) s.
Proof. unfold cell_60. wp_steps ltac:(done). done. Qed.

(** C10.  Running the prediction cell (60) leaves every parameter object of
    the store as it was, data and gradient field alike, whatever the state it
    starts from and whether it ends normally or with an exception; the
    gradient mode switched off for the forward pass is back to what it was. *)
Theorem prediction_leaves_parameters_unchanged (s : state) :
  (forall l, heap (cell_60 s).2 !! l = heap s !! l) /\
  grad_enabled (cell_60 s).2 = grad_enabled s.
Proof.
  pose proof (wp_frame_heap_cell_60 s) as H. unfold wp in H.
  destruct (cell_60 s) as [[e|[]] s']; simpl; destruct H as [-> ->]; done.
Qed.


Lemma phases_layer_events evs : Forall layer_event evs -> phases evs = [].
Proof.
  induction 1 as [|e evs He _ IH]; [done|].
  destruct He as [He|He]; destruct e; try done; exact IH.
Qed.

Lemma phases_app evs1 evs2 : phases (evs1 ++ evs2) = phases evs1 ++ phases evs2.
Proof. apply omap_app. Qed.

Ltac phases_tac :=
  rewrite ?phases_app;
  repeat match goal with
         | H : Forall layer_event ?evs |- _ => rewrite (phases_layer_events evs H)
         end;
  simpl; try reflexivity; try (by eexists).

Lemma train_batch_phases b s :
  wp (train_batch b)
     (fun _ s' => exists evs, calls s' = calls s ++ evs /\ phases evs = training_order)
     (fun _ s' => exists evs, calls s' = calls s ++ evs /\ phases evs `prefix_of` training_order) s.
Proof.
  unfold train_batch, forward_backward, step_and_log.
  wp_steps ltac:(trace_split; phases_tac).
  all: trace_split; phases_tac.
Qed.

End Frames.


Section Gradients.
Context {F : Framework}.



Lemma zero_param_zeroed p : zeroed (zero_param p).
Proof. unfold zeroed. destruct p as [d [a|]]; simpl; eauto. Qed.

Lemma foldr_alter_lookup {A} (f : A -> A) (h : gmap nat A) (ls : list nat) (l : nat) :
  exists k, foldr (alter f) h ls !! l = Nat.iter k f <$> h !! l /\ (l ∈ ls -> 0 < k).
Proof.
  induction ls as [|a ls (k & IH & Hk)]; simpl.
  - exists 0. split; [by destruct (h !! l)|]. by intros ?%elem_of_nil.
  - rewrite lookup_alter. case_decide as Hal.
    + subst a. exists (S k). split; [|lia].
      rewrite IH. by destruct (h !! l).
    + exists k. split; [done|]. intros [?|?]%elem_of_cons; [congruence|auto].
Qed.

Lemma zero_grad_lookup (h : gmap nat Param) ls l p :
  l ∈ ls -> foldr (alter zero_param) h ls !! l = Some p -> zeroed p.
Proof.
  intros Hl Hp. destruct (foldr_alter_lookup zero_param h ls l) as (k & E & Hk).
  rewrite E in Hp. destruct k as [|k]; [by apply Hk in Hl; lia|].
  destruct (h !! l) as [p0|]; simplify_eq/=. apply zero_param_zeroed.
Qed.

Lemma backward_into_lookup gs (h : gmap nat Param) l p :
  backward_into gs h !! l = Some p ->
  exists p0, h !! l = Some p0 /\
             p = match gs !! l with Some g => accumulate g p0 | None => p0 end.
Proof.
  unfold backward_into. rewrite map_lookup_imap.
  destruct (h !! l) as [p0|]; simpl; [|done]. intros [= <-]. by exists p0.
Qed.

Lemma accumulate_zeroed g p : zeroed p -> holds_only g (accumulate g p).
Proof.
  unfold holds_only. intros [E|[a E]]; simpl; rewrite E; eauto.
Qed.

Lemma forward_backward_grads b s :
  wp (forward_backward b)
     (fun _ s' => exists o loss gs pre post,
        globals s' !! "optimizer" = Some (VOptimizer o) /\
        globals s' !! "loss" = Some (VTensor loss) /\
        autograd loss = inr gs /\
        calls s' = calls s ++ pre ++ [EZeroGrad o] ++ post ++ [EBackward gs] /\
        phases pre = [] /\ phases post = [Forward; Loss] /\
        forall l p, l ∈ param_group o -> heap s' !! l = Some p ->
          match gs !! l with
          | Some g => holds_only g p
          | None => zeroed p
          end)
     (fun _ _ => True) s.
Proof.
  unfold forward_backward.
  wp_steps ltac:(done).
  eexists o, _, g, [_], (evs ++ [_; _]). split_and!; try done.
  - by rewrite <- !app_assoc.
  - reflexivity.
  - rewrite phases_app, (phases_layer_events evs) by done. reflexivity.
  - intros l p Hl (p0 & Hp0 & ->)%backward_into_lookup.
    apply zero_grad_lookup in Hp0; [|done].
    destruct (g !! l); [by apply accumulate_zeroed|done].
Qed.

(** C9.  In an iteration of the training loop that reaches
    [optimizer.step()], [optimizer.zero_grad()] has been called before the
    forward and the backward pass, and at that moment every parameter of the
    optimizer that the loss reaches holds the gradient [gs] of this batch's
    loss and nothing else: the gradient itself, or the gradient added to a
    zero tensor, which is the gradient itself as soon as adding to zero
    changes nothing.  Nothing of an earlier batch or epoch is left in it. *)
Theorem step_sees_gradient_of_current_batch (b : tensor * tensor) (s s' : state) :
  forward_backward b s = (inr tt, s') ->
  exists o loss gs pre post,
    globals s' !! "optimizer" = Some (VOptimizer o) /\
    globals s' !! "loss" = Some (VTensor loss) /\
    autograd loss = inr gs /\
    calls s' = calls s ++ pre ++ [EZeroGrad o] ++ post ++ [EBackward gs] /\
    phases pre = [] /\ phases post = [Forward; Loss] /\
    (forall l p g, l ∈ param_group o -> heap s' !! l = Some p -> gs !! l = Some g ->
       grad p = Some g \/ exists a, grad p = Some (t_add (t_zero a) g)) /\
    ((forall a g, t_add (t_zero a) g = g) ->
     forall l p g, l ∈ param_group o -> heap s' !! l = Some p -> gs !! l = Some g ->
       grad p = Some g).
Proof.
  intros Hrun. pose proof (forward_backward_grads b s) as H.
  unfold wp in H. rewrite Hrun in H.
  destruct H as (o & loss & gs & pre & post & Ho & Hl & Hg & Hc & Hpre & Hpost & Hgrad).
  exists o, loss, gs, pre, post. split_and!; try done.
  - intros l p g Hin Hp Hgs. specialize (Hgrad l p Hin Hp). by rewrite Hgs in Hgrad.
  - intros Hz l p g Hin Hp Hgs. specialize (Hgrad l p Hin Hp). rewrite Hgs in Hgrad.
    destruct Hgrad as [?|[a Ha]]; [done|]. by rewrite Ha, Hz.
Qed.

End Gradients.


Section Averages.
Context {F : Framework}.






Lemma items_layer_events evs : Forall layer_event evs -> items_of evs = [].
Proof.
  induction 1 as [|e evs He _ IH]; [done|].
  destruct He as [He|He]; destruct e; try done; exact IH.
Qed.

Lemma items_app evs1 evs2 : items_of (evs1 ++ evs2) = items_of evs1 ++ items_of evs2.
Proof. apply omap_app. Qed.

Lemma no_iter_layer_events evs : Forall layer_event evs -> no_iter evs.
Proof.
  intros H. eapply Forall_impl; [exact H|]. intros e [He|He]; destruct e; simpl in *; tauto.
Qed.

Lemma no_iter_app evs1 evs2 : no_iter evs1 -> no_iter evs2 -> no_iter (evs1 ++ evs2).
Proof. intros. by apply Forall_app. Qed.

Ltac items_tac :=
  rewrite ?items_app;
  repeat match goal with
         | H : Forall layer_event ?evs |- _ => rewrite (items_layer_events evs H)
         end;
  simpl; try reflexivity.

Ltac no_iter_tac :=
  repeat apply no_iter_app;
  first [ by apply no_iter_layer_events
        | assumption
        | repeat (constructor; [simpl; tauto|]); constructor ].

Lemma train_batch_running_loss ld acc b s :
  globals s !! "trainloader" = Some (VLoader ld) ->
  globals s !! "running_loss" = Some acc ->
  wp (train_batch b)
     (fun _ s' => exists v evs,
        calls s' = calls s ++ evs /\ items_of evs = [v] /\ no_iter evs /\
        stdout s' = stdout s /\
        globals s' !! "trainloader" = Some (VLoader ld) /\
        globals s' !! "running_loss" = Some (VFloat (float_add (as_float acc) v)))
     (fun _ s' => stdout s' = stdout s /\ exists evs, calls s' = calls s ++ evs) s.
Proof.
  intros Hld Hacc. unfold train_batch, forward_backward, step_and_log.
  wp_steps ltac:(split; [done|trace_ex]).
  all: eexists _, _; split; [trace_eq|]; split_and!; try done;
    [items_tac | no_iter_tac].
Qed.

(** The inner loop: the running loss is the sum, from where it started, of
    the losses read so far. *)
Lemma batches_running_loss ld acc bs s :
  globals s !! "trainloader" = Some (VLoader ld) ->
  globals s !! "running_loss" = Some acc ->
  numeric acc ->
  wp (for_each bs train_batch)
     (fun _ s' => exists acc' evs,
        calls s' = calls s ++ evs /\ no_iter evs /\
        length (items_of evs) = length bs /\
        stdout s' = stdout s /\
        globals s' !! "trainloader" = Some (VLoader ld) /\
        globals s' !! "running_loss" = Some acc' /\ numeric acc' /\
        as_float acc' = fold_left float_add (items_of evs) (as_float acc))
     (fun _ s' => stdout s' = stdout s /\ exists evs, calls s' = calls s ++ evs) s.
Proof.
  intros Hld Hacc Hnum.
  apply (wp_for_each (fun done s' => exists acc' evs,
        calls s' = calls s ++ evs /\ no_iter evs /\
        length (items_of evs) = length done /\
        stdout s' = stdout s /\
        globals s' !! "trainloader" = Some (VLoader ld) /\
        globals s' !! "running_loss" = Some acc' /\ numeric acc' /\
        as_float acc' = fold_left float_add (items_of evs) (as_float acc))).
  - exists acc, []. split_and!; try done. by rewrite app_nil_r. constructor.
  - intros done b rest s1 _ (acc1 & evs1 & Hc & Hni & Hlen & Hout & Hld1 & Hacc1 & Hn1 & Hsum).
    eapply wp_mono; [by apply (train_batch_running_loss ld acc1)| |].
    + intros [] s2 (v & evs2 & Hc2 & Hit & Hni2 & Hout2 & Hld2 & Hacc2).
      exists (VFloat (float_add (as_float acc1) v)), (evs1 ++ evs2).
      split_and!; try done.
      * by rewrite Hc2, Hc, app_assoc.
      * by apply no_iter_app.
      * rewrite items_app, !length_app, Hlen, Hit. reflexivity.
      * congruence.
      * rewrite items_app, fold_left_app, <- Hsum, Hit. reflexivity.
    + intros e s2 (Hout2 & evs2 & Hc2). split; [congruence|].
      exists (evs1 ++ evs2). by rewrite Hc2, Hc, app_assoc.
  - intros s2 H. exact H.
Qed.

Lemma train_epoch_prints ld epoch s :
  globals s !! "trainloader" = Some (VLoader ld) ->
  wp (train_epoch epoch)
     (fun _ s' => exists evs,
        calls s' = calls s ++ evs /\ one_pass ld evs /\
        stdout s' = stdout s ++
          [training_loss_line (spec_epoch_average (items_of evs) (loader_len ld))] /\
        globals s' !! "trainloader" = Some (VLoader ld))
     (fun _ s' => stdout s' = stdout s /\ exists evs, calls s' = calls s ++ evs) s.
Proof.
  intros Hld. unfold train_epoch.
  wp_steps ltac:(split; [done|trace_ex]).
  eapply wp_mono;
    [eapply (batches_running_loss ld (VInt 0)); st_simpl; by map_simpl | |];
    st_simpl.
  - intros [] s2 (acc' & evs & Hc & Hni & Hlen & Hout & Hld2 & Hacc & Hnum & Hsum).
    unfold print_training_loss.
    wp_steps ltac:(split; [congruence|rewrite ?Hc; trace_ex]).
    all: try done.
    all: eexists; split; [rewrite Hc; trace_eq|]; split_and!; try done.
    all: try (eexists _, _; split_and!; [done|done|done]).
    all: rewrite Hout; unfold spec_epoch_average, training_loss_line;
      rewrite items_app; simpl in Hsum |- *; by rewrite <- Hsum.
  - intros e s2 (Hout & evs & Hc). split; [done|]. rewrite Hc. trace_ex.
Qed.


Lemma epochs_print ld n s :
  globals s !! "trainloader" = Some (VLoader ld) ->
  wp (for_each (range n) train_epoch)
     (fun _ s' => exists epochs,
        calls s' = calls s ++ concat epochs /\ Forall (one_pass ld) epochs /\
        length epochs = Z.to_nat n /\
        stdout s' = stdout s ++ epoch_lines ld epochs)
     (fun _ s' => exists epochs post,
        calls s' = calls s ++ concat epochs ++ post /\ Forall (one_pass ld) epochs /\
        length epochs < Z.to_nat n /\
        stdout s' = stdout s ++ epoch_lines ld epochs) s.
Proof.
  intros Hld.
  assert (length (range n) = Z.to_nat n) as Hrange.
  { unfold range. by rewrite length_fmap, length_seq. }
  apply (wp_for_each (fun done s' => exists epochs,
        calls s' = calls s ++ concat epochs /\ Forall (one_pass ld) epochs /\
        length epochs = length done /\
        stdout s' = stdout s ++ epoch_lines ld epochs /\
        globals s' !! "trainloader" = Some (VLoader ld))).
  - exists []. split_and!; try done; simpl; by rewrite app_nil_r.
  - intros done e rest s1 Hxs (epochs & Hc & Hall & Hlen & Hout & Hld1).
    eapply wp_mono; [by apply (train_epoch_prints ld)| |].
    + intros [] s2 (evs & Hc2 & Hpass & Hout2 & Hld2).
      exists (epochs ++ [evs]). split_and!; try done.
      * rewrite Hc2, Hc, concat_app. simpl. by rewrite app_nil_r, app_assoc.
      * apply Forall_app. split; [done|by constructor].
      * rewrite !length_app, Hlen. reflexivity.
      * rewrite Hout2, Hout. unfold epoch_lines. rewrite fmap_app. simpl.
        by rewrite app_assoc.
    + intros e' s2 (Hout2 & evs & Hc2).
      exists epochs, evs. split_and!; try done.
      * by rewrite Hc2, Hc, app_assoc.
      * rewrite <- Hrange, Hxs, length_app, Hlen. simpl. lia.
      * congruence.
  - intros s2 (epochs & Hc & Hall & Hlen & Hout & _).
    exists epochs. split_and!; try done. congruence.
Qed.

Lemma trace_pre_then (c c0 c1 pre rest : list event) :
  c = c1 ++ rest -> c1 = c0 ++ pre -> c = c0 ++ pre ++ rest.
Proof. intros -> ->. by rewrite app_assoc. Qed.

Lemma trace_pre_only (c c0 pre : list event) :
  c = c0 ++ pre -> c = c0 ++ pre ++ concat [] ++ [].
Proof. intros ->. simpl. by rewrite app_nil_r. Qed.

Lemma cell_37_prints ld s :
  globals s !! "trainloader" = Some (VLoader ld) ->
  wp cell_37
     (fun _ s' => exists pre epochs,
        calls s' = calls s ++ pre ++ concat epochs /\ no_iter pre /\
        Forall (one_pass ld) epochs /\ length epochs = 10 /\
        stdout s' = stdout s ++ epoch_lines ld epochs)
     (fun _ s' => exists pre epochs post,
        calls s' = calls s ++ pre ++ concat epochs ++ post /\ no_iter pre /\
        Forall (one_pass ld) epochs /\ length epochs < 10 /\
        stdout s' = stdout s ++ epoch_lines ld epochs) s.
Proof.
  intros Hld. unfold cell_37.
  wp_steps ltac:(eexists _, [], []; split_and!;
                 [ apply trace_pre_only; trace_eq | no_iter_tac | constructor
                 | simpl; lia | simpl; by rewrite app_nil_r ]).
  eapply wp_mono; [eapply (epochs_print ld); st_simpl; by map_simpl | |]; st_simpl.
  - intros [] s' (epochs & Hc & Hall & Hlen & Hout).
    eexists _, epochs. split_and!;
      [refine (trace_pre_then _ _ _ _ _ Hc _); trace_eq | no_iter_tac
      | done | exact Hlen | done].
  - intros e s' (epochs & post & Hc & Hall & Hlen & Hout).
    eexists _, epochs, post. split_and!;
      [refine (trace_pre_then _ _ _ _ _ Hc _); trace_eq | no_iter_tac
      | done | exact Hlen | done].
Qed.

(** C8.  With [trainloader] bound to a loader, the training cell prints one
    line per completed epoch and nothing else, and the value on the line of
    an epoch is the sum, from 0 and in order, of the [loss.item()] values
    read during that epoch, one per batch of the epoch's pass over the
    loader, divided by [len(trainloader)].  A run that ends normally has
    completed 10 epochs; a run that raises has completed fewer. *)
Theorem printed_training_loss_is_epoch_average (ld : DataLoader) (s : state) :
  globals s !! "trainloader" = Some (VLoader ld) ->
  exists pre epochs post,
    calls (cell_37 s).2 = calls s ++ pre ++ concat epochs ++ post /\
    Forall (fun e => ~ is_iter e) pre /\
    Forall (one_pass ld) epochs /\
    stdout (cell_37 s).2
    = stdout s ++
      ((fun evs => training_loss_line
                     (spec_epoch_average (items_of evs) (loader_len ld))) <$> epochs) /\
    match (cell_37 s).1 with
    | inr _ => length epochs = 10 /\ post = []
    | inl _ => length epochs < 10
    end.
Proof.
  intros Hld. pose proof (cell_37_prints ld s Hld) as H. unfold wp in H.
  destruct (cell_37 s) as [[e|[]] s']; simpl.
  - destruct H as (pre & epochs & post & Hc & Hpre & Hall & Hlen & Hout).
    by exists pre, epochs, post.
  - destruct H as (pre & epochs & Hc & Hpre & Hall & Hlen & Hout).
    exists pre, epochs, []. by rewrite app_nil_r.
Qed.
End Averages.


Section SameModel.
Context {F : Framework}.






Lemma trains_layer_events m o evs : Forall layer_event evs -> Forall (trains m o) evs.
Proof.
  intros H. eapply Forall_impl; [exact H|]. intros e [He|He]; destruct e; simpl in *; tauto.
Qed.

Lemma evaluates_layer_events m evs : Forall layer_event evs -> Forall (evaluates m) evs.
Proof.
  intros H. eapply Forall_impl; [exact H|]. intros e [He|He]; destruct e; simpl in *; tauto.
Qed.


Lemma wp_for_each_trace {A} (P : event -> Prop) (I : state -> Prop)
    (xs : list A) (body : A -> M unit) s :
  I s ->
  (forall x s1, I s1 ->
     wp (body x)
        (fun _ s2 => I s2 /\ exists evs, calls s2 = calls s1 ++ evs /\ Forall P evs)
        (fun _ _ => True) s1) ->
  wp (for_each xs body)
     (fun _ s2 => I s2 /\ exists evs, calls s2 = calls s ++ evs /\ Forall P evs)
     (fun _ _ => True) s.
Proof.
  intros HI Hbody.
  apply (wp_for_each (fun _ s2 =>
           I s2 /\ exists evs, calls s2 = calls s ++ evs /\ Forall P evs)).
  - split; [done|]. exists []. split; [by rewrite app_nil_r|constructor].
  - intros done x rest s1 _ (HI1 & evs1 & Hc1 & HP1).
    eapply wp_mono; [by apply Hbody| |done].
    intros [] s2 (HI2 & evs2 & Hc2 & HP2). split; [done|].
    exists (evs1 ++ evs2). split; [by rewrite Hc2, Hc1, app_assoc|by apply Forall_app].
  - done.
Qed.

Ltac trains_tac :=
  repeat (apply Forall_app; split);
  first [ by apply trains_layer_events
        | by apply evaluates_layer_events
        | assumption
        | repeat (constructor; [simpl; done|]); constructor ].

Lemma train_batch_same_model m o b s :
  bound m o s ->
  wp (train_batch b)
     (fun _ s' => bound m o s' /\
                  exists evs, calls s' = calls s ++ evs /\ Forall (trains m o) evs)
     (fun _ _ => True) s.
Proof.
  intros [Hm Ho]. unfold train_batch, forward_backward, step_and_log.
  wp_steps ltac:(done).
  all: (split; [unfold bound; st_simpl; split; by map_simpl|]);
    eexists; split; [trace_eq|trains_tac].
Qed.

Lemma train_epoch_same_model m o e s :
  bound m o s ->
  wp (train_epoch e)
     (fun _ s' => bound m o s' /\
                  exists evs, calls s' = calls s ++ evs /\ Forall (trains m o) evs)
     (fun _ _ => True) s.
Proof.
  intros [Hm Ho]. unfold train_epoch.
  wp_steps ltac:(done).
  eapply wp_mono;
    [apply (wp_for_each_trace (trains m o) (bound m o));
       [unfold bound; st_simpl; split; by map_simpl
       | intros; by apply train_batch_same_model]
    | | done].
  intros [] s2 ([Hm2 Ho2] & evs & Hc & HP). st_simpl.
  unfold print_training_loss. wp_steps ltac:(done).
  all: (split; [by split|]); eexists; split;
    [refine (trace_pre_then _ _ _ _ _ Hc _); trace_eq|trains_tac].
Qed.


Lemma cell_37_same_model s :
  wp cell_37
     (fun _ s1 => bound (model_37 s) (optimizer_37 s) s1 /\
        exists training,
          calls s1 = calls s ++ construction_37 s ++ training /\
          Forall (trains (model_37 s) (optimizer_37 s)) training)
     (fun _ _ => True) s.
Proof.
  unfold cell_37. wp_steps ltac:(done).
  eapply wp_mono;
    [apply (wp_for_each_trace (trains (model_37 s) (optimizer_37 s))
              (bound (model_37 s) (optimizer_37 s)));
       [unfold bound; st_simpl; split; by map_simpl
       | intros; by apply train_epoch_same_model]
    | | done].
  intros [] s1 (Hb & evs & Hc & HP). st_simpl. split; [done|].
  exists evs. split; [|done].
  refine (trace_pre_then _ _ _ _ _ Hc _). unfold construction_37. trace_eq.
Qed.

Lemma cell_60_evaluates m s :
  globals s !! "model" = Some (VModel m) ->
  wp cell_60
     (fun _ s' => exists evs logps,
        calls s' = calls s ++ evs /\ Forall (evaluates m) evs /\
        EForward m logps ∈ evs)
     (fun _ s' => exists evs,
        calls s' = calls s ++ evs /\ Forall (evaluates m) evs) s.
Proof.
  intros Hm. unfold cell_60.
  wp_steps ltac:(eexists; split; [trace_eq|trains_tac]).
  eexists _, _; split_and!; [trace_eq|trains_tac|].
  rewrite !elem_of_app, !elem_of_cons. tauto.
Qed.

End SameModel.


Section Uncaught.
Context {F : Framework}.


Lemma raised_app {A} (r : exn + A) evs1 evs2 :
  no_raise evs1 -> raised r evs2 -> raised r (evs1 ++ evs2).
Proof.
  destruct r as [[]|]; simpl; try (intros; by apply Forall_app).
  intros H1 (evs0 & -> & H0). exists (evs1 ++ evs0).
  split; [by rewrite app_assoc|by apply Forall_app].
Qed.

Lemma raised_python {A} e evs :
  python_exn e -> no_raise evs -> raised (inl e : exn + A) evs.
Proof. by destruct e. Qed.

Lemma ex_no_raise_nil (c0 : list event) :
  exists evs, c0 = c0 ++ evs /\ no_raise evs.
Proof. exists []. split; [by rewrite app_nil_r|constructor]. Qed.

Lemma ex_no_raise_app (c0 c evs' : list event) :
  no_raise evs' ->
  (exists evs, c = c0 ++ evs /\ no_raise evs) ->
  exists evs, c ++ evs' = c0 ++ evs /\ no_raise evs.
Proof.
  intros H' (evs & -> & H). exists (evs ++ evs').
  split; [by rewrite app_assoc|by apply Forall_app].
Qed.

Lemma ex_raised_app {A} (c0 c evs' : list event) (e : exn) :
  raised (inl e : exn + A) evs' ->
  (exists evs, c = c0 ++ evs /\ no_raise evs) ->
  exists evs, c ++ evs' = c0 ++ evs /\ raised (inl e : exn + A) evs.
Proof.
  intros H' (evs & -> & H). exists (evs ++ evs').
  split; [by rewrite app_assoc|by apply raised_app].
Qed.

Lemma ex_raised_lib {A} (c0 c : list event) (l : lib_error) :
  (exists evs, c = c0 ++ evs /\ no_raise evs) ->
  exists evs, c ++ [ERaise l] = c0 ++ evs /\ raised (inl (LibError l) : exn + A) evs.
Proof.
  intros H. apply ex_raised_app; [|done]. exists []. split; [done|constructor].
Qed.

Lemma ex_raised_python {A} (c0 c : list event) (e : exn) :
  python_exn e ->
  (exists evs, c = c0 ++ evs /\ no_raise evs) ->
  exists evs, c = c0 ++ evs /\ raised (inl e : exn + A) evs.
Proof.
  intros He (evs & -> & H). exists evs. split; [done|by apply raised_python].
Qed.

Lemma no_raise_ok {A} (y : A) evs : raised (inr y : exn + A) evs -> no_raise evs.
Proof. done. Qed.

End Uncaught.

Ltac no_raise_tac :=
  repeat (apply Forall_app; split);
  first [ assumption
        | repeat (constructor; [simpl; tauto|]); constructor
        | by eapply no_raise_ok ].

Ltac no_raise_ex :=
  repeat first
    [ assumption
    | apply ex_no_raise_nil
    | apply ex_no_raise_app; [no_raise_tac|] ].

Ltac raised_tac :=
  first
    [ apply ex_raised_lib; no_raise_ex
    | match goal with
      | H : raised (inl _) _ |- _ => apply (ex_raised_app _ _ _ _ H); no_raise_ex
      end
    | apply ex_raised_python; [first [assumption|exact I]|]; no_raise_ex ].

Section Uncaught2.
Context {F : Framework}.

(** Using an uncaught statement in the middle of a longer one. *)
Lemma wp_uncaught {A B} (m : M A) (Qok : A -> state -> Prop) s0 s1 :
  uncaught m ->
  (exists evs, calls s1 = calls s0 ++ evs /\ no_raise evs) ->
  (forall a s2, (exists evs, calls s2 = calls s0 ++ evs /\ no_raise evs) -> Qok a s2) ->
  wp m Qok
     (fun e s2 => exists evs, calls s2 = calls s0 ++ evs /\ raised (inl e : exn + B) evs) s1.
Proof.
  intros Hm (evs1 & Hc1 & H1) HQ.
  eapply wp_mono; [apply Hm| |].
  - intros a s2 (evs2 & Hc2 & H2). apply HQ. exists (evs1 ++ evs2).
    split; [by rewrite Hc2, Hc1, app_assoc|by apply Forall_app].
  - intros e s2 (evs2 & Hc2 & H2). exists (evs1 ++ evs2).
    split; [by rewrite Hc2, Hc1, app_assoc|].
    apply raised_app; [done|]. by destruct e.
Qed.

Lemma uncaught_for_each {A} (xs : list A) (body : A -> M unit) :
  (forall x, uncaught (body x)) -> uncaught (for_each xs body).
Proof.
  intros Hbody s.
  apply (wp_for_each (fun _ s2 => exists evs, calls s2 = calls s ++ evs /\ no_raise evs)).
  - apply ex_no_raise_nil.
  - intros done x rest s1 _ H1. by apply wp_uncaught.
  - done.
Qed.

Lemma uncaught_train_batch b : uncaught (train_batch b).
Proof.
  intros s. unfold train_batch, forward_backward, step_and_log.
  wp_steps ltac:(raised_tac).
  all: no_raise_ex.
Qed.

Lemma uncaught_train_epoch e : uncaught (train_epoch e).
Proof.
  intros s. unfold train_epoch.
  wp_steps ltac:(raised_tac).
  apply wp_uncaught;
    [apply uncaught_for_each, uncaught_train_batch | st_simpl; no_raise_ex |].
  intros [] s2 H2. unfold print_training_loss.
  wp_steps ltac:(raised_tac).
  all: no_raise_ex.
Qed.

Lemma uncaught_cell_37 : uncaught cell_37.
Proof.
  intros s. unfold cell_37.
  wp_steps ltac:(raised_tac).
  apply wp_uncaught;
    [apply uncaught_for_each, uncaught_train_epoch | st_simpl; no_raise_ex | done].
Qed.

Lemma uncaught_cell_4 : uncaught cell_4.
Proof.
  intros s. unfold cell_4.
  wp_steps ltac:(raised_tac).
  no_raise_ex.
Qed.

Lemma uncaught_cell_30 : uncaught cell_30.
Proof.
  intros s. unfold cell_30.
  wp_steps ltac:(raised_tac).
  all: no_raise_ex.
Qed.

Lemma uncaught_cell_60 : uncaught cell_60.
Proof.
  intros s. unfold cell_60.
  wp_steps ltac:(raised_tac).
  no_raise_ex.
Qed.

Lemma no_raise_elem evs (e : lib_error) : no_raise evs -> ERaise e ∈ evs -> False.
Proof. intros H Hin. unfold no_raise in H. rewrite Forall_forall in H. by apply (H _ Hin). Qed.

Lemma uncaught_since (cell : M unit) (s : state) (e : lib_error) :
  uncaught cell ->
  ERaise e ∈ since s (cell s).2 ->
  (cell s).1 = inl (LibError e) /\ last (calls (cell s).2) = Some (ERaise e).
Proof.
  intros Hc. specialize (Hc s). unfold wp in Hc. unfold since.
  destruct (cell s) as [[x|[]] s']; simpl; destruct Hc as (evs & -> & Hr);
    rewrite drop_app_length; intros Hin.
  - destruct x as [l| | | | |]; simpl in Hr;
      try (by destruct (no_raise_elem _ _ Hr Hin)).
    destruct Hr as (evs0 & -> & H0).
    apply elem_of_app in Hin as [Hin|Hin%list_elem_of_singleton].
    + by destruct (no_raise_elem _ _ H0 Hin).
    + simplify_eq. split; [done|]. by rewrite app_assoc, last_snoc.
  - by destruct (no_raise_elem _ _ Hr Hin).
Qed.

End Uncaught2.


(** ** Runs that do not raise *)

Section Forward.
Context {F : Framework}.

Lemma wp_ok {A} (m : M A) a s1 (Qok : A -> state -> Prop) Qerr s :
  m s = (inr a, s1) -> Qok a s1 -> wp m Qok Qerr s.
Proof. unfold wp. by intros ->. Qed.

Lemma load_ok x v s : globals s !! x = Some v -> load x s = (inr v, s).
Proof. intros H. unfold load, mbind, M_bind, gets. by rewrite H. Qed.

Lemma use_ok x n s : globals s !! x = Some (VModule n) -> use x s = (inr tt, s).
Proof. intros H. unfold use, mbind, M_bind. by rewrite (load_ok _ _ _ H). Qed.
Lemma load_loader_ok x v s :
  globals s !! x = Some (VLoader v) -> load_loader x s = (inr v, s).
Proof. intros H. unfold load_loader, mbind, M_bind. by rewrite (load_ok _ _ _ H). Qed.
Lemma load_model_ok x v s :
  globals s !! x = Some (VModel v) -> load_model x s = (inr v, s).
Proof. intros H. unfold load_model, mbind, M_bind. by rewrite (load_ok _ _ _ H). Qed.
Lemma load_criterion_ok x v s :
  globals s !! x = Some (VCriterion v) -> load_criterion x s = (inr v, s).
Proof. intros H. unfold load_criterion, mbind, M_bind. by rewrite (load_ok _ _ _ H). Qed.
Lemma load_optimizer_ok x v s :
  globals s !! x = Some (VOptimizer v) -> load_optimizer x s = (inr v, s).
Proof. intros H. unfold load_optimizer, mbind, M_bind. by rewrite (load_ok _ _ _ H). Qed.
Lemma load_tensor_ok x v s :
  globals s !! x = Some (VTensor v) -> load_tensor x s = (inr v, s).
Proof. intros H. unfold load_tensor, mbind, M_bind. by rewrite (load_ok _ _ _ H). Qed.
Lemma load_int_ok x v s :
  globals s !! x = Some (VInt v) -> load_int x s = (inr v, s).
Proof. intros H. unfold load_int, mbind, M_bind. by rewrite (load_ok _ _ _ H). Qed.
Lemma lib_ok {A} (r : lib_error + A) a s : r = inr a -> lib r s = (inr a, s).
Proof. by intros ->. Qed.
Lemma deref_ok l p s : heap s !! l = Some p -> deref l s = (inr p, s).
Proof. intros H. unfold deref, mbind, M_bind, gets. by rewrite H. Qed.

End Forward.

Ltac lookup_tac :=
  st_simpl;
  repeat first [ rewrite lookup_insert_eq | rewrite lookup_insert_ne by (done || lia) ];
  first [ reflexivity | eassumption ].

(** One step of a run that does not raise. *)
Ltac run_step :=
  lazymatch goal with
  | |- wp (mbind _ _) _ _ _ => apply wp_bind
  | |- wp (mret _) _ _ _ => apply wp_ret
  | |- wp (gets _) _ _ _ => apply wp_gets
  | |- wp (modify _) _ _ _ => apply wp_modify
  | |- wp (load _) _ _ _ => eapply wp_ok; [apply load_ok; lookup_tac|]
  | |- wp (use _) _ _ _ => eapply wp_ok; [eapply use_ok; lookup_tac|]
  | |- wp (load_loader _) _ _ _ => eapply wp_ok; [apply load_loader_ok; lookup_tac|]
  | |- wp (load_model _) _ _ _ => eapply wp_ok; [apply load_model_ok; lookup_tac|]
  | |- wp (load_criterion _) _ _ _ => eapply wp_ok; [apply load_criterion_ok; lookup_tac|]
  | |- wp (load_optimizer _) _ _ _ => eapply wp_ok; [apply load_optimizer_ok; lookup_tac|]
  | |- wp (load_tensor _) _ _ _ => eapply wp_ok; [apply load_tensor_ok; lookup_tac|]
  | |- wp (load_int _) _ _ _ => eapply wp_ok; [apply load_int_ok; lookup_tac|]
  | |- wp (deref _) _ _ _ =>
      eapply wp_ok; [apply deref_ok; first [st_simpl; eassumption | lookup_tac]|]
  | |- wp (call_layers _ _) _ _ _ => cbn [call_layers]
  | |- wp (no_grad _) _ _ _ => apply wp_no_grad
  | |- wp (for_each _ _) _ _ _ => fail "for_each"
  | |- wp (lib _) _ _ _ => fail "lib"
  | |- wp (raise _) _ _ _ => fail "raise"
  | |- wp (match _ with _ => _ end) _ _ _ => fail "match"
  | |- wp ?m _ _ _ => let h := head_of m in unfold h
  end; st_simpl.


(** ** Shapes of the tensors of a training run *)

Section ShapeRun.
Local Existing Instance Shapes.framework.
Import Shapes.

Lemma view_flatten n :
  0 < n -> view_dims [n; 1; 28; 28] [Z.of_nat n; (-1)%Z] = inr [n; 784].
Proof.
  intros Hn. unfold view_dims.
  assert ((Z.of_nat n <? -1)%Z = false) as E1 by (apply Z.ltb_ge; lia).
  assert (is_hole (Z.of_nat n) = false) as E2 by (apply Z.eqb_neq; lia).
  cbn [existsb holes known fill foldr fmap list_fmap numel].
  rewrite E1, E2. simpl.
  rewrite Nat2Z.id, Nat.mul_1_r, (Nat.mul_comm n), Nat.Div0.mod_mul, Nat.div_mul by lia.
  by destruct n; [lia|].
Qed.

Lemma sh_shape0 d ds l : t_shape0 {| dims := d :: ds; leaves := l |} = inr (Z.of_nat d).
Proof. reflexivity. Qed.

Lemma sh_view_flatten n l :
  0 < n ->
  t_view {| dims := [n; 1; 28; 28]; leaves := l |} [Z.of_nat n; (-1)%Z]
  = inr {| dims := [n; 784]; leaves := l |}.
Proof.
  intros Hn.
  change (view {| dims := [n; 1; 28; 28]; leaves := l |} [Z.of_nat n; (-1)%Z]
          = inr {| dims := [n; 784]; leaves := l |}).
  unfold view. cbn [dims]. by rewrite view_flatten.
Qed.

Lemma sh_linear (n i o : nat) lx lw lb (dw db : shaped) :
  dims dw = [o; i] -> dims db = [o] ->
  F_linear {| dims := [n; i]; leaves := lx |} (leaf lw dw) (leaf lb db)
  = inr {| dims := [n; o]; leaves := lx ++ [(lw, [o; i]); (lb, [o])] |}.
Proof.
  intros Hw Hb.
  change (linear {| dims := [n; i]; leaves := lx |} (leaf lw dw) (leaf lb db)
          = inr {| dims := [n; o]; leaves := lx ++ [(lw, [o; i]); (lb, [o])] |}).
  unfold linear. cbn [leaf framework dims leaves last removelast app]. rewrite Hw, Hb.
  cbn [last]. by rewrite !Nat.eqb_refl.
Qed.

Lemma sh_log_softmax (n c : nat) l :
  F_log_softmax {| dims := [n; c]; leaves := l |} 1 = inr {| dims := [n; c]; leaves := l |}.
Proof. reflexivity. Qed.

Lemma sh_class_loss (n c : nat) l lt :
  class_loss {| dims := [n; c]; leaves := l |} {| dims := [n]; leaves := lt |}
  = inr {| dims := []; leaves := l |}.
Proof. unfold class_loss. cbn [dims leaves]. by rewrite Nat.eqb_refl. Qed.

(** Shapes are kept by everything an iteration does to a parameter. *)
Lemma shape_kept_iter (f : Param -> Param) k p :
  (forall p, dims (data (f p)) = dims (data p)) ->
  dims (data (Nat.iter k f p)) = dims (data p).
Proof. intros Hf. induction k as [|k IH]; [done|]. simpl. by rewrite Hf. Qed.

Lemma shape_kept_alter (f : Param -> Param) (h : gmap nat Param) ls l d :
  (forall p, dims (data (f p)) = dims (data p)) ->
  (exists p, h !! l = Some p /\ dims (data p) = d) ->
  exists p, foldr (alter f) h ls !! l = Some p /\ dims (data p) = d.
Proof.
  intros Hf (p & Hp & Hd). destruct (foldr_alter_lookup f h ls l) as (k & E & _).
  rewrite E, Hp. simpl. eexists; split; [done|]. by rewrite shape_kept_iter.
Qed.

Lemma shape_kept_backward gs (h : gmap nat Param) l d :
  (exists p, h !! l = Some p /\ dims (data p) = d) ->
  exists p, backward_into gs h !! l = Some p /\ dims (data p) = d.
Proof.
  intros (p & Hp & Hd). unfold backward_into. rewrite map_lookup_imap, Hp. simpl.
  eexists; split; [done|]. case_match; simpl; exact Hd.
Qed.

Lemma sgd_param_shape rate (p : Param) : dims (data (sgd_param rate p)) = dims (data p).
Proof. unfold sgd_param. by destruct (grad p). Qed.

Lemma zero_param_shape (p : Param) : dims (data (zero_param p)) = dims (data p).
Proof. done. Qed.

Lemma iteration_shapes s0 s n :
  0 < n -> trainable s0 s ->
  wp (train_batch (image_batch n))
     (fun _ s' => exists evs,
        calls s' = calls s ++ evs /\
        stages evs = [Flatten; ApplyLinear 784 128; ApplyReLU; ApplyLinear 128 64;
                      ApplyReLU; ApplyLinear 64 10; ApplyLogSoftmax 1; Output;
                      ComputeLoss NLLLoss; Gradients; Update] /\
        dims_of evs = [[n; 784]; [n; 128]; [n; 128]; [n; 64]; [n; 64]; [n; 10];
                       [n; 10]; [n; 10]; []] /\
        Forall (flows s0) evs /\
        globals s' !! "trainloader" = globals s !! "trainloader" /\
        trainable s0 s')
     (fun _ _ => False) s.
Proof.
  intros Hn (([Hm Ho] & Hc & Hge & Hps) & acc & Hacc & Hnum).
  assert (Hps0 := Hps).
  unfold params_shaped, parameter_shapes in Hps. rewrite !Forall_cons in Hps.
  cbn [fst snd] in Hps.
  destruct Hps as (H1 & H2 & H3 & H4 & H5 & H6 & _).
  apply (shape_kept_alter zero_param _ (param_group (optimizer_37 s0)) _ _ zero_param_shape) in H1 as (q1 & Hq1 & Hd1).
  apply (shape_kept_alter zero_param _ (param_group (optimizer_37 s0)) _ _ zero_param_shape) in H2 as (q2 & Hq2 & Hd2).
  apply (shape_kept_alter zero_param _ (param_group (optimizer_37 s0)) _ _ zero_param_shape) in H3 as (q3 & Hq3 & Hd3).
  apply (shape_kept_alter zero_param _ (param_group (optimizer_37 s0)) _ _ zero_param_shape) in H4 as (q4 & Hq4 & Hd4).
  apply (shape_kept_alter zero_param _ (param_group (optimizer_37 s0)) _ _ zero_param_shape) in H5 as (q5 & Hq5 & Hd5).
  apply (shape_kept_alter zero_param _ (param_group (optimizer_37 s0)) _ _ zero_param_shape) in H6 as (q6 & Hq6 & Hd6).
  unfold train_batch, forward_backward, step_and_log.
  repeat run_step.
  eapply wp_ok; [apply lib_ok, sh_shape0|].
  repeat run_step.
  eapply wp_ok; [apply lib_ok, sh_view_flatten, Hn|]. rewrite ?Hge.
  repeat run_step.
  cbn [layers model_37].
  repeat run_step.
  eapply wp_ok; [apply lib_ok; by apply sh_linear|].
  repeat run_step.
  eapply wp_ok; [apply lib_ok; by apply sh_linear|].
  repeat run_step.
  eapply wp_ok; [apply lib_ok; by apply sh_linear|].
  repeat run_step.
  eapply wp_ok; [apply lib_ok, sh_log_softmax|].
  repeat run_step.
  eapply wp_ok; [apply lib_ok, sh_class_loss|].
  repeat run_step.
  eapply wp_ok; [apply lib_ok; reflexivity|].
  repeat run_step.
  eapply wp_ok; [apply lib_ok; reflexivity|].
  repeat run_step.
  destruct acc; try done; repeat run_step.
  all: eexists; split; [trace_eq|]; split_and!; try reflexivity.
  all: try lazymatch goal with
           | |- Forall (flows _) _ =>
               repeat (apply Forall_app; split);
               repeat (constructor; [simpl; by eauto|]); by constructor
           end.
  all: try (by repeat first [ rewrite lookup_insert_eq
                            | rewrite lookup_insert_ne by done ]).
  all: unfold trainable, prepared, bound; st_simpl; split_and!;
    try (repeat first [ rewrite lookup_insert_eq | rewrite lookup_insert_ne by done ];
         done).
  all: try (eexists; split; [by rewrite lookup_insert_eq|done]).
  all: eapply Forall_impl; [exact Hps0|]; intros [l d] H; cbn [fst snd] in *;
    apply shape_kept_alter; [apply sgd_param_shape|];
    apply shape_kept_backward;
    apply shape_kept_alter; [apply zero_param_shape|exact H].
Qed.

Lemma batch_sizes_pos fuel n size : 0 < size -> Forall (lt 0) (batch_sizes fuel n size).
Proof.
  intros Hs. revert n. induction fuel as [|fuel IH]; intros n; simpl; [constructor|].
  destruct (n =? 0) eqn:E0; [constructor|]. apply Nat.eqb_neq in E0.
  destruct (n <=? size); [repeat constructor; lia|]. constructor; [done|apply IH].
Qed.

Lemma loader_len_pos d :
  0 < d ->
  Z.of_nat (loader_len (loader d)) <> 0%Z.
Proof.
  intros Hd. unfold loader_len, loader. cbn [dl_dataset batch_size dataset_len framework].
  assert (1 <= (d + 64 - 1) / 64); [|lia].
  apply Nat.div_le_lower_bound; lia.
Qed.

Lemma iteration_flows ld s0 s n :
  0 < n ->
  trainable s0 s /\ globals s !! "trainloader" = Some (VLoader ld) ->
  wp (train_batch (image_batch n))
     (fun _ s' => (trainable s0 s' /\ globals s' !! "trainloader" = Some (VLoader ld)) /\
                  exists evs, calls s' = calls s ++ evs /\ Forall (flows s0) evs)
     (fun _ _ => False) s.
Proof.
  intros Hn [Ht Hld]. eapply wp_mono; [by apply iteration_shapes| |done].
  intros [] s' (evs & Hc & Hst & Hd & Hb & Hl & Ht').
  split; [split; [done|congruence]|]. by exists evs.
Qed.

Lemma wp_for_each_flows {A} (P : event -> Prop) (I : state -> Prop) (G : A -> Prop)
    (xs : list A) (body : A -> M unit) s :
  I s -> Forall G xs ->
  (forall x s1, G x -> I s1 ->
     wp (body x)
        (fun _ s2 => I s2 /\ exists evs, calls s2 = calls s1 ++ evs /\ Forall P evs)
        (fun _ _ => False) s1) ->
  wp (for_each xs body)
     (fun _ s2 => I s2 /\ exists evs, calls s2 = calls s ++ evs /\ Forall P evs)
     (fun _ _ => False) s.
Proof.
  intros HI HG Hbody.
  apply (wp_for_each (fun _ s2 =>
           I s2 /\ exists evs, calls s2 = calls s ++ evs /\ Forall P evs)).
  - split; [done|]. exists []. split; [by rewrite app_nil_r|constructor].
  - intros done x rest s1 Hxs (HI1 & evs1 & Hc1 & HP1).
    eapply wp_mono; [apply Hbody; [|done]| |done].
    + rewrite Forall_forall in HG. apply HG. rewrite Hxs. set_solver.
    + intros [] s2 (HI2 & evs2 & Hc2 & HP2). split; [done|].
      exists (evs1 ++ evs2). split; [by rewrite Hc2, Hc1, app_assoc|by apply Forall_app].
  - done.
Qed.

Lemma epoch_flows s0 s d e :
  0 < d ->
  prepared s0 s /\ globals s !! "trainloader" = Some (VLoader (loader d)) ->
  wp (train_epoch e)
     (fun _ s' => (prepared s0 s' /\
                   globals s' !! "trainloader" = Some (VLoader (loader d))) /\
                  exists evs, calls s' = calls s ++ evs /\ Forall (flows s0) evs)
     (fun _ _ => False) s.
Proof.
  intros Hd [([Hm Ho] & Hc & Hge & Hps) Hld].
  unfold train_epoch. repeat run_step.
  cbn [fetch_batches framework dl_dataset batch_size shuffle loader].
  repeat run_step.
  eapply wp_mono;
    [apply (wp_for_each_flows (flows s0)
              (fun s1 => trainable s0 s1 /\
                         globals s1 !! "trainloader" = Some (VLoader (loader d)))
              (fun b => exists k, 0 < k /\ b = image_batch k))
    | | done].
  - unfold trainable, prepared, bound, params_shaped. st_simpl.
    split_and!; try (by repeat first [ rewrite lookup_insert_eq
                                     | rewrite lookup_insert_ne by done ]).
    eexists. split; [by rewrite lookup_insert_eq|done].
  - apply Forall_fmap. eapply Forall_impl; [by apply (batch_sizes_pos d d 64); lia|].
    intros k Hk. by exists k.
  - intros b s1 (k & Hk & ->) HI. by apply iteration_flows.
  - intros [] s1 ((Ht1 & Hld1) & evs & Hc1 & Hfl). st_simpl.
    destruct Ht1 as (([Hm1 Ho1] & Hcr1 & Hge1 & Hps1) & acc1 & Hacc1 & Hnum1).
    unfold print_training_loss. repeat run_step.
    unfold py_truediv. destruct (decide _) as [E|_]; [by apply loader_len_pos in E|].
    destruct acc1; try done; repeat run_step.
    all: split; [unfold prepared, bound; st_simpl; by eauto 10|].
    all: eexists; split; [refine (trace_pre_then _ _ _ _ _ Hc1 _); trace_eq|].
    all: apply Forall_app; split; [by repeat constructor|done].
Qed.

Lemma cell_37_flows d s :
  ready_for_37 d s ->
  wp cell_37
     (fun _ s' => prepared s s' /\
        exists training,
          calls s' = calls s ++ construction_37 s ++ training /\
          Forall (flows s) training)
     (fun _ _ => False) s.
Proof.
  intros ((nn & Hnn) & (optim & Hoptim) & Hld & Hd & Hge).
  unfold cell_37.
  repeat (repeat run_step; progress cbn [linear_reset framework]).
  repeat run_step.
  eapply wp_mono;
    [apply (wp_for_each_flows (flows s)
              (fun s1 => prepared s s1 /\
                         globals s1 !! "trainloader" = Some (VLoader (loader d)))
              (fun _ => True))
    | | done].
  - unfold prepared, bound, params_shaped, parameter_shapes. st_simpl.
    split_and!; try (by repeat first [ rewrite lookup_insert_eq
                                     | rewrite lookup_insert_ne by done ]).
    repeat (constructor;
            [eexists; split;
             [cbn [fst]; by repeat first [ rewrite lookup_insert_eq
                                         | rewrite lookup_insert_ne by lia ]
             |done]|]).
    constructor.
  - by apply Forall_forall.
  - intros e s1 _ HI. by apply epoch_flows.
  - intros [] s1 ((Hp1 & _) & evs & Hc1 & Hfl). st_simpl. split; [done|].
    exists evs. split; [|done].
    refine (trace_pre_then _ _ _ _ _ Hc1 _). unfold construction_37. trace_eq.
Qed.
(** The first batch of a pass, and the shapes along cell 30. *)
Lemma first_batch_size d :
  0 < d -> exists rest, batch_sizes d d 64 = (d `min` 64) :: rest.
Proof.
  intros Hd. destruct d as [|d']; [lia|]. cbn [batch_sizes Nat.eqb].
  destruct (S d' <=? 64) eqn:E.
  - apply Nat.leb_le in E. exists []. f_equal. lia.
  - apply Nat.leb_gt in E. eexists. f_equal. lia.
Qed.

Lemma cell_30_shapes d s :
  ready_for_30 d s ->
  wp cell_30
     (fun _ s' => exists evs,
        calls s' = calls s ++ evs /\
        dims_of evs = [[d `min` 64; 784]; [d `min` 64; 128]; [d `min` 64; 128];
                       [d `min` 64; 64]; [d `min` 64; 64]; [d `min` 64; 10];
                       [d `min` 64; 10]; []])
     (fun _ _ => False) s.
Proof.
  intros ((nn & Hnn) & Hld & Hd & Hge).
  destruct (first_batch_size d Hd) as [rest Hb].
  assert (0 < d `min` 64) as Hn by lia.
  unfold cell_30.
  repeat (repeat run_step; progress cbn [linear_reset framework]).
  repeat run_step.
  cbn [fetch_batches framework dl_dataset batch_size shuffle loader].
  rewrite Hb. cbn [fmap list_fmap].
  repeat run_step.
  eapply wp_ok; [apply lib_ok, sh_shape0|].
  repeat run_step.
  eapply wp_ok; [apply lib_ok, sh_view_flatten, Hn|]. rewrite ?Hge.
  repeat run_step.
  cbn [layers].
  repeat run_step.
  rewrite ?Hge. eapply wp_ok; [apply lib_ok; by apply sh_linear|].
  repeat run_step.
  rewrite ?Hge. eapply wp_ok; [apply lib_ok; by apply sh_linear|].
  repeat run_step.
  rewrite ?Hge. eapply wp_ok; [apply lib_ok; by apply sh_linear|].
  repeat run_step.
  eapply wp_ok; [apply lib_ok, sh_class_loss|].
  repeat run_step.
  eexists; split; [trace_eq|reflexivity].
Qed.
End ShapeRun.

(** ** The stages of the data flow *)

Section Stages.
Context {F : Framework}.

Lemma stages_app evs1 evs2 : stages (evs1 ++ evs2) = stages evs1 ++ stages evs2.
Proof. apply omap_app. Qed.

(** The layers of a model are applied in their order. *)
Lemma wp_call_layers_stages ls x (Qok : tensor -> state -> Prop) Qerr s :
  (forall r evs,
     match r with
     | inr y => stages evs = layer_stage <$> ls ->
                Qok y (set_calls (calls s ++ evs) s)
     | inl e => stages evs `prefix_of` (layer_stage <$> ls) ->
                Qerr e (set_calls (calls s ++ evs) s)
     end) ->
  wp (call_layers ls x) Qok Qerr s.
Proof.
  revert x s Qok Qerr. induction ls as [|l ls IH]; intros x s Qok Qerr H.
  - apply wp_ret. specialize (H (inr x) []). unfold set_calls in H.
    rewrite app_nil_r, state_eta in H. by apply H.
  - assert (forall e evs,
        set_calls ((calls s ++ [e]) ++ evs) (set_calls (calls s ++ [e]) s)
        = set_calls (calls s ++ e :: evs) s) as Hs.
    { intros e evs. by rewrite <- app_assoc. }
    simpl. repeat wp_step0 idtac.
    all: try (apply IH; intros [e|y] evs; st_simpl; rewrite Hs; intros Hst;
              [apply (H (inl e)); simpl; by apply prefix_cons
              |apply (H (inr y)); simpl; by rewrite Hst]).
    all: try (match goal with
              | |- _ (Dangling ?l) _ =>
                  specialize (H (inl (Dangling l)) []);
                  rewrite app_nil_r, state_eta in H;
                  apply H; by apply prefix_nil
              end).
    all: apply (H (inl _) [_]); simpl; apply prefix_nil.
Qed.

Lemma wp_call_model_stages m x (Qok : tensor -> state -> Prop) Qerr s :
  (forall r evs,
     match r with
     | inr y => stages evs = forward_stages m -> Qok y (set_calls (calls s ++ evs) s)
     | inl e => stages evs `prefix_of` forward_stages m ->
                Qerr e (set_calls (calls s ++ evs) s)
     end) ->
  wp (call_model m x) Qok Qerr s.
Proof.
  intros H. unfold call_model. apply wp_bind, wp_call_layers_stages.
  intros [e|y] evs Hst.
  - apply (H (inl e)). by apply prefix_app_r.
  - repeat wp_step0 idtac. rewrite <- app_assoc.
    apply (H (inr y) (evs ++ [EForward m y])).
    by rewrite stages_app, Hst.
Qed.

Lemma passes_add k1 k2 p : passes (k1 + k2) p = passes k1 p ++ passes k2 p.
Proof. unfold passes. by rewrite replicate_add, concat_app. Qed.

Lemma whole_nil p : whole p [].
Proof. by exists 0. Qed.
Lemma whole_one p : whole p p.
Proof. exists 1. unfold passes. simpl. by rewrite app_nil_r. Qed.
Lemma whole_app p l1 l2 : whole p l1 -> whole p l2 -> whole p (l1 ++ l2).
Proof. intros [k1 ->] [k2 ->]. exists (k1 + k2). by rewrite passes_add. Qed.
Lemma cut_prefix p l : l `prefix_of` p -> cut p l.
Proof. intros H. by exists 0, l. Qed.
Lemma cut_app p l1 l2 : whole p l1 -> cut p l2 -> cut p (l1 ++ l2).
Proof.
  intros [k1 ->] (k2 & rest & -> & H). exists (k1 + k2), rest.
  by rewrite passes_add, <- app_assoc.
Qed.

End Stages.

Ltac prefix_tac :=
  simpl; rewrite <- ?app_assoc; simpl;
  repeat first [ apply prefix_nil | apply prefix_cons | apply prefix_app
               | reflexivity | (etrans; [eassumption|]) ].

Ltac stages_tac :=
  rewrite ?stages_app; simpl;
  repeat match goal with
         | H : stages ?evs = _ |- context [stages ?evs] => rewrite H
         end;
  unfold iteration_stages, forward_stages in *;
  first [ reflexivity | by rewrite <- ?app_assoc | prefix_tac ].

Ltac wp_stage_step err :=
  lazymatch goal with
  | |- wp (call_model _ _) _ _ _ =>
      apply wp_call_model_stages; intros [?|?] ? ?; st_simpl; [err|]
  | |- _ => wp_step0 err
  end.

Section Pipeline.
Context {F : Framework}.

Lemma train_batch_stages m c b s :
  names m c s ->
  wp (train_batch b)
     (fun _ s' => names m c s' /\
        exists evs, calls s' = calls s ++ evs /\ stages evs = iteration_stages m c)
     (fun _ s' => exists evs, calls s' = calls s ++ evs /\
                              stages evs `prefix_of` iteration_stages m c) s.
Proof.
  intros [Hm Hc]. unfold train_batch, forward_backward, step_and_log.
  repeat wp_stage_step ltac:(trace_split; stages_tac).
  all: try (split; [unfold names; st_simpl; split; by map_simpl|]).
  all: trace_split; stages_tac.
Qed.

Lemma wp_for_each_stages {A} (p : list stage) (I : state -> Prop)
    (xs : list A) (body : A -> M unit) s :
  I s ->
  (forall x s1, I s1 ->
     wp (body x)
        (fun _ s2 => I s2 /\ exists evs, calls s2 = calls s1 ++ evs /\ whole p (stages evs))
        (fun _ s2 => exists evs, calls s2 = calls s1 ++ evs /\ cut p (stages evs)) s1) ->
  wp (for_each xs body)
     (fun _ s2 => I s2 /\ exists evs, calls s2 = calls s ++ evs /\ whole p (stages evs))
     (fun _ s2 => exists evs, calls s2 = calls s ++ evs /\ cut p (stages evs)) s.
Proof.
  intros HI Hbody.
  apply (wp_for_each (fun _ s2 =>
           I s2 /\ exists evs, calls s2 = calls s ++ evs /\ whole p (stages evs))).
  - split; [done|]. exists []. split; [by rewrite app_nil_r|apply whole_nil].
  - intros done x rest s1 _ (HI1 & evs1 & Hc1 & HP1).
    eapply wp_mono; [by apply Hbody| |].
    + intros [] s2 (HI2 & evs2 & Hc2 & HP2). split; [done|].
      exists (evs1 ++ evs2). split; [by rewrite Hc2, Hc1, app_assoc|].
      rewrite stages_app. by apply whole_app.
    + intros e s2 (evs2 & Hc2 & HP2).
      exists (evs1 ++ evs2). split; [by rewrite Hc2, Hc1, app_assoc|].
      rewrite stages_app. by apply cut_app.
  - done.
Qed.

Ltac whole_tac :=
  rewrite ?stages_app; simpl; rewrite ?app_nil_r;
  first [ assumption | apply whole_nil | apply whole_one
        | apply cut_prefix, prefix_nil
        | (apply cut_app; [assumption|apply cut_prefix, prefix_nil])
        | match goal with
          | H : whole ?p ?l |- cut ?p ?l =>
              rewrite <- (app_nil_r l); apply cut_app; [exact H|apply cut_prefix, prefix_nil]
          end ].

Lemma train_epoch_stages m c e s :
  names m c s ->
  wp (train_epoch e)
     (fun _ s' => names m c s' /\
        exists evs, calls s' = calls s ++ evs /\ whole (iteration_stages m c) (stages evs))
     (fun _ s' => exists evs, calls s' = calls s ++ evs /\
                              cut (iteration_stages m c) (stages evs)) s.
Proof.
  intros [Hm Hc]. unfold train_epoch.
  wp_steps ltac:(trace_split; whole_tac).
  eapply wp_mono;
    [apply (wp_for_each_stages (iteration_stages m c) (names m c));
       [unfold names; st_simpl; split; by map_simpl|]
    | | ].
  - intros b s1 Hn. eapply wp_mono; [by apply train_batch_stages| |].
    + intros [] s2 (Hn2 & evs & Hc2 & Hst). split; [done|].
      exists evs. split; [done|]. rewrite Hst. apply whole_one.
    + intros ex s2 (evs & Hc2 & Hst). exists evs. split; [done|by apply cut_prefix].
  - intros [] s2 ([Hm2 Hcr2] & evs & Hc2 & HP). st_simpl.
    unfold print_training_loss.
    wp_steps ltac:(eexists; split;
                     [refine (trace_pre_then _ _ _ _ _ Hc2 _); trace_eq|whole_tac]).
    all: (split; [by split|]); eexists; split;
      [refine (trace_pre_then _ _ _ _ _ Hc2 _); trace_eq|whole_tac].
  - intros ex s2 (evs & Hc2 & HP). st_simpl.
    eexists; split; [refine (trace_pre_then _ _ _ _ _ Hc2 _); trace_eq|whole_tac].
Qed.

Lemma cell_37_stages s :
  wp cell_37
     (fun _ s' => exists evs, calls s' = calls s ++ evs /\ whole pipeline_37 (stages evs))
     (fun _ s' => exists evs, calls s' = calls s ++ evs /\ cut pipeline_37 (stages evs)) s.
Proof.
  unfold cell_37. wp_steps ltac:(trace_split; whole_tac).
  eapply wp_mono;
    [apply (wp_for_each_stages pipeline_37 (names (model_37 s) NLLLoss));
       [unfold names; st_simpl; split; by map_simpl
       |intros; by apply (train_epoch_stages (model_37 s) NLLLoss)]
    | | ].
  - intros [] s2 (_ & evs & Hc2 & HP). st_simpl.
    eexists; split; [refine (trace_pre_then _ _ _ _ _ Hc2 _); trace_eq|whole_tac].
  - intros ex s2 (evs & Hc2 & HP). st_simpl.
    eexists; split; [refine (trace_pre_then _ _ _ _ _ Hc2 _); trace_eq|whole_tac].
Qed.

Lemma cell_30_stages s :
  wp cell_30
     (fun _ s' => exists evs, calls s' = calls s ++ evs /\ stages evs = pipeline_30)
     (fun _ s' => exists evs, calls s' = calls s ++ evs /\
                              stages evs `prefix_of` pipeline_30) s.
Proof.
  unfold cell_30.
  repeat wp_stage_step ltac:(trace_split; stages_tac).
  all: trace_split; stages_tac.
Qed.

Lemma since_app (s s' : state) evs : calls s' = calls s ++ evs -> since s s' = evs.
Proof. intros H. unfold since. by rewrite H, drop_app_length. Qed.
End Pipeline.
(** ** The iterations of the training loop, call by call *)

Section Training.
Context {F : Framework}.

Lemma heap_after_app evs1 evs2 (h : gmap loc Param) :
  heap_after (evs1 ++ evs2) h = heap_after evs2 (heap_after evs1 h).
Proof. apply foldl_app. Qed.

Lemma forward_pass_heap on h ls x evs y (h' : gmap loc Param) :
  forward_pass on h ls x evs y -> heap_after evs h' = h'.
Proof.
  revert x evs. induction ls as [|l ls IH]; intros x [|e evs]; simpl; try done.
  destruct e; try done. intros (_ & _ & H). by apply (IH _ _ H).
Qed.

Lemma forward_pass_layer_events on h ls x evs y :
  forward_pass on h ls x evs y -> Forall layer_event evs.
Proof.
  revert x evs. induction ls as [|l ls IH]; intros x [|e evs]; simpl; try done.
  destruct e; try done. intros (_ & _ & H). constructor; [by left|by apply (IH _ _ H)].
Qed.

Lemma forward_pass_stages on h ls x evs y :
  forward_pass on h ls x evs y -> stages evs = layer_stage <$> ls.
Proof.
  revert x evs. induction ls as [|l ls IH]; intros x [|e evs]; simpl; try done.
  destruct e; try done. intros (-> & _ & H). cbn [stages omap list_omap stage_of].
  change (omap stage_of evs) with (stages evs). rewrite (IH _ _ H). by destruct l.
Qed.

(** A forward pass reads the data of the parameters only. *)
Lemma forward_pass_data on (h h' : gmap loc Param) ls x evs y :
  (forall l p', h' !! l = Some p' -> exists p, h !! l = Some p /\ data p = data p') ->
  forward_pass on h' ls x evs y -> forward_pass on h ls x evs y.
Proof.
  intros Hd. revert x evs. induction ls as [|l ls IH]; intros x [|e evs]; simpl; try done.
  destruct e; try done. intros (-> & Ha & H). split_and!; [done| |by apply IH].
  destruct l as [i o w b| |d]; simpl in *; try done.
  destruct Ha as (pw & pb & y0 & Hw & Hb & Hl & ->).
  destruct (Hd _ _ Hw) as (qw & Hqw & Ew). destruct (Hd _ _ Hb) as (qb & Hqb & Eb).
  exists qw, qb, y0. by rewrite Ew, Eb.
Qed.

Lemma zeroed_data (h : gmap loc Param) ls l p' :
  foldr (alter zero_param) h ls !! l = Some p' ->
  exists p, h !! l = Some p /\ data p = data p'.
Proof.
  destruct (foldr_alter_lookup zero_param h ls l) as (k & E & _). rewrite E.
  destruct (h !! l) as [p|]; [|done]. simpl. intros [= <-]. exists p. split; [done|].
  clear. induction k as [|k IH]; [done|]. simpl. exact IH.
Qed.

(** The layers of a model are applied one to the result of the other. *)
Lemma wp_call_layers_pass ls x (Qok : tensor -> state -> Prop) Qerr s :
  (forall y evs, forward_pass (grad_enabled s) (heap s) ls x evs y ->
                 Qok y (set_calls (calls s ++ evs) s)) ->
  (forall e s', Qerr e s') ->
  wp (call_layers ls x) Qok Qerr s.
Proof.
  revert x s Qok. induction ls as [|l ls IH]; intros x s Qok Hok Herr.
  - apply wp_ret. specialize (Hok x [] eq_refl). unfold set_calls in Hok.
    by rewrite app_nil_r, state_eta in Hok.
  - assert (forall e evs,
        set_calls ((calls s ++ [e]) ++ evs) (set_calls (calls s ++ [e]) s)
        = set_calls (calls s ++ e :: evs) s) as Hs.
    { intros e evs. by rewrite <- app_assoc. }
    cbn [call_layers]. repeat wp_step0 ltac:(apply Herr).
    all: apply IH; [|done]; intros y evs Hfp; st_simpl; rewrite Hs; apply Hok;
      cbn [forward_pass]; (split; [done|]); (split; [|exact Hfp]); simpl.
    + by eexists _, _, _.
    + done.
    + by eexists.
Qed.

Lemma iteration_stages_eq on m c o h b evs :
  iteration on m c o h b evs -> stages evs = iteration_stages m c.
Proof.
  intros (n & flat & levs & logits & loss & gs & v & _ & _ & Hfp & _ & _ & _ & ->).
  rewrite !stages_app, (forward_pass_stages _ _ _ _ _ _ Hfp).
  unfold iteration_stages, forward_stages. simpl. by rewrite <- app_assoc.
Qed.

Lemma iteration_phases on m c o h b evs :
  iteration on m c o h b evs -> phases evs = training_order.
Proof.
  intros (n & flat & levs & logits & loss & gs & v & _ & _ & Hfp & _ & _ & _ & ->).
  rewrite !phases_app, (phases_layer_events levs); [done|].
  by eapply forward_pass_layer_events.
Qed.

Lemma iteration_heap on m c o h b evs gs :
  iteration on m c o h b evs -> EBackward gs ∈ evs ->
  heap_after evs h
  = foldr (alter (sgd_param (lr o)))
          (backward_into gs (foldr (alter zero_param) h (param_group o)))
          (param_group o).
Proof.
  intros (n & flat & levs & logits & loss & gs' & v & _ & _ & Hfp & _ & _ & _ & ->) Hin.
  assert (gs = gs') as <-.
  { rewrite !elem_of_app, !elem_of_cons, elem_of_nil in Hin.
    destruct Hin as [[|[|[]]]|[Hin|[|[|[|[|[|[]]]]]]]]; try done; [|congruence].
    pose proof (forward_pass_layer_events _ _ _ _ _ _ Hfp) as Hl.
    rewrite Forall_forall in Hl. by destruct (Hl _ Hin). }
  rewrite !heap_after_app. cbn [heap_after foldl heap_step].
  change (foldl heap_step ?h0 levs) with (heap_after levs h0).
  by rewrite (forward_pass_heap _ _ _ _ _ _ _ Hfp).
Qed.

End Training.

Ltac wp_pass_step :=
  lazymatch goal with
  | |- wp (call_model _ _) _ _ _ =>
      unfold call_model; apply wp_bind, wp_call_layers_pass;
      [intros ? ? ?; st_simpl|done]
  | |- _ => wp_step0 ltac:(done)
  end.

Section Training2.
Context {F : Framework}.

(** One iteration, from any state: when it ends normally, the model, the
    criterion and the optimizer were bound, and the calls are those of an
    iteration on them. *)
Lemma train_batch_run b s :
  wp (train_batch b)
     (fun _ s' => exists m c o evs,
        globals s !! "model" = Some (VModel m) /\
        globals s !! "criterion" = Some (VCriterion c) /\
        globals s !! "optimizer" = Some (VOptimizer o) /\
        globals s' !! "model" = Some (VModel m) /\
        globals s' !! "criterion" = Some (VCriterion c) /\
        globals s' !! "optimizer" = Some (VOptimizer o) /\
        grad_enabled s' = grad_enabled s /\
        next s' = next s /\ rng s' = rng s /\ stdout s' = stdout s /\
        calls s' = calls s ++ evs /\
        iteration (grad_enabled s) m c o (heap s) b evs /\
        heap s' = heap_after evs (heap s))
     (fun _ _ => True) s.
Proof.
  unfold train_batch, forward_backward, step_and_log.
  repeat wp_pass_step.
  all: eexists _, _, _, _; split_and!; try done; [trace_eq| |].
  all: try (eexists _, _, _, _, _, _, _; split_and!; try done;
            eapply forward_pass_data; [|eassumption]; apply zeroed_data).
  all: rewrite !heap_after_app; cbn [heap_after foldl heap_step];
    match goal with
    | H : forward_pass _ _ _ _ ?levs _ |- _ =>
        change (foldl heap_step ?h0 levs) with (heap_after levs h0);
        by rewrite (forward_pass_heap _ _ _ _ _ _ _ H)
    end.
Qed.

End Training2.

Section Training3.
Context {F : Framework}.

Lemma iterations_app (P : gmap loc Param -> list event -> Prop) h its1 its2 :
  iterations P h its1 -> iterations P (heap_after (concat its1) h) its2 ->
  iterations P h (its1 ++ its2).
Proof.
  revert h. induction its1 as [|it its1 IH]; intros h; simpl; [done|].
  intros [Hit H1] H2. split; [done|]. apply IH; [done|]. by rewrite <- heap_after_app.
Qed.

Lemma iterations_impl (P Q : gmap loc Param -> list event -> Prop) h its :
  (forall h evs, P h evs -> Q h evs) -> iterations P h its -> iterations Q h its.
Proof.
  intros HPQ. revert h. induction its as [|it its IH]; intros h; simpl; [done|].
  intros [Hit H1]. split; [by apply HPQ|by apply IH].
Qed.

Lemma iterations_Forall (P : gmap loc Param -> list event -> Prop) (Q : list event -> Prop) h its :
  (forall h evs, P h evs -> Q evs) -> iterations P h its -> Forall Q its.
Proof.
  intros HPQ. revert h. induction its as [|it its IH]; intros h; simpl; [constructor|].
  intros [Hit H1]. constructor; [by eapply HPQ|by eapply IH].
Qed.

Lemma heap_after_pass (p : DataLoader * list (list event)) (h : gmap loc Param) :
  heap_after (pass_events p) h = heap_after (concat p.2) h.
Proof. done. Qed.

Lemma train_batch_iteration m c o b s :
  names m c s /\ bound m o s ->
  wp (train_batch b)
     (fun _ s' => (names m c s' /\ bound m o s') /\
        grad_enabled s' = grad_enabled s /\
        exists evs,
          calls s' = calls s ++ evs /\
          iteration (grad_enabled s) m c o (heap s) b evs /\
          heap s' = heap_after evs (heap s))
     (fun _ _ => True) s.
Proof.
  intros [[Hm Hc] [_ Ho]].
  eapply wp_mono; [apply train_batch_run| |done].
  intros [] s' (m' & c' & o' & evs & Hm0 & Hc0 & Ho0 & Hm1 & Hc1 & Ho1 & Hg & _ & _ & _
                  & Hcalls & Hit & Hh).
  simplify_eq. split_and!; try done. by exists evs.
Qed.

(** The inner loop: one iteration for each batch, each from the store the
    one before it left. *)
Lemma batches_iterations m c o bs s :
  names m c s /\ bound m o s ->
  wp (for_each bs train_batch)
     (fun _ s' => (names m c s' /\ bound m o s') /\
        grad_enabled s' = grad_enabled s /\
        exists its,
          calls s' = calls s ++ concat its /\
          length its = length bs /\
          iterations (fun h evs => exists b, iteration (grad_enabled s) m c o h b evs)
                     (heap s) its /\
          heap s' = heap_after (concat its) (heap s))
     (fun _ _ => True) s.
Proof.
  intros Hb.
  apply (wp_for_each (fun done s' => (names m c s' /\ bound m o s') /\
        grad_enabled s' = grad_enabled s /\
        exists its,
          calls s' = calls s ++ concat its /\
          length its = length done /\
          iterations (fun h evs => exists b, iteration (grad_enabled s) m c o h b evs)
                     (heap s) its /\
          heap s' = heap_after (concat its) (heap s))).
  - split; [done|]. split; [done|]. exists []. simpl. by rewrite app_nil_r.
  - intros done b rest s1 _ (Hb1 & Hg1 & its & Hc1 & Hlen & Hits & Hh1).
    eapply wp_mono; [by apply (train_batch_iteration m c o)| |done].
    intros [] s2 (Hb2 & Hg2 & evs & Hc2 & Hit & Hh2).
    split; [done|]. split; [congruence|]. exists (its ++ [evs]).
    rewrite concat_app. simpl. rewrite app_nil_r. split_and!.
    + by rewrite Hc2, Hc1, app_assoc.
    + rewrite !length_app, Hlen. reflexivity.
    + apply iterations_app; [done|]. simpl. split; [|done].
      exists b. by rewrite <- Hh1, <- Hg1.
    + by rewrite heap_after_app, <- Hh1.
  - done.
Qed.

Lemma train_epoch_iterations m c o e s :
  names m c s /\ bound m o s ->
  wp (train_epoch e)
     (fun _ s' => (names m c s' /\ bound m o s') /\
        grad_enabled s' = grad_enabled s /\
        exists p,
          calls s' = calls s ++ pass_events p /\
          iterations (fun h evs => exists b, iteration (grad_enabled s) m c o h b evs)
                     (heap s) p.2 /\
          heap s' = heap_after (pass_events p) (heap s))
     (fun _ _ => True) s.
Proof.
  intros [[Hm Hc] [_ Ho]]. unfold train_epoch.
  wp_steps ltac:(done).
  eapply wp_mono;
    [apply (batches_iterations m c o); unfold names, bound; st_simpl;
     split_and!; by map_simpl | | done].
  intros [] s2 (([Hm2 Hc2] & [_ Ho2]) & Hg2 & its & Hcalls & Hlen & Hits & Hh2). st_simpl.
  unfold print_training_loss. wp_steps ltac:(done).
  all: (split; [unfold names, bound; st_simpl; by split_and!|]); split; [done|].
  all: exists (ld, its); unfold pass_events; cbn [fst snd]; rewrite Hlen;
    split_and!; [by rewrite Hcalls, <- app_assoc|done|done].
Qed.

Lemma epochs_iterations m c o (es : list Z) s :
  names m c s /\ bound m o s ->
  wp (for_each es train_epoch)
     (fun _ s' => (names m c s' /\ bound m o s') /\
        grad_enabled s' = grad_enabled s /\
        exists epochs,
          calls s' = calls s ++ concat (pass_events <$> epochs) /\
          length epochs = length es /\
          iterations (fun h evs => exists b, iteration (grad_enabled s) m c o h b evs)
                     (heap s) (concat (snd <$> epochs)) /\
          heap s' = heap_after (concat (pass_events <$> epochs)) (heap s))
     (fun _ _ => True) s.
Proof.
  intros Hb.
  apply (wp_for_each (fun done s' => (names m c s' /\ bound m o s') /\
        grad_enabled s' = grad_enabled s /\
        exists epochs,
          calls s' = calls s ++ concat (pass_events <$> epochs) /\
          length epochs = length done /\
          iterations (fun h evs => exists b, iteration (grad_enabled s) m c o h b evs)
                     (heap s) (concat (snd <$> epochs)) /\
          heap s' = heap_after (concat (pass_events <$> epochs)) (heap s))).
  - split; [done|]. split; [done|]. exists []. simpl. by rewrite app_nil_r.
  - intros done e rest s1 _ (Hb1 & Hg1 & epochs & Hc1 & Hlen & Hits & Hh1).
    eapply wp_mono; [by apply (train_epoch_iterations m c o)| |done].
    intros [] s2 (Hb2 & Hg2 & p & Hc2 & Hit & Hh2).
    split; [done|]. split; [congruence|]. exists (epochs ++ [p]).
    rewrite !fmap_app, !concat_app. simpl. rewrite !app_nil_r. split_and!.
    + by rewrite Hc2, Hc1, app_assoc.
    + rewrite !length_app, Hlen. reflexivity.
    + apply iterations_app; [done|].
      assert (heap_after (concat (concat (snd <$> epochs))) (heap s) = heap s1) as ->;
        [|by rewrite <- Hg1].
      rewrite Hh1. clear. generalize (heap s). induction epochs as [|q epochs IH]; intros h; [done|].
      cbn [fmap list_fmap concat]. rewrite concat_app, !heap_after_app, heap_after_pass.
      apply IH.
    + by rewrite heap_after_app, <- Hh1.
  - done.
Qed.

Lemma cell_37_iterations s :
  wp cell_37
     (fun _ s' =>
        bound (model_37 s) (optimizer_37 s) s' /\
        exists epochs,
          calls s' = calls s ++ construction_37 s ++ concat (pass_events <$> epochs) /\
          length epochs = 10 /\
          iterations (iteration_37 s) (built_37 s) (concat (snd <$> epochs)) /\
          heap s' = heap_after (concat (pass_events <$> epochs)) (built_37 s))
     (fun _ _ => True) s.
Proof.
  unfold cell_37, built_37. wp_steps ltac:(done).
  eapply wp_mono;
    [apply (epochs_iterations (model_37 s) NLLLoss (optimizer_37 s));
     unfold names, bound; st_simpl; split_and!; by map_simpl | | done].
  intros [] s' ((_ & Hb) & Hg & epochs & Hcalls & Hlen & Hits & Hh). st_simpl.
  split; [done|]. exists epochs. split_and!; try done.
  refine (trace_pre_then _ _ _ _ _ Hcalls _). unfold construction_37. trace_eq.
Qed.

End Training3.

Section Order.
Context {F : Framework}.

(** C1, as the code has it.  Every iteration of the training loop of cell 37
    that runs to its end performs, in this order, a gradient reset, a
    forward pass, the computation of the loss, a backward pass and a
    parameter step, and it is made of calls into the framework with nothing
    in between: the images are flattened by [view]; the flattened images go
    through the layers of the model bound to [model], each layer applied to
    what the layer before it returned, with the parameters as the store
    holds them; the loss is what the criterion returns for the output of the
    last layer and the labels of the batch; the gradients are those the
    framework computes for that loss; and the store of parameters after the
    iteration is what [zero_grad], [backward] with these gradients and
    [step] make, in this order, of the store before it.  The iteration
    creates no object, draws nothing from the generator and prints nothing.
    An iteration cut short by an exception performs a prefix of the five
    steps. *)
Theorem training_iteration_order (b : tensor * tensor) (s : state) :
  exists evs,
    calls (train_batch b s).2 = calls s ++ evs /\
    match (train_batch b s).1 with
    | inr _ =>
        phases evs = [GradientReset; Forward; Loss; Backward; ParameterStep] /\
        exists m c o gs,
          globals s !! "model" = Some (VModel m) /\
          globals s !! "criterion" = Some (VCriterion c) /\
          globals s !! "optimizer" = Some (VOptimizer o) /\
          iteration (grad_enabled s) m c o (heap s) b evs /\
          EBackward gs ∈ evs /\
          heap (train_batch b s).2
          = foldr (alter (sgd_param (lr o)))
                  (backward_into gs (foldr (alter zero_param) (heap s) (param_group o)))
                  (param_group o) /\
          next (train_batch b s).2 = next s /\
          rng (train_batch b s).2 = rng s /\
          stdout (train_batch b s).2 = stdout s
    | inl _ => phases evs `prefix_of`
                 [GradientReset; Forward; Loss; Backward; ParameterStep]
    end.
Proof.
  pose proof (train_batch_phases b s) as Hp. pose proof (train_batch_run b s) as Hr.
  unfold wp in Hp, Hr.
  destruct (train_batch b s) as [[e|[]] s']; cbn [fst snd]; [exact Hp|].
  destruct Hp as (evs & Hc & Hph).
  destruct Hr as (m & c & o & evs' & Hm & Hcr & Ho & _ & _ & _ & _ & Hn & Hg & Hout
                  & Hc' & Hit & Hh).
  assert (evs' = evs) as -> by (rewrite Hc in Hc'; by apply app_inv_head in Hc').
  exists evs. split; [done|]. split; [done|].
  assert (exists gs, EBackward gs ∈ evs) as [gs Hgs].
  { destruct Hit as (n & flat & levs & logits & loss & gs & v & _ & _ & _ & _ & _ & _ & ->).
    exists gs. rewrite !elem_of_app, !elem_of_cons. tauto. }
  exists m, c, o, gs. split_and!; try done.
  by rewrite Hh, (iteration_heap _ _ _ _ _ _ _ gs Hit Hgs).
Qed.

End Order.

Section TrainedModel.
Context {F : Framework}.

Lemma cell_60_forward m s :
  globals s !! "model" = Some (VModel m) ->
  wp cell_60
     (fun _ s' => exists pre img layer_evs logps post,
        calls s' = calls s ++ pre ++ layer_evs ++ [EForward m logps] ++ post /\
        forward_pass false (heap s) (layers m) img layer_evs logps)
     (fun _ _ => True) s.
Proof.
  intros Hm. unfold cell_60.
  repeat wp_pass_step.
  eexists [_; _; _], _, _, _, [_; _; _].
  split; [|eassumption]. rewrite <- !app_assoc. reflexivity.
Qed.

(** C6.  When the training cell (37) has ended normally and the prediction
    cell (60) runs next, the name [model] is bound to the object the
    training cell constructed.  The training was ten passes over the loader,
    with one iteration for each batch of a pass; every iteration was made on
    that object and on its optimizer, from the store of parameters that the
    iteration before it left; and the store after the training is the store
    of the newly constructed parameters with every gradient reset, backward
    pass and parameter step of these iterations applied to it, in order.
    The prediction cell constructs no model, computes no gradient and
    updates nothing; it leaves that store as it is, and its forward pass
    goes through the layers of that same object with the parameters as that
    store holds them. *)
Theorem prediction_evaluates_trained_model (s s1 : state) :
  cell_37 s = (inr tt, s1) ->
  exists epochs prediction,
    globals s1 !! "model" = Some (VModel (model_37 s)) /\
    globals s1 !! "optimizer" = Some (VOptimizer (optimizer_37 s)) /\
    calls s1 = calls s ++ construction_37 s ++ concat (pass_events <$> epochs) /\
    length epochs = 10 /\
    iterations (iteration_37 s) (built_37 s) (concat (snd <$> epochs)) /\
    heap s1 = heap_after (concat (pass_events <$> epochs)) (built_37 s) /\
    Forall (trains (model_37 s) (optimizer_37 s)) (concat (pass_events <$> epochs)) /\
    calls (cell_60 s1).2 = calls s1 ++ prediction /\
    Forall (evaluates (model_37 s)) prediction /\
    heap (cell_60 s1).2 = heap s1 /\
    ((cell_60 s1).1 = inr tt ->
     exists pre img layer_evs logps post,
       prediction = pre ++ layer_evs ++ [EForward (model_37 s) logps] ++ post /\
       forward_pass false (heap s1) (layers (model_37 s)) img layer_evs logps).
Proof.
  intros Hrun. pose proof (cell_37_same_model s) as H37.
  pose proof (cell_37_iterations s) as Hit.
  unfold wp in H37, Hit. rewrite Hrun in H37, Hit.
  destruct H37 as ([Hm Ho] & training & Hc & Htr).
  destruct Hit as (_ & epochs & Hc' & Hlen & Hits & Hh).
  assert (training = concat (pass_events <$> epochs)) as ->.
  { rewrite Hc in Hc'. by apply app_inv_head, app_inv_head in Hc'. }
  pose proof (cell_60_evaluates (model_37 s) s1 Hm) as H60.
  pose proof (cell_60_forward (model_37 s) s1 Hm) as Hfw.
  pose proof (wp_frame_heap_cell_60 s1) as Hheap.
  unfold wp in H60, Hfw, Hheap.
  destruct (cell_60 s1) as [[e|[]] s2]; cbn [fst snd].
  - destruct H60 as (prediction & Hc2 & Hev). destruct Hheap as [Hh2 _].
    exists epochs, prediction. by split_and!.
  - destruct H60 as (prediction & logps & Hc2 & Hev & Hin). destruct Hheap as [Hh2 _].
    destruct Hfw as (pre & img & levs & logps' & post & Hc3 & Hfp).
    exists epochs, prediction. split_and!; try done. intros _.
    exists pre, img, levs, logps', post. split; [|done].
    rewrite Hc2 in Hc3. by apply app_inv_head in Hc3.
Qed.

End TrainedModel.


(** ** The number of passes through the pipeline *)

Section PassCount.
Context {F : Framework}.

Lemma passes_succ k p : passes (S k) p = passes k p ++ p.
Proof.
  replace (S k) with (k + 1) by lia. rewrite passes_add. unfold passes at 2. simpl.
  by rewrite app_nil_r.
Qed.

Lemma passes_mul k n p : passes k (passes n p) = passes (k * n) p.
Proof.
  induction k as [|k IH]; [done|].
  rewrite passes_succ, IH, <- passes_add. f_equal. lia.
Qed.

(** A loop whose body goes through the stages [p] once, for each element. *)
Lemma wp_for_each_passes {A} (p : list stage) (I : state -> Prop) (G : A -> Prop)
    (xs : list A) (body : A -> M unit) s :
  I s -> Forall G xs ->
  (forall x s1, G x -> I s1 ->
     wp (body x)
        (fun _ s2 => I s2 /\ exists evs, calls s2 = calls s1 ++ evs /\ stages evs = p)
        (fun _ _ => False) s1) ->
  wp (for_each xs body)
     (fun _ s2 => I s2 /\ exists evs, calls s2 = calls s ++ evs /\
                                      stages evs = passes (length xs) p)
     (fun _ _ => False) s.
Proof.
  intros HI HG Hbody.
  apply (wp_for_each (fun done s2 =>
           I s2 /\ exists evs, calls s2 = calls s ++ evs /\
                               stages evs = passes (length done) p)).
  - split; [done|]. exists []. split; [by rewrite app_nil_r|done].
  - intros done x rest s1 Hxs (HI1 & evs1 & Hc1 & HP1).
    eapply wp_mono; [apply Hbody; [|done]| |done].
    + rewrite Forall_forall in HG. apply HG. rewrite Hxs. set_solver.
    + intros [] s2 (HI2 & evs2 & Hc2 & HP2). split; [done|].
      exists (evs1 ++ evs2). split; [by rewrite Hc2, Hc1, app_assoc|].
      rewrite stages_app, HP1, HP2, length_app. simpl.
      replace (length done + 1) with (S (length done)) by lia. by rewrite passes_succ.
  - done.
Qed.

End PassCount.

Section ShapeCount.
Local Existing Instance Shapes.framework.
Import Shapes.

Lemma iteration_passes ld s0 s n :
  0 < n ->
  trainable s0 s /\ globals s !! "trainloader" = Some (VLoader ld) ->
  wp (train_batch (image_batch n))
     (fun _ s' => (trainable s0 s' /\ globals s' !! "trainloader" = Some (VLoader ld)) /\
                  exists evs, calls s' = calls s ++ evs /\ stages evs = pipeline_37)
     (fun _ _ => False) s.
Proof.
  intros Hn [Ht Hld]. eapply wp_mono; [by apply iteration_shapes| |done].
  intros [] s' (evs & Hc & Hst & Hd & Hb & Hl & Ht').
  split; [split; [done|congruence]|]. by exists evs.
Qed.

Lemma epoch_passes s0 s d e :
  0 < d ->
  prepared s0 s /\ globals s !! "trainloader" = Some (VLoader (loader d)) ->
  wp (train_epoch e)
     (fun _ s' => (prepared s0 s' /\
                   globals s' !! "trainloader" = Some (VLoader (loader d))) /\
                  exists evs, calls s' = calls s ++ evs /\
                    stages evs = passes (length (batch_sizes d d 64)) pipeline_37)
     (fun _ _ => False) s.
Proof.
  intros Hd [([Hm Ho] & Hc & Hge & Hps) Hld].
  unfold train_epoch. repeat run_step.
  cbn [fetch_batches framework dl_dataset batch_size shuffle loader].
  repeat run_step.
  eapply wp_mono;
    [apply (wp_for_each_passes pipeline_37
              (fun s1 => trainable s0 s1 /\
                         globals s1 !! "trainloader" = Some (VLoader (loader d)))
              (fun b => exists k, 0 < k /\ b = image_batch k))
    | | done].
  - unfold trainable, prepared, bound, params_shaped. st_simpl.
    split_and!; try (by repeat first [ rewrite lookup_insert_eq
                                     | rewrite lookup_insert_ne by done ]).
    eexists. split; [by rewrite lookup_insert_eq|done].
  - apply Forall_fmap. eapply Forall_impl; [by apply (batch_sizes_pos d d 64); lia|].
    intros k Hk. by exists k.
  - intros b s1 (k & Hk & ->) HI. by apply iteration_passes.
  - intros [] s1 ((Ht1 & Hld1) & evs & Hc1 & Hst). st_simpl.
    rewrite length_fmap in Hst.
    destruct Ht1 as (([Hm1 Ho1] & Hcr1 & Hge1 & Hps1) & acc1 & Hacc1 & Hnum1).
    unfold print_training_loss. repeat run_step.
    unfold py_truediv. destruct (decide _) as [E|_]; [by apply loader_len_pos in E|].
    destruct acc1; try done; repeat run_step.
    all: split; [unfold prepared, bound; st_simpl; by eauto 10|].
    all: eexists; split; [refine (trace_pre_then _ _ _ _ _ Hc1 _); trace_eq|].
    all: by rewrite stages_app.
Qed.

Lemma cell_37_passes d s :
  ready_for_37 d s ->
  wp cell_37
     (fun _ s' => exists evs,
        calls s' = calls s ++ evs /\
        stages evs = passes (10 * length (batch_sizes d d 64)) pipeline_37)
     (fun _ _ => False) s.
Proof.
  intros ((nn & Hnn) & (optim & Hoptim) & Hld & Hd & Hge).
  unfold cell_37.
  repeat (repeat run_step; progress cbn [linear_reset framework]).
  repeat run_step.
  eapply wp_mono;
    [apply (wp_for_each_passes (passes (length (batch_sizes d d 64)) pipeline_37)
              (fun s1 => prepared s s1 /\
                         globals s1 !! "trainloader" = Some (VLoader (loader d)))
              (fun _ => True))
    | | done].
  - unfold prepared, bound, params_shaped, parameter_shapes. st_simpl.
    split_and!; try (by repeat first [ rewrite lookup_insert_eq
                                     | rewrite lookup_insert_ne by done ]).
    repeat (constructor;
            [eexists; split;
             [cbn [fst]; by repeat first [ rewrite lookup_insert_eq
                                         | rewrite lookup_insert_ne by lia ]
             |done]|]).
    constructor.
  - by apply Forall_forall.
  - intros e s1 _ HI. by apply epoch_passes.
  - intros [] s1 (_ & evs & Hc1 & Hst). st_simpl.
    eexists. split; [refine (trace_pre_then _ _ _ _ _ Hc1 _); trace_eq|].
    rewrite stages_app, Hst, passes_mul. reflexivity.
Qed.

End ShapeCount.

(** ** Exceptions of the framework in every cell *)

Section UncaughtAll.
Import Exercises Autograd.
Context {F : Framework} {X : Indexing F} {Y : Elementwise F}.

Lemma uncaught_cell_9 : uncaught cell_9.
Proof.
  intros s. unfold cell_9.
  wp_steps ltac:(raised_tac).
  all: no_raise_ex.
Qed.

Lemma uncaught_cell_15 : uncaught cell_15.
Proof.
  intros s. unfold cell_15.
  wp_steps ltac:(raised_tac).
  all: no_raise_ex.
Qed.

Lemma uncaught_cell_16 : uncaught cell_16.
Proof.
  intros s. unfold cell_16.
  wp_steps ltac:(raised_tac).
  all: no_raise_ex.
Qed.

Lemma uncaught_cell_31 : uncaught cell_31.
Proof.
  intros s. unfold cell_31.
  wp_steps ltac:(raised_tac).
  all: no_raise_ex.
Qed.

Lemma uncaught_cell_32 : uncaught cell_32.
Proof.
  intros s. unfold cell_32.
  wp_steps ltac:(raised_tac).
  all: no_raise_ex.
Qed.

Lemma uncaught_cell_33 : uncaught cell_33.
Proof.
  intros s. unfold cell_33.
  wp_steps ltac:(raised_tac).
  all: no_raise_ex.
Qed.

Lemma uncaught_cell_21 : uncaught cell_21.
Proof.
  intros s. unfold cell_21.
  wp_steps ltac:(raised_tac).
  all: no_raise_ex.
Qed.

Lemma uncaught_cell_22 : uncaught cell_22.
Proof.
  intros s. unfold cell_22.
  wp_steps ltac:(raised_tac).
  all: no_raise_ex.
Qed.

Lemma uncaught_cell_23 : uncaught cell_23.
Proof.
  intros s. unfold cell_23.
  wp_steps ltac:(raised_tac).
  all: no_raise_ex.
Qed.

Lemma uncaught_cell_24 : uncaught cell_24.
Proof.
  intros s. unfold cell_24.
  wp_steps ltac:(raised_tac).
  all: no_raise_ex.
Qed.

Lemma uncaught_cell_25 : uncaught cell_25.
Proof.
  intros s. unfold cell_25.
  wp_steps ltac:(raised_tac).
  all: no_raise_ex.
Qed.

Lemma uncaught_cell_26 : uncaught cell_26.
Proof.
  intros s. unfold cell_26.
  wp_steps ltac:(raised_tac).
  all: no_raise_ex.
Qed.

Lemma uncaught_code_cells (cell : M unit) : cell ∈ code_cells -> uncaught cell.
Proof.
  unfold code_cells. intros Hcell.
  repeat (apply elem_of_cons in Hcell as [->|Hcell]);
    [ apply uncaught_cell_4 | apply uncaught_cell_30 | apply uncaught_cell_9
    | apply uncaught_cell_21 | apply uncaught_cell_22 | apply uncaught_cell_23
    | apply uncaught_cell_24 | apply uncaught_cell_25 | apply uncaught_cell_26
    | apply uncaught_cell_15 | apply uncaught_cell_16 | apply uncaught_cell_31
    | apply uncaught_cell_32 | apply uncaught_cell_33 | apply uncaught_cell_37
    | apply uncaught_cell_60 | by apply elem_of_nil in Hcell ].
Qed.

End UncaughtAll.

(** C3.  No code cell contains an exception-handling statement, or raises or
    defines an error of its own; the one [with] statement of the notebook
    is [with torch.no_grad():], which lets exceptions pass; and in each of
    the sixteen code cells, whenever the framework raises during a run of
    the cell, the run ends with that very exception, and the raising call is
    the last thing the cell has done. *)
Theorem framework_exceptions_are_not_handled :
  Forall (fun w => w ∉ Source.handler_keywords ++ Source.error_definition_words)
         Source.code_words /\
  Source.lines_with "with" = ["with torch.no_grad():"] /\
  forall (F : Framework) (X : Exercises.Indexing F) (Y : Autograd.Elementwise F)
         (cell : M unit) (s : state) (e : lib_error),
    cell ∈ Autograd.code_cells ->
    ERaise e ∈ since s (cell s).2 ->
    (cell s).1 = inl (LibError e) /\ last (calls (cell s).2) = Some (ERaise e).
Proof.
  split; [apply (bool_decide_unpack _); vm_compute; exact I|].
  split; [vm_compute; reflexivity|].
  intros F X Y cell s e Hcell. by apply uncaught_since, uncaught_code_cells.
Qed.


(** ** Runs on concrete kernels *)

Section Runs.
Context {F : Framework}.

Lemma succeeded_inr (r : exn + unit) : succeeded r = true -> r = inr tt.
Proof. by destruct r as [e|[]]. Qed.

Lemma succeeded_run (m : M unit) (s : state) :
  succeeded (m s).1 = true -> m s = (inr tt, (m s).2).
Proof. by destruct (m s) as [[e|[]] s']. Qed.

Lemma final_error_elem (evs : list event) (e : lib_error) :
  final_error evs = Some e -> ERaise e ∈ evs.
Proof.
  unfold final_error. destruct (last evs) as [ev|] eqn:E; [|done].
  destruct ev; try done. intros [= ->].
  apply last_Some in E as [l' ->]. apply elem_of_app. right. by left.
Qed.

End Runs.

(** ** The data flow of the notebook *)

Section Flow.
Import Shapes.

Lemma heap_after_construction {F : Framework} (s : state) evs (h : gmap loc Param) :
  heap_after (construction_37 s ++ evs) h = heap_after evs h.
Proof. by rewrite heap_after_app. Qed.

(** C4, as the code has it.  The first forward-pass cell (30) flattens the
    batch, applies Linear 784-128, ReLU, Linear 128-64, ReLU and Linear
    64-10, takes the output as class scores and computes a cross-entropy
    loss; it computes no gradients and updates nothing.  A run of the
    training cell (37) that ends normally is ten passes over the loader with
    one iteration for each batch of a pass, and every iteration flattens the
    images of its batch, sends them through the same five layers and then a
    sixth, LogSoftmax over dimension 1, each layer applied to what the layer
    before it returned, computes the negative log-likelihood loss from the
    output of the sixth layer and the labels, computes the gradients of that
    loss and lets the optimizer step; the parameters after the run are those
    the model was built with, updated by these gradients, iteration after
    iteration.  A run cut short by an exception stops inside one such pass.
    With the shapes of PyTorch's tensors, the training completes after ten
    times as many iterations as a pass has batches, every flattened batch
    has 784 elements per image, the layers give 128, 64 and 10 elements per
    image, every loss is a scalar, every backward pass gives one gradient
    per parameter, of the parameter's shape, and the updated parameters keep
    their shapes; and cell 30 completes on the first batch of [n] images,
    its layers giving 128, 64 and 10 elements per image and its loss being a
    scalar. *)
Theorem data_flows_through_the_pipeline :
  (forall (F : Framework) (s : state),
     match (cell_30 s).1 with
     | inr _ => stages (since s (cell_30 s).2) = pipeline_30
     | inl _ => stages (since s (cell_30 s).2) `prefix_of` pipeline_30
     end) /\
  (forall (F : Framework) (s : state),
     match (cell_37 s).1 with
     | inr _ =>
         exists epochs,
           since s (cell_37 s).2
           = construction_37 s ++ concat (pass_events <$> epochs) /\
           length epochs = 10 /\
           iterations (iteration_37 s) (built_37 s) (concat (snd <$> epochs)) /\
           Forall (fun it => stages it = pipeline_37) (concat (snd <$> epochs)) /\
           heap (cell_37 s).2 = heap_after (since s (cell_37 s).2) (built_37 s)
     | inl _ =>
         exists k rest,
           stages (since s (cell_37 s).2) = passes k pipeline_37 ++ rest /\
           rest `prefix_of` pipeline_37
     end) /\
  (forall (d : nat) (s : @state Shapes.framework),
     ready_for_37 d s ->
     (cell_37 s).1 = inr tt /\
     stages (since s (cell_37 s).2)
     = passes (10 * length (batch_sizes d d 64)) pipeline_37 /\
     Forall (flows s) (since s (cell_37 s).2) /\
     params_shaped s (cell_37 s).2) /\
  (forall (d : nat) (s : @state Shapes.framework),
     ready_for_30 d s ->
     (cell_30 s).1 = inr tt /\
     dims_of (since s (cell_30 s).2)
     = [[d `min` 64; 784]; [d `min` 64; 128]; [d `min` 64; 128];
        [d `min` 64; 64]; [d `min` 64; 64]; [d `min` 64; 10];
        [d `min` 64; 10]; []]).
Proof.
  split_and!.
  - intros F s. pose proof (cell_30_stages s) as H. unfold wp in H.
    destruct (cell_30 s) as [[e|[]] s']; destruct H as (evs & Hc & Hst);
      cbn [fst snd]; by rewrite (since_app _ _ _ Hc).
  - intros F s. pose proof (cell_37_stages s) as H.
    pose proof (cell_37_iterations s) as Hit. unfold wp in H, Hit.
    destruct (cell_37 s) as [[e|[]] s']; cbn [fst snd].
    + destruct H as (evs & Hc & k & rest & Hst & Hr).
      rewrite (since_app _ _ _ Hc). by exists k, rest.
    + destruct Hit as (_ & epochs & Hc & Hlen & Hits & Hh).
      rewrite (since_app _ _ _ Hc). exists epochs.
      split; [done|]. split; [done|]. split; [done|]. split.
      * eapply iterations_Forall; [|exact Hits].
        intros h evs [b Hb]. by rewrite (iteration_stages_eq _ _ _ _ _ _ _ Hb).
      * by rewrite heap_after_construction.
  - intros d s Hr. pose proof (cell_37_flows d s Hr) as H.
    pose proof (cell_37_passes d s Hr) as Hp. unfold wp in H, Hp.
    destruct (cell_37 s) as [[e|[]] s']; [done|].
    destruct H as ((_ & _ & _ & Hps) & training & Hc & Hfl).
    destruct Hp as (evs & Hc' & Hst).
    cbn [fst snd]. rewrite (since_app _ _ _ Hc'). split_and!; [done|done| |done].
    rewrite Hc in Hc'. apply app_inv_head in Hc'. subst evs.
    apply Forall_app. split; [by repeat constructor|done].
  - intros d s Hr. pose proof (cell_30_shapes d s Hr) as H. unfold wp in H.
    destruct (cell_30 s) as [[e|[]] s']; [done|].
    destruct H as (evs & Hc & Hdims).
    cbn [fst snd]. by rewrite (since_app _ _ _ Hc).
Qed.

End Flow.


(** ** Dependence on the generator *)

Section Generator.

Lemma cell_4_loader {F : Framework} (s : state) :
  wp cell_4
     (fun _ s' => exists ld, calls s' = calls s ++ [ENewLoader ld] /\
                             shuffle ld = true /\
                             globals s' !! "trainloader" = Some (VLoader ld))
     (fun _ _ => True) s.
Proof.
  unfold cell_4. wp_steps ltac:(done).
  eexists. split; [trace_eq|]. split; [done|by map_simpl].
Qed.

(** C5.  The code never seeds or fixes the generator of the framework; the
    loader that cell 4 creates and binds to [trainloader] shuffles; and the
    printed losses are not a function of the repository's code and the
    kernel's other state: there is a framework with two kernels that differ
    in nothing but the state of the generator, on which the training cell
    completes and prints different losses. *)
Theorem printed_losses_depend_on_generator :
  Forall (fun w => w ∉ Source.seeding_words) Source.code_words /\
  (forall (F : Framework) (s : state),
     (cell_4 s).1 = inr tt ->
     exists ld, since s (cell_4 s).2 = [ENewLoader ld] /\
                shuffle ld = true /\
                globals (cell_4 s).2 !! "trainloader" = Some (VLoader ld)) /\
  exists (F : Framework) (s : state) (g : generator),
    (cell_37 s).1 = inr tt /\
    (cell_37 (set_rng g s)).1 = inr tt /\
    printed_values (stdout (cell_37 s).2)
    <> printed_values (stdout (cell_37 (set_rng g s)).2).
Proof.
  split_and!.
  - apply (bool_decide_unpack _). vm_compute. exact I.
  - intros F s Hok. pose proof (cell_4_loader s) as H. unfold wp in H.
    destruct (cell_4 s) as [[e|[]] s']; [done|].
    destruct H as (ld & Hc & Hsh & Hg). exists ld. cbn [fst snd].
    by rewrite (since_app _ _ _ Hc).
  - exists Toy.framework, (Toy.ready 0), 1%Z. split_and!.
    + apply succeeded_inr. vm_compute. reflexivity.
    + apply succeeded_inr. vm_compute. reflexivity.
    + intros H. vm_compute in H. discriminate H.
Qed.

End Generator.

(** ** The theorems at concrete kernels *)

Lemma seventh_stage (st : list stage) (c : Criterion) (k : nat) :
  st !! 6 = Some (ApplyLogSoftmax 1) -> st <> passes k (spec_pipeline c).
Proof. intros E ->. by destruct k. Qed.

Section Instances.
#[local] Existing Instance Toy.framework.

(** C1, as the specification words it, fails: the iteration of the training
    loop on the first batch, in the kernel that cell 37 leaves behind, ends
    normally and performs the gradient reset first, not last. *)
Lemma training_iteration_order_counterexample :
  (train_batch Toy.first_batch (Toy.trained 0)).1 = inr tt /\
  phases (since (Toy.trained 0) (train_batch Toy.first_batch (Toy.trained 0)).2)
  = [GradientReset; Forward; Loss; Backward; ParameterStep] /\
  phases (since (Toy.trained 0) (train_batch Toy.first_batch (Toy.trained 0)).2)
  <> spec_training_order.
Proof.
  split_and!.
  - apply succeeded_inr. vm_compute. reflexivity.
  - vm_compute. reflexivity.
  - vm_compute. discriminate.
Qed.

(** C4, as the specification words it, fails: the training cell, run after
    cell 4, ends normally, and its stages are not passes through the worded
    pipeline, whatever the criterion, since the seventh stage is the
    LogSoftmax layer; and cell 30 ends normally after the loss, without
    gradients and without an update. *)
Lemma data_flows_through_the_pipeline_counterexample :
  (cell_37 (Toy.ready 0)).1 = inr tt /\
  stages (since (Toy.ready 0) (cell_37 (Toy.ready 0)).2) !! 6 = Some (ApplyLogSoftmax 1) /\
  (forall c k, stages (since (Toy.ready 0) (cell_37 (Toy.ready 0)).2)
               <> passes k (spec_pipeline c)) /\
  (cell_30 (Toy.ready 0)).1 = inr tt /\
  stages (since (Toy.ready 0) (cell_30 (Toy.ready 0)).2) = pipeline_30 /\
  (forall c, stages (since (Toy.ready 0) (cell_30 (Toy.ready 0)).2) <> spec_pipeline c).
Proof.
  split_and!.
  - apply succeeded_inr. vm_compute. reflexivity.
  - vm_compute. reflexivity.
  - intros c k. apply seventh_stage. vm_compute. reflexivity.
  - apply succeeded_inr. vm_compute. reflexivity.
  - vm_compute. reflexivity.
  - intros c. vm_compute. discriminate.
Qed.

(** C9 at the first batch, in the kernel that cell 37 leaves behind. *)
Lemma step_sees_gradient_of_current_batch_witness :
  forward_backward Toy.first_batch (Toy.trained 0)
  = (inr tt, (forward_backward Toy.first_batch (Toy.trained 0)).2) /\
  exists o loss gs pre post,
    globals (forward_backward Toy.first_batch (Toy.trained 0)).2 !! "optimizer"
    = Some (VOptimizer o) /\
    globals (forward_backward Toy.first_batch (Toy.trained 0)).2 !! "loss"
    = Some (VTensor loss) /\
    autograd loss = inr gs /\
    calls (forward_backward Toy.first_batch (Toy.trained 0)).2
    = calls (Toy.trained 0) ++ pre ++ [EZeroGrad o] ++ post ++ [EBackward gs] /\
    phases pre = [] /\ phases post = [Forward; Loss] /\
    (forall l p g, l ∈ param_group o ->
       heap (forward_backward Toy.first_batch (Toy.trained 0)).2 !! l = Some p ->
       gs !! l = Some g ->
       grad p = Some g \/ exists a, grad p = Some (t_add (t_zero a) g)) /\
    ((forall a g, t_add (t_zero a) g = g) ->
     forall l p g, l ∈ param_group o ->
       heap (forward_backward Toy.first_batch (Toy.trained 0)).2 !! l = Some p ->
       gs !! l = Some g ->
       grad p = Some g).
Proof.
  assert (forward_backward Toy.first_batch (Toy.trained 0)
          = (inr tt, (forward_backward Toy.first_batch (Toy.trained 0)).2)) as H
    by (apply succeeded_run; vm_compute; reflexivity).
  split; [exact H|].
  exact (step_sees_gradient_of_current_batch _ _ _ H).
Defined.

(** C8 on the kernel that cell 4 leaves behind. *)
Lemma printed_training_loss_is_epoch_average_witness :
  globals (Toy.ready 0) !! "trainloader" = Some (VLoader Toy.loader) /\
  exists pre epochs post,
    calls (cell_37 (Toy.ready 0)).2
    = calls (Toy.ready 0) ++ pre ++ concat epochs ++ post /\
    Forall (fun e => ~ is_iter e) pre /\
    Forall (one_pass Toy.loader) epochs /\
    stdout (cell_37 (Toy.ready 0)).2
    = stdout (Toy.ready 0) ++
      ((fun evs => training_loss_line
                     (spec_epoch_average (items_of evs) (loader_len Toy.loader)))
         <$> epochs) /\
    match (cell_37 (Toy.ready 0)).1 with
    | inr _ => length epochs = 10 /\ post = []
    | inl _ => length epochs < 10
    end.
Proof.
  split; [reflexivity|].
  apply (printed_training_loss_is_epoch_average Toy.loader (Toy.ready 0)).
  reflexivity.
Defined.

(** C6 on the kernel that cell 4 leaves behind. *)
Lemma prediction_evaluates_trained_model_witness :
  cell_37 (Toy.ready 0) = (inr tt, Toy.trained 0) /\
  exists epochs prediction,
    globals (Toy.trained 0) !! "model" = Some (VModel (model_37 (Toy.ready 0))) /\
    globals (Toy.trained 0) !! "optimizer"
    = Some (VOptimizer (optimizer_37 (Toy.ready 0))) /\
    calls (Toy.trained 0)
    = calls (Toy.ready 0) ++ construction_37 (Toy.ready 0)
      ++ concat (pass_events <$> epochs) /\
    length epochs = 10 /\
    iterations (iteration_37 (Toy.ready 0)) (built_37 (Toy.ready 0))
               (concat (snd <$> epochs)) /\
    heap (Toy.trained 0)
    = heap_after (concat (pass_events <$> epochs)) (built_37 (Toy.ready 0)) /\
    Forall (trains (model_37 (Toy.ready 0)) (optimizer_37 (Toy.ready 0)))
           (concat (pass_events <$> epochs)) /\
    calls (cell_60 (Toy.trained 0)).2 = calls (Toy.trained 0) ++ prediction /\
    Forall (evaluates (model_37 (Toy.ready 0))) prediction /\
    heap (cell_60 (Toy.trained 0)).2 = heap (Toy.trained 0) /\
    ((cell_60 (Toy.trained 0)).1 = inr tt ->
     exists pre img layer_evs logps post,
       prediction
       = pre ++ layer_evs ++ [EForward (model_37 (Toy.ready 0)) logps] ++ post /\
       forward_pass false (heap (Toy.trained 0)) (layers (model_37 (Toy.ready 0)))
                    img layer_evs logps).
Proof.
  assert (cell_37 (Toy.ready 0) = (inr tt, Toy.trained 0)) as H
    by (unfold Toy.trained; apply succeeded_run; vm_compute; reflexivity).
  split; [exact H|].
  exact (prediction_evaluates_trained_model _ _ H).
Defined.

(** C3 on a kernel in which gradients are switched off: the backward pass
    of the first iteration raises, and the training cell ends with that
    exception. *)
Lemma framework_exceptions_are_not_handled_witness :
  ERaise "element 0 of tensors does not require grad"
    ∈ since (Toy.without_grad 0) (cell_37 (Toy.without_grad 0)).2 /\
  (cell_37 (Toy.without_grad 0)).1
  = inl (LibError "element 0 of tensors does not require grad") /\
  last (calls (cell_37 (Toy.without_grad 0)).2)
  = Some (ERaise "element 0 of tensors does not require grad").
Proof.
  assert (ERaise "element 0 of tensors does not require grad"
            ∈ since (Toy.without_grad 0) (cell_37 (Toy.without_grad 0)).2) as H
    by (apply final_error_elem; vm_compute; reflexivity).
  split; [exact H|].
  apply (proj2 (proj2 framework_exceptions_are_not_handled) Toy.framework
           Exercises.toy_indexing Autograd.toy_elementwise cell_37);
    [|exact H].
  unfold Autograd.code_cells. rewrite !elem_of_cons. tauto.
Defined.

End Instances.

Section ShapeInstances.
#[local] Existing Instance Shapes.framework.

(** C4 on the kernel that cell 4 leaves behind, with the shapes of the
    60000 training images. *)
Lemma data_flows_through_the_pipeline_witness :
  (Shapes.ready_for_37 (N.to_nat 60000) Shapes.ready /\
   (cell_37 Shapes.ready).1 = inr tt /\
   stages (since Shapes.ready (cell_37 Shapes.ready).2)
   = passes (10 * length (Shapes.batch_sizes (N.to_nat 60000) (N.to_nat 60000) 64))
            pipeline_37 /\
   Forall (Shapes.flows Shapes.ready) (since Shapes.ready (cell_37 Shapes.ready).2) /\
   Shapes.params_shaped Shapes.ready (cell_37 Shapes.ready).2) /\
  (Shapes.ready_for_30 (N.to_nat 60000) Shapes.ready /\
   (cell_30 Shapes.ready).1 = inr tt /\
   Shapes.dims_of (since Shapes.ready (cell_30 Shapes.ready).2)
   = [[64; 784]; [64; 128]; [64; 128]; [64; 64]; [64; 64]; [64; 10]; [64; 10]; []]).
Proof.
  assert (Shapes.ready_for_37 (N.to_nat 60000) Shapes.ready) as H37.
  { unfold Shapes.ready_for_37. split_and!.
    - eexists. reflexivity.
    - eexists. reflexivity.
    - reflexivity.
    - lia.
    - reflexivity. }
  assert (Shapes.ready_for_30 (N.to_nat 60000) Shapes.ready) as H30.
  { unfold Shapes.ready_for_30. split_and!.
    - eexists. reflexivity.
    - reflexivity.
    - lia.
    - reflexivity. }
  split.
  - split; [exact H37|].
    exact (proj1 (proj2 (proj2 data_flows_through_the_pipeline)) _ _ H37).
  - split; [exact H30|].
    exact (proj2 (proj2 (proj2 data_flows_through_the_pipeline)) _ _ H30).
Defined.

End ShapeInstances.

(** * Further properties of the cells *)

Import Exercises.

(** ** What a cell needs from the cells before it *)

Section Needs.
Context {F : Framework}.

Lemma wp_fail {A} (m : M A) e s1 (Qok : A -> state -> Prop) (Qerr : exn -> state -> Prop) s :
  m s = (inl e, s1) -> Qerr e s1 -> wp m Qok Qerr s.
Proof. unfold wp. by intros ->. Qed.

Lemma load_missing x s : globals s !! x = None -> load x s = (inl (NameError x), s).
Proof. intros H. unfold load, mbind, M_bind, gets. by rewrite H. Qed.

Lemma use_missing x s : globals s !! x = None -> use x s = (inl (NameError x), s).
Proof. intros H. unfold use, mbind, M_bind. by rewrite (load_missing _ _ H). Qed.

Lemma cell_4_run s :
  wp cell_4
     (fun _ s' => exists ds,
        mnist "~/.pytorch/MNIST_data/" true true [ToTensor; Normalize [1 # 2] [1 # 2]]
        = inr ds /\
        loader_init ds 64 true = inr tt /\
        s' = set_calls (calls s ++
                          [ENewLoader {| dl_dataset := ds; batch_size := 64;
                                         shuffle := true |}])
               (set_globals
                  (<["trainloader" :=
                       VLoader {| dl_dataset := ds; batch_size := 64; shuffle := true |}]>
                     (<["trainset" := VDataset ds]>
                        (<["transform" := VTransform [ToTensor; Normalize [1 # 2] [1 # 2]]]>
                           (<["transforms" := VModule "torchvision.transforms"]>
                              (<["datasets" := VModule "torchvision.datasets"]>
                                 (<["F" := VModule "torch.nn.functional"]>
                                    (<["nn" := VModule "torch.nn"]>
                                       (<["torch" := VModule "torch"]> (globals s)))))))))
                  (set_stdout
                     (stdout s ++
                      ((fun line => [Str line])
                         <$> mnist_log "~/.pytorch/MNIST_data/" true true
                               [ToTensor; Normalize [1 # 2] [1 # 2]])) s)))
     (fun e s' => exists le,
        (mnist "~/.pytorch/MNIST_data/" true true [ToTensor; Normalize [1 # 2] [1 # 2]]
         = inl le \/
         exists ds,
           mnist "~/.pytorch/MNIST_data/" true true [ToTensor; Normalize [1 # 2] [1 # 2]]
           = inr ds /\
           loader_init ds 64 true = inl le /\
           globals s' !! "trainset" = Some (VDataset ds)) /\
        e = LibError le /\
        calls s' = calls s ++ [ERaise le] /\
        globals s' !! "trainloader" = globals s !! "trainloader" /\
        heap s' = heap s /\ next s' = next s /\ rng s' = rng s /\
        stdout s' = stdout s ++
          ((fun line => [Str line])
             <$> mnist_log "~/.pytorch/MNIST_data/" true true
                   [ToTensor; Normalize [1 # 2] [1 # 2]])) s.
Proof.
  unfold cell_4. repeat run_step.
  apply wp_lib. destruct (mnist _ _ _ _) as [le|ds] eqn:E; st_simpl.
  - exists le. split_and!; try done; [by left|by map_simpl].
  - repeat run_step.
    apply wp_lib. destruct (loader_init _ _ _) as [le|[]] eqn:E2; st_simpl.
    + exists le. split_and!; try done; [|by map_simpl].
      right. exists ds. split_and!; [done|done|by map_simpl].
    + repeat run_step. by exists ds.
Qed.

(** X1.  Cell 4 needs no cell before it.  Whatever the kernel holds, the
    cell prints what [datasets.MNIST] prints while it fetches the files and
    nothing else, and it ends normally exactly when [datasets.MNIST] returns
    a dataset and the constructor of the loader accepts it; it has then
    bound [trainset] to that dataset and [trainloader] to a shuffling loader
    of batches of 64 over it, among the eight names it binds.  When
    [datasets.MNIST] raises, or when the constructor of the loader does, as
    it does for a dataset without examples, the cell ends with that
    exception and [trainloader] is what it was.  The cell creates no
    parameter and draws nothing from the generator. *)
Theorem cell_4_needs_nothing (s : state) :
  match mnist "~/.pytorch/MNIST_data/" true true [ToTensor; Normalize [1 # 2] [1 # 2]] with
  | inr ds =>
      match loader_init ds 64 true with
      | inr _ =>
          (cell_4 s).1 = inr tt /\
          globals (cell_4 s).2 !! "trainset" = Some (VDataset ds) /\
          globals (cell_4 s).2 !! "trainloader"
          = Some (VLoader {| dl_dataset := ds; batch_size := 64; shuffle := true |}) /\
          Forall (fun x => exists n, globals (cell_4 s).2 !! x = Some (VModule n))
                 ["torch"; "nn"; "F"; "datasets"; "transforms"] /\
          since s (cell_4 s).2
          = [ENewLoader {| dl_dataset := ds; batch_size := 64; shuffle := true |}]
      | inl le =>
          (cell_4 s).1 = inl (LibError le) /\
          globals (cell_4 s).2 !! "trainset" = Some (VDataset ds) /\
          globals (cell_4 s).2 !! "trainloader" = globals s !! "trainloader" /\
          since s (cell_4 s).2 = [ERaise le]
      end
  | inl le =>
      (cell_4 s).1 = inl (LibError le) /\
      globals (cell_4 s).2 !! "trainloader" = globals s !! "trainloader" /\
      since s (cell_4 s).2 = [ERaise le]
  end /\
  heap (cell_4 s).2 = heap s /\ next (cell_4 s).2 = next s /\
  rng (cell_4 s).2 = rng s /\
  stdout (cell_4 s).2
  = stdout s ++
    ((fun line => [Str line])
       <$> mnist_log "~/.pytorch/MNIST_data/" true true
             [ToTensor; Normalize [1 # 2] [1 # 2]]).
Proof.
  pose proof (cell_4_run s) as H. unfold wp in H.
  destruct (cell_4 s) as [[e|[]] s']; cbn [fst snd].
  - destruct H as (le & [Hm|(ds & Hm & Hl & Hds)] & -> & Hc & Hg & Hh & Hn & Hr & Ho);
      rewrite Hm, ?Hl; rewrite (since_app _ _ _ Hc); by split_and!.
  - destruct H as (ds & -> & -> & ->). st_simpl.
    rewrite since_app with (evs := [ENewLoader {| dl_dataset := ds; batch_size := 64;
                                                  shuffle := true |}]) by done.
    split_and!; try done; try by map_simpl.
    repeat (constructor; [eexists; by map_simpl|]). constructor.
Qed.

End Needs.

Section Needs2.
Context {F : Framework} {X : Indexing F}.

Lemma cell_37_without_optim s n :
  globals s !! "nn" = Some (VModule n) ->
  globals s !! "optim" = None ->
  wp cell_37 (fun _ _ => False)
     (fun e s' =>
        e = NameError "optim" /\
        globals s' !! "model" = Some (VModel (model_37 s)) /\
        globals s' !! "criterion" = Some (VCriterion NLLLoss) /\
        globals s' !! "optimizer" = globals s !! "optimizer" /\
        stdout s' = stdout s /\
        calls s' = calls s ++ take 4 (construction_37 s)) s.
Proof.
  intros Hnn Hno. unfold cell_37.
  repeat run_step.
  destruct (linear_reset 784 128 (rng s)) as [[w1 b1] g1].
  repeat run_step.
  destruct (linear_reset 128 64 g1) as [[w2 b2] g2].
  repeat run_step.
  destruct (linear_reset 64 10 g2) as [[w3 b3] g3].
  repeat run_step.
  eapply wp_fail; [apply use_missing; st_simpl; by map_simpl|].
  st_simpl. split_and!; try done; try by map_simpl.
  unfold construction_37. cbn [take]. by rewrite <- !app_assoc.
Qed.

(** X2.  The training cell uses [optim], which it does not import: cell 31
    does.  In a kernel where [nn] is imported and [optim] is not, cell 37
    ends with [NameError: name 'optim' is not defined]; by then it has built
    a new model and bound [model] and [criterion] to it and to the new
    criterion, while [optimizer] is whatever it was before; nothing has been
    trained or printed. *)
Theorem training_needs_the_import_of_cell_31 (s : state) (n : string) :
  globals s !! "nn" = Some (VModule n) ->
  globals s !! "optim" = None ->
  (cell_37 s).1 = inl (NameError "optim") /\
  globals (cell_37 s).2 !! "model" = Some (VModel (model_37 s)) /\
  globals (cell_37 s).2 !! "criterion" = Some (VCriterion NLLLoss) /\
  globals (cell_37 s).2 !! "optimizer" = globals s !! "optimizer" /\
  stdout (cell_37 s).2 = stdout s /\
  since s (cell_37 s).2 = take 4 (construction_37 s).
Proof.
  intros Hnn Hno. pose proof (cell_37_without_optim s n Hnn Hno) as H.
  unfold wp in H. destruct (cell_37 s) as [[e|[]] s']; [|done].
  destruct H as (-> & Hm & Hc & Ho & Hout & Hcalls). cbn [fst snd].
  split_and!; try done. by apply since_app.
Qed.

End Needs2.

(** ** A loader without batches *)

Section EmptyLoader.
Context {F : Framework} {X : Indexing F}.

Lemma train_batch_keeps_loader ld out b s :
  globals s !! "trainloader" = Some (VLoader ld) -> stdout s = out ->
  wp (train_batch b)
     (fun _ s' => globals s' !! "trainloader" = Some (VLoader ld) /\ stdout s' = out)
     (fun _ s' => stdout s' = out) s.
Proof.
  intros Hld Hout. unfold train_batch, forward_backward, step_and_log.
  wp_steps ltac:(done).
  all: split; [by map_simpl|done].
Qed.

Lemma train_epoch_length_zero ld e s :
  globals s !! "trainloader" = Some (VLoader ld) -> loader_len ld = 0 ->
  wp (train_epoch e) (fun _ _ => False) (fun _ s' => stdout s' = stdout s) s.
Proof.
  intros Hld Hlen. unfold train_epoch. wp_steps ltac:(done).
  eapply wp_mono;
    [apply (wp_for_each
              (fun _ s' => globals s' !! "trainloader" = Some (VLoader ld) /\
                           stdout s' = stdout s) _ _
              (fun _ s' => globals s' !! "trainloader" = Some (VLoader ld) /\
                           stdout s' = stdout s))
    | | ].
  - st_simpl. split; [by map_simpl|done].
  - intros done x rest s1 _ [Hl1 Ho1]. by apply train_batch_keeps_loader.
  - intros s2 H2. exact H2.
  - intros [] s2 [Hl2 Ho2]. cbn beta. unfold print_training_loss.
    apply wp_bind, wp_load; [|by intros].
    intros v Hv. apply wp_bind. eapply wp_ok; [by apply load_loader_ok|].
    rewrite Hlen. unfold py_truediv. destruct (decide _) as [_|?]; [|done].
    apply wp_bind, wp_raise. done.
  - done.
Qed.

Lemma cell_37_length_zero ld s :
  globals s !! "trainloader" = Some (VLoader ld) -> loader_len ld = 0 ->
  wp cell_37 (fun _ _ => False) (fun _ s' => stdout s' = stdout s) s.
Proof.
  intros Hld Hlen. unfold cell_37. wp_steps ltac:(done).
  change (range 10) with (0%Z :: (Z.of_nat <$> seq 1 9)).
  cbn [for_each]. apply wp_bind.
  eapply wp_mono; [apply (train_epoch_length_zero ld); [st_simpl; by map_simpl|done]| |].
  - by intros.
  - intros e s' Hs'. st_simpl. done.
Qed.

Lemma cell_37_no_batches ld s n n' :
  globals s !! "nn" = Some (VModule n) ->
  globals s !! "optim" = Some (VModule n') ->
  globals s !! "trainloader" = Some (VLoader ld) ->
  loader_len ld = 0 -> yields_nothing ld ->
  wp cell_37 (fun _ _ => False)
     (fun e s' => e = ZeroDivisionError /\
                  calls s' = calls s ++ construction_37 s ++ [EIter ld 0]) s.
Proof.
  intros Hnn Hop Hld Hlen Hy. unfold cell_37.
  repeat run_step.
  destruct (linear_reset 784 128 (rng s)) as [[w1 b1] g1].
  repeat run_step.
  destruct (linear_reset 128 64 g1) as [[w2 b2] g2].
  repeat run_step.
  destruct (linear_reset 64 10 g2) as [[w3 b3] g3].
  repeat run_step.
  change (range 10) with (0%Z :: (Z.of_nat <$> seq 1 9)).
  cbn [for_each]. repeat run_step.
  pose proof (Hy g3) as Hg3.
  destruct (fetch_batches _ _ _ g3) as [bs g4]. cbn [fst] in Hg3. subst bs.
  repeat run_step. cbn [for_each length]. repeat run_step.
  rewrite Hlen. unfold py_truediv. destruct (decide _) as [_|?]; [|done].
  repeat (apply wp_bind). apply wp_raise. st_simpl. split; [done|].
  unfold construction_37. by rewrite <- !app_assoc.
Qed.

(** X3.  With a loader of length zero the training cell cannot end normally and
    prints nothing: the line that would print the average of the first
    epoch divides by [len(trainloader)].  When the loader also yields no
    batch, as for an empty dataset, and [nn] and [optim] are imported, the
    cell ends with [ZeroDivisionError] right after the first pass has
    started, having built the model and the optimizer and trained
    nothing. *)
Theorem training_divides_by_the_length_of_the_loader (ld : DataLoader) (s : state) :
  globals s !! "trainloader" = Some (VLoader ld) ->
  loader_len ld = 0 ->
  (cell_37 s).1 <> inr tt /\
  stdout (cell_37 s).2 = stdout s /\
  (forall n n',
     globals s !! "nn" = Some (VModule n) ->
     globals s !! "optim" = Some (VModule n') ->
     yields_nothing ld ->
     (cell_37 s).1 = inl ZeroDivisionError /\
     since s (cell_37 s).2 = construction_37 s ++ [EIter ld 0]).
Proof.
  intros Hld Hlen.
  pose proof (cell_37_length_zero ld s Hld Hlen) as H. unfold wp in H.
  split_and!.
  - by destruct (cell_37 s) as [[e|[]] s'].
  - by destruct (cell_37 s) as [[e|[]] s'].
  - intros n n' Hnn Hop Hy.
    pose proof (cell_37_no_batches ld s n n' Hnn Hop Hld Hlen Hy) as H'.
    unfold wp in H'. destruct (cell_37 s) as [[e|[]] s']; [|done].
    destruct H' as [-> Hc]. split; [done|]. by apply since_app.
Qed.

End EmptyLoader.

Section NoBatch.
Context {F : Framework} {X : Indexing F}.

Lemma stops_intro (cell : M unit) s :
  wp cell (fun _ _ => False)
     (fun e s' => e = StopIteration /\
                  (exists evs, calls s' = calls s ++ evs /\ phases evs = []) /\
                  stdout s' = stdout s) s ->
  (cell s).1 = inl StopIteration /\
  phases (since s (cell s).2) = [] /\
  stdout (cell s).2 = stdout s.
Proof.
  unfold wp. destruct (cell s) as [[e|[]] s']; [|done].
  intros (-> & (evs & Hc & Hp) & Ho). cbn [fst snd].
  by rewrite (since_app _ _ _ Hc).
Qed.

Ltac stop_iteration Hy :=
  lazymatch goal with
  | |- context [fetch_batches ?d ?b ?sh ?g] =>
      let Hg := fresh "Hg" in
      pose proof (Hy g) as Hg;
      destruct (fetch_batches d b sh g) as [? ?]; cbn [fst] in Hg; subst;
      repeat run_step; try (apply wp_bind, wp_raise); st_simpl;
      split_and!; [done| |done];
      eexists; split; [trace_eq|reflexivity]
  end.

Ltac build_model s :=
  repeat run_step;
  destruct (linear_reset 784 128 (rng s)) as [[? ?] ?];
  repeat run_step;
  lazymatch goal with |- context [linear_reset 128 64 ?g] =>
    destruct (linear_reset 128 64 g) as [[? ?] ?] end;
  repeat run_step;
  lazymatch goal with |- context [linear_reset 64 10 ?g] =>
    destruct (linear_reset 64 10 g) as [[? ?] ?] end;
  repeat run_step.

(** X4.  Each cell that takes [next(iter(trainloader))] ends with
    [StopIteration] when the loader yields no batch: the cells 30, 9 and 15
    after they have built their model, cell 60 at once.  No forward pass
    has been made by then and nothing is printed. *)
Theorem forward_cells_need_a_batch (ld : DataLoader) (s : state) (n : string)
    (cell : M unit) :
  globals s !! "nn" = Some (VModule n) ->
  globals s !! "trainloader" = Some (VLoader ld) ->
  yields_nothing ld ->
  cell ∈ [cell_30; cell_9; cell_15; cell_60] ->
  (cell s).1 = inl StopIteration /\
  phases (since s (cell s).2) = [] /\
  stdout (cell s).2 = stdout s.
Proof.
  intros Hnn Hld Hy Hcell. apply stops_intro.
  repeat (apply elem_of_cons in Hcell as [->|Hcell]);
    [| | | |by apply elem_of_nil in Hcell].
  - unfold cell_30. build_model s. stop_iteration Hy.
  - unfold cell_9. build_model s. stop_iteration Hy.
  - unfold cell_15. build_model s. stop_iteration Hy.
  - unfold cell_60. repeat run_step. stop_iteration Hy.
Qed.

End NoBatch.

(** ** Which cells change the weights *)

Section Weights.
Context {F : Framework} {X : Indexing F}.

Lemma data_kept_refl n (h : gmap loc Param) : data_kept n h h.
Proof. intros l p _ Hp. by exists p. Qed.

Lemma data_kept_insert n (h h' : gmap loc Param) l q :
  n <= l -> data_kept n h h' -> data_kept n h (<[l:=q]> h').
Proof.
  intros Hl H l' p Hl' Hp. destruct (H l' p Hl' Hp) as (p' & Hp' & Hd).
  exists p'. split; [|done]. rewrite lookup_insert_ne by lia. done.
Qed.

Lemma data_iter (f : Param -> Param) k p :
  (forall q, data (f q) = data q) -> data (Nat.iter k f p) = data p.
Proof. intros Hf. induction k as [|k IH]; [done|]. simpl. by rewrite Hf. Qed.

Lemma data_kept_alter n (f : Param -> Param) (h h' : gmap loc Param) ls :
  (forall q, data (f q) = data q) ->
  data_kept n h h' -> data_kept n h (foldr (alter f) h' ls).
Proof.
  intros Hf H l p Hl Hp. destruct (H l p Hl Hp) as (p' & Hp' & Hd).
  destruct (foldr_alter_lookup f h' ls l) as (k & E & _).
  rewrite E, Hp'. eexists. split; [reflexivity|]. by rewrite data_iter.
Qed.

Lemma foldr_alter_lookup_ne {A} (f : A -> A) (h : gmap nat A) (ls : list nat) (l : nat) :
  l ∉ ls -> foldr (alter f) h ls !! l = h !! l.
Proof.
  induction ls as [|a ls IH]; [done|]. intros Hl. simpl.
  apply not_elem_of_cons in Hl as [Hne Hl].
  rewrite lookup_alter_ne by done. by apply IH.
Qed.

Lemma data_kept_alter_fresh n (f : Param -> Param) (h h' : gmap loc Param) ls :
  Forall (fun l => n <= l) ls ->
  data_kept n h h' -> data_kept n h (foldr (alter f) h' ls).
Proof.
  intros Hls H l p Hl Hp. destruct (H l p Hl Hp) as (p' & Hp' & Hd).
  exists p'. split; [|done]. rewrite foldr_alter_lookup_ne; [done|].
  intros Hin. rewrite Forall_forall in Hls. apply Hls in Hin. lia.
Qed.

Lemma data_kept_backward n gs (h h' : gmap loc Param) :
  data_kept n h h' -> data_kept n h (backward_into gs h').
Proof.
  intros H l p Hl Hp. destruct (H l p Hl Hp) as (p' & Hp' & Hd).
  unfold backward_into. rewrite map_lookup_imap, Hp'. simpl.
  eexists. split; [reflexivity|]. by destruct (gs !! l).
Qed.

Lemma zero_param_data (p : Param) : data (zero_param p) = data p.
Proof. done. Qed.

End Weights.

Ltac data_tac :=
  unfold keeps_data in *; st_simpl;
  repeat first
    [ assumption
    | apply data_kept_refl
    | apply data_kept_insert; [lia|]
    | apply data_kept_alter; [exact zero_param_data|]
    | apply data_kept_backward
    | (apply data_kept_alter_fresh; [eassumption|]) ].

Section Weights2.
Context {F : Framework} {X : Indexing F}.

Lemma straight_cells_keep_data (cell : M unit) s :
  cell ∈ [cell_4; cell_30; cell_9; cell_15; cell_16; cell_31; cell_32; cell_60] ->
  wp cell (fun _ s' => keeps_data s s') (fun _ s' => keeps_data s s') s.
Proof.
  intros Hcell.
  repeat (apply elem_of_cons in Hcell as [->|Hcell]);
    [| | | | | | | |by apply elem_of_nil in Hcell].
  - unfold cell_4. wp_steps ltac:(data_tac). all: data_tac.
  - unfold cell_30. wp_steps ltac:(data_tac). all: data_tac.
  - unfold cell_9. wp_steps ltac:(data_tac). all: data_tac.
  - unfold cell_15. wp_steps ltac:(data_tac). all: data_tac.
  - unfold cell_16, first_weight. wp_steps ltac:(data_tac). all: data_tac.
  - unfold cell_31. wp_steps ltac:(data_tac). all: data_tac.
  - unfold cell_32, first_weight. wp_steps ltac:(data_tac). all: data_tac.
  - unfold cell_60. wp_steps ltac:(data_tac). all: data_tac.
Qed.

End Weights2.

Section Weights3.
Context {F : Framework} {X : Indexing F}.

Lemma train_batch_keeps_data n h o b s :
  Forall (fun l => n <= l) (param_group o) ->
  globals s !! "optimizer" = Some (VOptimizer o) ->
  data_kept n h (heap s) ->
  wp (train_batch b)
     (fun _ s' => globals s' !! "optimizer" = Some (VOptimizer o) /\
                  data_kept n h (heap s'))
     (fun _ s' => data_kept n h (heap s')) s.
Proof.
  intros Ho Hb Hk. unfold train_batch, forward_backward, step_and_log.
  wp_steps ltac:(data_tac).
  all: split; [by map_simpl|data_tac].
Qed.

Lemma train_epoch_keeps_data n h o e s :
  Forall (fun l => n <= l) (param_group o) ->
  globals s !! "optimizer" = Some (VOptimizer o) ->
  data_kept n h (heap s) ->
  wp (train_epoch e)
     (fun _ s' => globals s' !! "optimizer" = Some (VOptimizer o) /\
                  data_kept n h (heap s'))
     (fun _ s' => data_kept n h (heap s')) s.
Proof.
  intros Ho Hb Hk. unfold train_epoch. wp_steps ltac:(data_tac).
  eapply wp_mono;
    [apply (wp_for_each
              (fun _ s' => globals s' !! "optimizer" = Some (VOptimizer o) /\
                           data_kept n h (heap s')) _ _
              (fun _ s' => globals s' !! "optimizer" = Some (VOptimizer o) /\
                           data_kept n h (heap s')))
    | | ].
  - st_simpl. split; [by map_simpl|done].
  - intros done x rest s1 _ [Hb1 Hk1]. by apply train_batch_keeps_data.
  - intros s2 H2. exact H2.
  - intros [] s2 [Hb2 Hk2]. cbn beta. unfold print_training_loss.
    wp_steps ltac:(data_tac). all: split; [by map_simpl|data_tac].
  - intros ex s2 Hs2. exact Hs2.
Qed.

Lemma cell_37_keeps_data s :
  wp cell_37 (fun _ s' => keeps_data s s') (fun _ s' => keeps_data s s') s.
Proof.
  unfold cell_37. wp_steps ltac:(data_tac).
  eapply wp_mono;
    [apply (wp_for_each
              (fun _ s' => globals s' !! "optimizer"
                           = Some (VOptimizer (optimizer_37 s)) /\
                           data_kept (next s) (heap s) (heap s')) _ _
              (fun _ s' => keeps_data s s'))
    | | ].
  - st_simpl. split; [by map_simpl|data_tac].
  - intros done x rest s1 _ [Hb1 Hk1].
    apply (train_epoch_keeps_data _ _ (optimizer_37 s)); [|done|done].
    unfold optimizer_37, parameters, model_37. cbn.
    repeat (constructor; [lia|]). constructor.
  - intros s2 [_ H2]. exact H2.
  - intros [] s2 H2. exact H2.
  - intros ex s2 H2. exact H2.
Qed.

(** X5.  No cell but cell 33 changes the weights of a parameter that exists
    when the cell starts.  The cells 4, 30, 9, 15, 16, 31, 32 and 60 leave
    the data of every existing parameter as it is, and so does the training
    cell 37, which updates only the parameters of the model it builds;
    whether the cell ends normally or raises. *)
Theorem existing_weights_are_kept (cell : M unit) (s : state) :
  cell ∈ [cell_4; cell_30; cell_9; cell_15; cell_16; cell_31; cell_32; cell_37;
          cell_60] ->
  forall l p, l < next s -> heap s !! l = Some p ->
    exists p', heap (cell s).2 !! l = Some p' /\ data p' = data p.
Proof.
  intros Hcell.
  assert (wp cell (fun _ s' => keeps_data s s') (fun _ s' => keeps_data s s') s) as H.
  { repeat (apply elem_of_cons in Hcell as [->|Hcell]);
      [| | | | | | | | |by apply elem_of_nil in Hcell];
      first [ apply cell_37_keeps_data
            | apply straight_cells_keep_data;
              repeat first [ apply list_elem_of_here | apply list_elem_of_further ] ]. }
  unfold wp in H. by destruct (cell s) as [[e|[]] s'].
Qed.

Lemma cell_33_run o s :
  globals s !! "optimizer" = Some (VOptimizer o) ->
  wp cell_33
     (fun _ s' => heap s' = foldr (alter (sgd_param (lr o))) (heap s) (param_group o))
     (fun _ s' => heap s' = foldr (alter (sgd_param (lr o))) (heap s) (param_group o)) s.
Proof.
  intros Ho. unfold cell_33, first_weight. repeat run_step.
  wp_steps ltac:(done). all: done.
Qed.

Lemma sgd_param_grad rate (p : Param) : grad (sgd_param rate p) = grad p.
Proof. by destruct p as [d [g|]]. Qed.

Lemma sgd_param_no_grad rate (p : Param) : grad p = None -> sgd_param rate p = p.
Proof. unfold sgd_param. by intros ->. Qed.

Lemma iter_grad (f : Param -> Param) k p :
  (forall q, grad (f q) = grad q) -> grad (Nat.iter k f p) = grad p.
Proof. intros Hf. induction k as [|k IH]; [done|]. simpl. by rewrite Hf. Qed.

Lemma iter_fixed (f : Param -> Param) k p : f p = p -> Nat.iter k f p = p.
Proof. intros Hf. induction k as [|k IH]; [done|]. simpl. by rewrite IH. Qed.

(** X6.  Cell 33 changes nothing but the data of parameters of the optimizer
    that have a gradient: a parameter that the optimizer bound to
    [optimizer] does not hold, and a parameter without gradient, is after
    the cell what it was before; and [optimizer.step()] leaves every
    gradient in place, so that a later backward pass adds to it unless the
    gradients are reset first. *)
Theorem step_updates_only_its_parameters (o : SGD) (s : state) :
  globals s !! "optimizer" = Some (VOptimizer o) ->
  (forall l, l ∉ param_group o -> heap (cell_33 s).2 !! l = heap s !! l) /\
  (forall l p, heap s !! l = Some p -> grad p = None ->
     heap (cell_33 s).2 !! l = Some p) /\
  (forall l p, heap s !! l = Some p ->
     exists p', heap (cell_33 s).2 !! l = Some p' /\ grad p' = grad p).
Proof.
  intros Ho. pose proof (cell_33_run o s Ho) as H. unfold wp in H.
  assert (heap (cell_33 s).2
          = foldr (alter (sgd_param (lr o))) (heap s) (param_group o)) as ->.
  { by destruct (cell_33 s) as [[e|[]] s']. }
  split_and!.
  - intros l Hl. by apply foldr_alter_lookup_ne.
  - intros l p Hp Hg.
    destruct (foldr_alter_lookup (sgd_param (lr o)) (heap s) (param_group o) l)
      as (k & -> & _).
    rewrite Hp. simpl. f_equal. apply iter_fixed. by apply sgd_param_no_grad.
  - intros l p Hp.
    destruct (foldr_alter_lookup (sgd_param (lr o)) (heap s) (param_group o) l)
      as (k & -> & _).
    rewrite Hp. eexists. split; [reflexivity|].
    apply iter_grad. intros q. apply sgd_param_grad.
Qed.

End Weights3.

(** ** The training step made by hand *)

Ltac phase_list :=
  rewrite ?phases_app;
  repeat match goal with
         | H : Forall layer_event ?evs |- _ => rewrite (phases_layer_events evs H)
         end;
  simpl; try reflexivity; try (by eexists).

Section ManualStep.
Context {F : Framework} {X : Indexing F}.

Lemma manual_step_phases s :
  wp (cell_32;; cell_33)
     (fun _ s' => exists evs, calls s' = calls s ++ evs /\ phases evs = training_order)
     (fun _ s' => exists evs, calls s' = calls s ++ evs /\
                              phases evs `prefix_of` training_order) s.
Proof.
  unfold cell_32, cell_33, first_weight.
  wp_steps ltac:(trace_split; phase_list).
  all: trace_split; phase_list.
Qed.

(** X7.  Cell 32 followed by cell 33 is one iteration of the training loop of
    cell 37 made by hand: together they call the framework in the order
    gradient reset, forward pass, loss, backward pass, parameter step; when
    one of them raises, a prefix of that sequence has been performed. *)
Theorem manual_step_follows_the_training_order (s : state) :
  exists evs,
    calls ((cell_32;; cell_33) s).2 = calls s ++ evs /\
    match ((cell_32;; cell_33) s).1 with
    | inr _ => phases evs = [GradientReset; Forward; Loss; Backward; ParameterStep]
    | inl _ => phases evs `prefix_of`
                 [GradientReset; Forward; Loss; Backward; ParameterStep]
    end.
Proof.
  pose proof (manual_step_phases s) as H. unfold wp in H.
  by destruct ((cell_32;; cell_33) s) as [[e|[]] s'].
Qed.

End ManualStep.

(** ** A gradient before and after the backward pass *)

Ltac fresh_lookup :=
  st_simpl;
  repeat first [ rewrite lookup_insert_eq | rewrite lookup_insert_ne by lia ];
  first [ reflexivity | eassumption | by eexists ].

Ltac fwd :=
  repeat first
    [ run_step
    | lazymatch goal with
      | |- wp (lib (inr _)) _ _ _ => apply wp_lib; cbn beta iota
      end
    | progress cbn [model_15 model_37 layers lookup list_lookup] ].

Section FirstGradient.
Context {F : Framework} {X : Indexing F}.

Lemma cell_15_builds s :
  wp cell_15
     (fun _ s1 => fresh_model s s1 /\
                  exists loss, globals s1 !! "loss" = Some (VTensor loss))
     (fun _ _ => True) s.
Proof.
  unfold cell_15. wp_steps ltac:(done).
  all: split; [|eexists; by map_simpl].
  all: unfold fresh_model, model_15, model_37, parameters; st_simpl; cbn [map concat layer_parameters layers app].
  all: split_and!; try (by map_simpl); try done.
  all: try (intros l' Hl'; fresh_lookup).
  all: intros l' Hl'; repeat (apply elem_of_cons in Hl' as [->|Hl']);
    [..|by apply elem_of_nil in Hl']; eexists; (split; [fresh_lookup|done]).
Qed.

Lemma backward_into_lookup_some gs (h : gmap loc Param) l p :
  h !! l = Some p ->
  backward_into gs h !! l
  = Some (match gs !! l with Some g => accumulate g p | None => p end).
Proof. intros Hp. unfold backward_into. by rewrite map_lookup_imap, Hp. Qed.

Lemma cell_16_after s s1 loss :
  fresh_model s s1 ->
  globals s1 !! "loss" = Some (VTensor loss) ->
  wp cell_16
     (fun _ s' => exists gs,
        autograd loss = inr gs /\
        stdout s' = stdout s1 ++
                    [[Str "Before backward pass: \n"; Str "None"];
                     [Str "After backward pass: \n"; show_grad (gs !! next s)]] /\
        heap s' = backward_into gs (heap s1))
     (fun e s' => exists le,
        autograd loss = inl le /\ e = LibError le /\
        stdout s' = stdout s1 ++ [[Str "Before backward pass: \n"; Str "None"]] /\
        heap s' = heap s1) s1.
Proof.
  intros (Hm & Hc & Hn & Hps & Hold) Hloss.
  destruct (Hps (next s)) as (p0 & Hp0 & Hg0).
  { unfold model_15, model_37, parameters. cbn. apply list_elem_of_here. }
  assert (forall gs : gmap loc tensor, grad (match gs !! next s with
                            | Some g => accumulate g p0
                            | None => p0
                            end) = gs !! next s) as Hgrad.
  { intros gs. destruct (gs !! next s); simpl; [by rewrite Hg0|done]. }
  unfold cell_16, first_weight, model_getitem, layer_weight. fwd.
  apply wp_lib. destruct (autograd loss) as [le|gs] eqn:E; st_simpl.
  - exists le. rewrite Hg0. by split_and!.
  - fwd.
    eapply wp_ok;
      [apply deref_ok; st_simpl; apply (backward_into_lookup_some _ _ _ _ Hp0)|].
    fwd. exists gs. rewrite Hg0, Hgrad, <- app_assoc. by split_and!.
Qed.

(** X8.  After cell 15 has ended normally, the six parameters of the new model
    have no gradient, and cell 16 first prints [None] for the gradient of
    the first weight.  If the backward pass then raises, cell 16 ends with
    that exception and the parameters are what they were; otherwise it ends
    normally, every parameter of the model holds exactly the gradient that
    the backward pass computed for it, or still none if the pass computed
    none for it, and the second line printed shows that of the first
    weight. *)
Theorem gradient_appears_with_the_backward_pass (s s1 : state) :
  cell_15 s = (inr tt, s1) ->
  exists loss,
    globals s1 !! "loss" = Some (VTensor loss) /\
    (forall l, l ∈ parameters (model_15 s) ->
       exists p, heap s1 !! l = Some p /\ grad p = None) /\
    match autograd loss with
    | inr gs =>
        (cell_16 s1).1 = inr tt /\
        stdout (cell_16 s1).2
        = stdout s1 ++ [[Str "Before backward pass: \n"; Str "None"];
                        [Str "After backward pass: \n"; show_grad (gs !! next s)]] /\
        (forall l, l ∈ parameters (model_15 s) ->
           exists p, heap (cell_16 s1).2 !! l = Some p /\ grad p = gs !! l)
    | inl le =>
        (cell_16 s1).1 = inl (LibError le) /\
        stdout (cell_16 s1).2
        = stdout s1 ++ [[Str "Before backward pass: \n"; Str "None"]] /\
        heap (cell_16 s1).2 = heap s1
    end.
Proof.
  intros Hrun. pose proof (cell_15_builds s) as H15. unfold wp in H15.
  rewrite Hrun in H15. destruct H15 as (Hfresh & loss & Hloss).
  exists loss. split; [done|].
  assert (Hps := Hfresh). destruct Hps as (_ & _ & _ & Hps & _).
  split; [done|].
  pose proof (cell_16_after s s1 loss Hfresh Hloss) as H16. unfold wp in H16.
  destruct (cell_16 s1) as [[e|[]] s2]; cbn [fst snd].
  - destruct H16 as (le & -> & -> & Hout & Hh). by split_and!.
  - destruct H16 as (gs & -> & Hout & Hh). split_and!; try done.
    intros l Hl. destruct (Hps l Hl) as (p & Hp & Hg).
    rewrite Hh, (backward_into_lookup_some _ _ _ _ Hp).
    eexists. split; [reflexivity|]. destruct (gs !! l); simpl; [by rewrite Hg|done].
Qed.

End FirstGradient.

(** ** The optimizer and the model it was made for *)

Section Optimizer.
Context {F : Framework} {X : Indexing F}.

Lemma foldr_alter_lookup_once {A} (f : A -> A) (h : gmap nat A) (ls : list nat) (l : nat) :
  NoDup ls -> l ∈ ls -> foldr (alter f) h ls !! l = f <$> h !! l.
Proof.
  induction 1 as [|a ls Ha Hnd IH]; [by intros ?%elem_of_nil|].
  intros [->|Hl]%elem_of_cons; simpl.
  - by rewrite lookup_alter_eq, foldr_alter_lookup_ne.
  - rewrite lookup_alter_ne; [by apply IH|]. intros ->. done.
Qed.

Lemma parameters_model_15 s :
  parameters (model_15 s)
  = [next s; 1 + next s; 2 + next s; 3 + next s; 4 + next s; 5 + next s].
Proof. reflexivity. Qed.

Lemma parameters_distinct s : NoDup (parameters (model_15 s)).
Proof.
  rewrite parameters_model_15.
  repeat (apply NoDup_cons; split;
          [intros H; repeat (apply elem_of_cons in H as [H|H]; [lia|]);
           by apply elem_of_nil in H|]).
  apply NoDup_nil_2.
Qed.

Lemma parameters_fresh s l :
  l ∈ parameters (model_15 s) -> next s <= l /\ l < 6 + next s.
Proof.
  rewrite parameters_model_15. intros H.
  repeat (apply elem_of_cons in H as [->|H]; [lia|]). by apply elem_of_nil in H.
Qed.

Lemma cell_31_run m s :
  globals s !! "model" = Some (VModel m) ->
  cell_31 s
  = (inr tt,
     set_calls (calls s ++ [ENewSGD {| param_group := parameters m;
                                       lr := float_lit (1 # 100) |}])
       (set_globals
          (<["optimizer" := VOptimizer {| param_group := parameters m;
                                          lr := float_lit (1 # 100) |}]>
             (<["optim" := VModule "torch.optim"]> (globals s))) s)).
Proof.
  intros Hm.
  assert (wp cell_31
            (fun a s' => s' = set_calls (calls s ++ [ENewSGD {| param_group := parameters m;
                                       lr := float_lit (1 # 100) |}])
       (set_globals
          (<["optimizer" := VOptimizer {| param_group := parameters m;
                                          lr := float_lit (1 # 100) |}]>
             (<["optim" := VModule "torch.optim"]> (globals s))) s))
            (fun _ _ => False) s) as H.
  { unfold cell_31. repeat run_step. reflexivity. }
  unfold wp in H. destruct (cell_31 s) as [[e|[]] s']; [done|]. by subst.
Qed.

(** The heap after cell 32 and cell 33 have both ended normally. *)
Lemma manual_step_heap o s :
  globals s !! "optimizer" = Some (VOptimizer o) ->
  wp (cell_32;; cell_33)
     (fun _ s' => exists loss gs,
        globals s' !! "loss" = Some (VTensor loss) /\
        autograd loss = inr gs /\
        heap s' = foldr (alter (sgd_param (lr o)))
                    (backward_into gs (foldr (alter zero_param) (heap s) (param_group o)))
                    (param_group o))
     (fun _ _ => True) s.
Proof.
  intros Ho. unfold cell_32, cell_33, first_weight.
  wp_steps ltac:(done).
  all: eexists _, _; split_and!; [by map_simpl|eassumption|reflexivity].
Qed.

End Optimizer.

Section Optimizer2.
Context {F : Framework} {X : Indexing F}.

Lemma fresh_parameter_step rate gs (h : gmap loc Param) ls l p :
  NoDup ls -> l ∈ ls -> h !! l = Some p -> grad p = None ->
  foldr (alter (sgd_param rate)) (backward_into gs (foldr (alter zero_param) h ls)) ls !! l
  = Some {| data := match gs !! l with
                    | Some g => sgd_update rate (data p) g
                    | None => data p
                    end;
            grad := gs !! l |}.
Proof.
  intros Hnd Hl Hp Hg.
  rewrite foldr_alter_lookup_once by done.
  assert (foldr (alter zero_param) h ls !! l = Some p) as Hz.
  { rewrite foldr_alter_lookup_once, Hp by done. simpl. f_equal.
    destruct p as [d g]. simpl in Hg. by subst g. }
  rewrite (backward_into_lookup_some _ _ _ _ Hz). simpl. f_equal.
  destruct p as [d g]. simpl in Hg. subst g.
  by destruct (gs !! l).
Qed.

(** X9.  One training step made by hand on a new model.  When cell 15, cell 31
    and then cells 32 and 33 have ended normally, every parameter of the
    model that cell 15 built which the loss reaches has been moved once, by
    the update of SGD with the learning rate 0.01 from the data cell 15 gave
    it, along the gradient that the backward pass of cell 32 computed; it
    holds exactly that gradient.  A parameter that the loss does not reach
    has its data unchanged and no gradient. *)
Theorem manual_step_on_a_new_model (s s1 s2 s4 : state) :
  cell_15 s = (inr tt, s1) ->
  cell_31 s1 = (inr tt, s2) ->
  (cell_32;; cell_33) s2 = (inr tt, s4) ->
  exists loss gs,
    globals s4 !! "loss" = Some (VTensor loss) /\
    autograd loss = inr gs /\
    forall l, l ∈ parameters (model_15 s) ->
      exists p,
        heap s1 !! l = Some p /\
        heap s4 !! l
        = Some {| data := match gs !! l with
                          | Some g => sgd_update (float_lit (1 # 100)) (data p) g
                          | None => data p
                          end;
                  grad := gs !! l |}.
Proof.
  intros H15 H31 H3233.
  pose proof (cell_15_builds s) as B. unfold wp in B. rewrite H15 in B.
  destruct B as ((Hm & Hc & Hn & Hps & Hold) & _).
  rewrite (cell_31_run _ _ Hm) in H31. injection H31 as <-.
  pose proof (manual_step_heap {| param_group := parameters (model_15 s);
                                  lr := float_lit (1 # 100) |}
                (set_calls (calls s1 ++ [ENewSGD {| param_group := parameters (model_15 s);
                                       lr := float_lit (1 # 100) |}])
       (set_globals
          (<["optimizer" := VOptimizer {| param_group := parameters (model_15 s);
                                          lr := float_lit (1 # 100) |}]>
             (<["optim" := VModule "torch.optim"]> (globals s1))) s1))) as S.
  unfold wp in S. rewrite H3233 in S.
  destruct S as (loss & gs & Hloss & Hgs & Hheap); [st_simpl; by map_simpl|].
  exists loss, gs. split_and!; [done|done|].
  intros l Hl. destruct (Hps l Hl) as (p & Hp & Hg). exists p. split; [done|].
  rewrite Hheap. st_simpl.
  by apply fresh_parameter_step; [apply parameters_distinct| | |].
Qed.

Lemma cell_15_keeps_optimizer s :
  wp cell_15 (fun _ s' => globals s' !! "optimizer" = globals s !! "optimizer")
     (fun _ s' => globals s' !! "optimizer" = globals s !! "optimizer") s.
Proof.
  unfold cell_15. wp_steps ltac:(by map_simpl). all: by map_simpl.
Qed.

Lemma cell_32_keeps_optimizer s :
  wp cell_32 (fun _ s' => globals s' !! "optimizer" = globals s !! "optimizer")
     (fun _ s' => globals s' !! "optimizer" = globals s !! "optimizer") s.
Proof.
  unfold cell_32, first_weight. wp_steps ltac:(by map_simpl). all: by map_simpl.
Qed.

Lemma cell_33_keeps_optimizer s :
  wp cell_33 (fun _ s' => globals s' !! "optimizer" = globals s !! "optimizer")
     (fun _ s' => globals s' !! "optimizer" = globals s !! "optimizer") s.
Proof.
  unfold cell_33, first_weight. wp_steps ltac:(by map_simpl). all: by map_simpl.
Qed.

(** X10.  An optimizer does not follow the name [model].  When cell 15 builds a
    new model while [optimizer] is bound to an optimizer over parameters
    that existed before, cells 32 and 33, run after it, train nothing of the
    new model: however the two cells end, the data of each of its parameters
    is what cell 15 gave it, and [optimizer] is still the old optimizer. *)
Theorem optimizer_does_not_follow_the_model (o : SGD) (s s1 : state) :
  globals s !! "optimizer" = Some (VOptimizer o) ->
  Forall (fun l => l < next s) (param_group o) ->
  cell_15 s = (inr tt, s1) ->
  globals s1 !! "model" = Some (VModel (model_15 s)) /\
  globals (run_cells [cell_32; cell_33] s1) !! "optimizer" = Some (VOptimizer o) /\
  forall l, l ∈ parameters (model_15 s) ->
    exists p1 p4,
      heap s1 !! l = Some p1 /\
      heap (run_cells [cell_32; cell_33] s1) !! l = Some p4 /\
      data p4 = data p1.
Proof.
  intros Ho Hold H15.
  pose proof (cell_15_builds s) as B. unfold wp in B. rewrite H15 in B.
  destruct B as ((Hm & Hc & Hn & Hps & _) & _).
  pose proof (cell_15_keeps_optimizer s) as K. unfold wp in K. rewrite H15 in K.
  rewrite Ho in K.
  pose proof (cell_32_keeps_optimizer s1) as K32. unfold wp in K32.
  pose proof (straight_cells_keep_data cell_32 s1) as D32. unfold wp in D32.
  unfold run_cells. cbn [foldl].
  assert (globals (cell_32 s1).2 !! "optimizer" = Some (VOptimizer o)) as Ho3.
  { destruct (cell_32 s1) as [[e|[]] s3]; cbn [snd]; by rewrite K32. }
  assert (keeps_data s1 (cell_32 s1).2) as D3.
  { destruct (cell_32 s1) as [[e|[]] s3]; cbn [snd]; apply D32;
      repeat first [ apply list_elem_of_here | apply list_elem_of_further ]. }
  pose proof (cell_33_run o _ Ho3) as H33. unfold wp in H33.
  assert (heap (cell_33 (cell_32 s1).2).2
          = foldr (alter (sgd_param (lr o))) (heap (cell_32 s1).2) (param_group o)) as Hh.
  { by destruct (cell_33 (cell_32 s1).2) as [[e|[]] s4]. }
  split_and!; [done| |].
  - pose proof (cell_33_keeps_optimizer (cell_32 s1).2) as K33. unfold wp in K33.
    destruct (cell_33 (cell_32 s1).2) as [[e|[]] s4]; cbn [snd]; by rewrite K33.
  - intros l Hl. destruct (Hps l Hl) as (p1 & Hp1 & _).
    pose proof (parameters_fresh _ _ Hl) as [Hlo Hhi].
    destruct (D3 l p1) as (p3 & Hp3 & Hd3); [lia|done|].
    exists p1, p3. split_and!; [done| |done].
    rewrite Hh, foldr_alter_lookup_ne; [done|].
    intros Hin. rewrite Forall_forall in Hold. apply Hold in Hin. lia.
Qed.

End Optimizer2.

(** ** The model and the criterion, over any order of the cells *)

Ltac paired_tac :=
  unfold paired, names in *; st_simpl;
  let m := fresh "m" in
  let Hm := fresh "Hm" in
  let Hc := fresh "Hc" in
  intros m Hm Hc;
  repeat first [ rewrite lookup_insert_eq in Hm | rewrite lookup_insert_ne in Hm by done ];
  repeat first [ rewrite lookup_insert_eq in Hc | rewrite lookup_insert_ne in Hc by done ];
  first [ discriminate Hc
        | (injection Hm as <-; reflexivity)
        | by eauto
        | (destruct_and?; simplify_eq; reflexivity) ].

(** A step that knows an import made earlier in the cell to be there. *)
Ltac known_step err :=
  first
    [ lazymatch goal with
      | |- wp (use _) _ _ _ => eapply wp_ok; [eapply use_ok; lookup_tac|]
      end; st_simpl
    | wp_step err ].

Section Paired.
Context {F : Framework} {X : Indexing F}.

Lemma train_batch_names m c b s :
  names m c s ->
  wp (train_batch b) (fun _ s' => names m c s') (fun _ s' => names m c s') s.
Proof.
  intros [Hm Hc]. unfold train_batch, forward_backward, step_and_log.
  wp_steps ltac:(unfold names; st_simpl; split; by map_simpl).
  all: unfold names; st_simpl; split; by map_simpl.
Qed.

Lemma train_epoch_names m c e s :
  names m c s ->
  wp (train_epoch e) (fun _ s' => names m c s') (fun _ s' => names m c s') s.
Proof.
  intros [Hm Hc]. unfold train_epoch.
  wp_steps ltac:(unfold names; st_simpl; split; by map_simpl).
  eapply wp_mono;
    [apply (wp_for_each (fun _ s' => names m c s') _ _ (fun _ s' => names m c s'))
    | | ].
  - unfold names; st_simpl; split; by map_simpl.
  - intros done x rest s1 _ Hn. by apply train_batch_names.
  - done.
  - intros [] s2 [Hm2 Hc2]. cbn beta. unfold print_training_loss.
    wp_steps ltac:(unfold names; st_simpl; split; by map_simpl).
    all: unfold names; st_simpl; split; by map_simpl.
  - intros ex s2 Hs2. exact Hs2.
Qed.

Lemma names_paired m s :
  last (layers m) = Some (LogSoftmax 1) -> names m NLLLoss s -> paired s.
Proof. intros Hl [Hm Hc] m' Hm' _. by simplify_eq. Qed.

Lemma cell_37_paired s :
  paired s -> wp cell_37 (fun _ s' => paired s') (fun _ s' => paired s') s.
Proof.
  intros Hp. unfold cell_37.
  repeat known_step ltac:(paired_tac).
  eapply wp_mono;
    [apply (wp_for_each (fun _ s' => names (model_37 s) NLLLoss s') _ _
              (fun _ s' => names (model_37 s) NLLLoss s'))
    | | ].
  - unfold names; st_simpl; split; by map_simpl.
  - intros done x rest s1 _ Hn. by apply train_epoch_names.
  - done.
  - intros [] s2 Hn. by apply (names_paired (model_37 s)).
  - intros ex s2 Hn. by apply (names_paired (model_37 s)).
Qed.

Lemma cells_keep_paired (cell : M unit) s :
  cell ∈ notebook_cells -> paired s ->
  wp cell (fun _ s' => paired s') (fun _ s' => paired s') s.
Proof.
  intros Hcell Hp. unfold notebook_cells in Hcell.
  repeat (apply elem_of_cons in Hcell as [->|Hcell]);
    [| | | | | | | | | |by apply elem_of_nil in Hcell].
  - unfold cell_4. repeat known_step ltac:(paired_tac). all: paired_tac.
  - unfold cell_30. repeat known_step ltac:(paired_tac). all: paired_tac.
  - unfold cell_9. repeat known_step ltac:(paired_tac). all: paired_tac.
  - unfold cell_15. repeat known_step ltac:(paired_tac). all: paired_tac.
  - unfold cell_16, first_weight. repeat known_step ltac:(paired_tac). all: paired_tac.
  - unfold cell_31. repeat known_step ltac:(paired_tac). all: paired_tac.
  - unfold cell_32, first_weight. repeat known_step ltac:(paired_tac). all: paired_tac.
  - unfold cell_33, first_weight. repeat known_step ltac:(paired_tac). all: paired_tac.
  - by apply cell_37_paired.
  - unfold cell_60. repeat known_step ltac:(paired_tac). all: paired_tac.
Qed.

(** X11.  Whichever of the cells 4, 30, 9, 15, 16, 31, 32, 33, 37 and 60 are
    run, in whatever order and however often, and whether they end normally or raise, the criterion
    [nn.NLLLoss], which expects log-probabilities, is never bound at the
    same time as a model whose last layer is not [LogSoftmax(dim=1)]: the
    cells that bind a model bind its criterion before anything can raise,
    or, in cell 15, bind the model with the [LogSoftmax] layer first.  This
    holds from a new kernel, where neither name is bound. *)
Theorem model_and_criterion_stay_paired (cells : list (M unit)) (s : state) :
  Forall (fun cell => cell ∈ notebook_cells) cells ->
  paired s ->
  paired (run_cells cells s).
Proof.
  unfold run_cells. revert s. induction cells as [|cell cells IH]; intros s Hall Hp.
  - exact Hp.
  - apply Forall_cons in Hall as [Hcell Hall]. cbn [foldl]. apply IH; [done|].
    pose proof (cells_keep_paired cell s Hcell Hp) as H. unfold wp in H.
    by destruct (cell s) as [[e|[]] s'].
Qed.

End Paired.

(** ** The batch size written into cell 32 *)

Section Resize.
#[local] Existing Instance Shapes.framework.
#[local] Existing Instance shapes_indexing.
Import Shapes.

Lemma sh_resize d l :
  t_resize_ {| dims := d; leaves := l |} [64; 784]%Z
  = inr {| dims := [64; 784]; leaves := l |}.
Proof. reflexivity. Qed.

Lemma sh_class_loss_mismatch (n n' c : nat) l lt :
  n <> n' ->
  class_loss {| dims := [n; c]; leaves := l |} {| dims := [n']; leaves := lt |}
  = inl "expected input batch size to match target batch size"%string.
Proof.
  intros Hn. unfold class_loss. cbn [dims leaves].
  by apply Nat.eqb_neq in Hn as ->.
Qed.

Lemma foldr_alter_id {A} (f : A -> A) (h : gmap nat A) (ls : list nat) :
  (forall l p, l ∈ ls -> h !! l = Some p -> f p = p) ->
  foldr (alter f) h ls = h.
Proof.
  induction ls as [|a ls IH]; [done|]. intros Hf. simpl.
  rewrite IH by (intros l p Hl; apply Hf; by right).
  apply map_eq. intros l. destruct (decide (a = l)) as [->|Hne].
  - rewrite lookup_alter_eq. destruct (h !! l) as [p|] eqn:E; [|done].
    simpl. f_equal. apply (Hf l); [by left|done].
  - by rewrite lookup_alter_ne.
Qed.

Lemma manual_step_shapes d s :
  ready_for_30 d s ->
  wp (cell_15;; cell_31;; cell_32)
     (fun _ _ => 64 <= d)
     (fun e _ => d < 64 /\
                 e = LibError "expected input batch size to match target batch size"%string)
     s.
Proof.
  intros ((nn & Hnn) & Hld & Hd & Hge).
  destruct (first_batch_size d Hd) as [rest Hb].
  assert (0 < d `min` 64) as Hn by lia.
  unfold cell_15.
  repeat (repeat run_step; progress cbn [linear_reset framework]).
  repeat run_step.
  cbn [fetch_batches framework dl_dataset batch_size shuffle loader].
  rewrite Hb. cbn [fmap list_fmap].
  repeat run_step.
  eapply wp_ok; [apply lib_ok, sh_shape0|].
  repeat run_step.
  eapply wp_ok; [apply lib_ok, sh_view_flatten, Hn|]. rewrite ?Hge.
  repeat run_step.
  cbn [layers].
  repeat run_step.
  rewrite ?Hge. eapply wp_ok; [apply lib_ok; by apply sh_linear|].
  repeat run_step.
  rewrite ?Hge. eapply wp_ok; [apply lib_ok; by apply sh_linear|].
  repeat run_step.
  rewrite ?Hge. eapply wp_ok; [apply lib_ok; by apply sh_linear|].
  repeat run_step.
  eapply wp_ok; [apply lib_ok, sh_log_softmax|].
  repeat run_step.
  eapply wp_ok; [apply lib_ok, sh_class_loss|].
  repeat run_step.
  cbn [layers lookup list_lookup]. apply wp_lib; cbn beta iota.
  repeat run_step. apply wp_lib; cbn beta iota.
  repeat run_step.
  cbn [fetch_batches framework dl_dataset batch_size shuffle loader].
  rewrite Hb. cbn [fmap list_fmap].
  repeat run_step.
  eapply wp_ok; [apply lib_ok, sh_resize|].
  repeat run_step.
  rewrite foldr_alter_id.
  2:{ intros l p Hl Hp. cbn in Hl.
      repeat (apply elem_of_cons in Hl as [->|Hl];
              [repeat first [ rewrite lookup_insert_eq in Hp
                            | rewrite lookup_insert_ne in Hp by lia ];
               by simplify_eq|]).
      by apply elem_of_nil in Hl. }
  repeat run_step.
  cbn [layers].
  repeat run_step.
  rewrite ?Hge. eapply wp_ok; [apply lib_ok; by apply sh_linear|].
  repeat run_step.
  rewrite ?Hge. eapply wp_ok; [apply lib_ok; by apply sh_linear|].
  repeat run_step.
  rewrite ?Hge. eapply wp_ok; [apply lib_ok; by apply sh_linear|].
  repeat run_step.
  eapply wp_ok; [apply lib_ok, sh_log_softmax|].
  repeat run_step.
  destruct (decide (64 = d `min` 64)) as [Heq|Hne].
  - eapply wp_ok; [apply lib_ok; rewrite <- Heq; apply sh_class_loss|].
    repeat run_step.
    eapply wp_ok; [apply lib_ok; reflexivity|].
    repeat run_step.
    cbn [layers lookup list_lookup]. apply wp_lib; cbn beta iota.
    repeat run_step. apply wp_lib; cbn beta iota.
    eapply wp_ok;
      [apply deref_ok; st_simpl; apply backward_into_lookup_some; lookup_tac|].
    repeat run_step. lia.
  - apply wp_lib.
    change (F_nll_loss ?a ?b) with (class_loss a b).
    unfold image_batch, plain. cbn [snd].
    rewrite sh_class_loss_mismatch by done.
    split; [lia|done].
Qed.

(** X12.  Cell 32 resizes the batch to 64 rows whatever its size, where the
    training cell flattens it with its own number of rows.  With the shapes
    of PyTorch's tensors and a training set of [d] images, cell 15, cell 31
    and cell 32, run one after the other, end normally when the set has at
    least 64 images; with fewer, the first batch is short, the resized input
    has 64 rows and the labels fewer, and cell 32 ends with the size
    mismatch that the criterion raises. *)
Theorem cell_32_expects_a_full_batch (d : nat) (s : @state Shapes.framework) :
  ready_for_30 d s ->
  ((cell_15;; cell_31;; cell_32) s).1
  = if 64 <=? d then inr tt
    else inl (LibError "expected input batch size to match target batch size"%string).
Proof.
  intros Hr. pose proof (manual_step_shapes d s Hr) as H. unfold wp in H.
  destruct ((cell_15;; cell_31;; cell_32) s) as [[e|[]] s']; cbn [fst].
  - destruct H as [Hd ->]. by apply Nat.leb_gt in Hd as ->.
  - by apply Nat.leb_le in H as ->.
Qed.

End Resize.

(** ** Cell 9 and cell 15 *)

Ltac eq_step :=
  lazymatch goal with
  | |- wp (call_model _ _) _ _ _ => fail
  | |- _ => wp_step0 ltac:(done)
  end.

Ltac maps_equal :=
  apply map_eq; intros ?; rewrite !lookup_insert;
  repeat case_decide; simplify_eq; done.

(** Running a cell forward along the results that another run has shown. *)
Ltac replay :=
  repeat first
    [ lazymatch goal with
      | |- wp (call_model _ _) _ _ _ => fail
      | |- _ => run_step
      end
    | match goal with
      | |- wp (call_model _ _) _ _ _ => fail 1
      | H : linear_reset ?a ?b ?c = _ |- context [linear_reset ?a ?b ?c] =>
          rewrite H; cbv beta iota
      | H : fetch_batches ?a ?b ?c ?d = _ |- context [fetch_batches ?a ?b ?c ?d] =>
          rewrite H; cbv beta iota
      | |- wp (lib _) _ _ _ => eapply wp_ok; [apply lib_ok; eassumption|]
      end ].

Section SameForwardPass.
Context {F : Framework} {X : Indexing F}.

Lemma call_model_frame m x s r s' :
  call_model m x s = (r, s') -> exists c, s' = set_calls c s.
Proof.
  intros E. pose proof (wp_call_model m x
    (fun _ s' => exists c, s' = set_calls c s)
    (fun _ s' => exists c, s' = set_calls c s) s) as H.
  unfold wp in H. rewrite E in H.
  destruct r; apply H; intros [?|?] evs _ _; by eexists.
Qed.

Lemma same_globals (g g' : gmap string value) h n r ge o c :
  g = g' ->
  {| globals := g; heap := h; next := n; rng := r; grad_enabled := ge;
     stdout := o; calls := c |}
  = {| globals := g'; heap := h; next := n; rng := r; grad_enabled := ge;
       stdout := o; calls := c |}.
Proof. by intros ->. Qed.

Lemma cell_9_then_15 s :
  wp cell_9
     (fun _ s9 => wp cell_15 (fun _ s15 => s15 = s9) (fun _ _ => False) s)
     (fun _ _ => True) s.
Proof.
  unfold cell_9. repeat eq_step.
  apply wp_run. intros r s' EM.
  destruct (call_model_frame _ _ _ _ _ EM) as [c ->].
  destruct r as [ex|y]; [done|].
  repeat eq_step.
  replay.
  match goal with
  | EM : call_model ?m ?x ?S9 = _ |- wp (call_model ?m ?x) _ _ ?S15 =>
      replace S15 with S9 by (apply same_globals; maps_equal);
      eapply wp_ok; [exact EM|]
  end.
  replay.
  reflexivity.
Qed.

Lemma cell_15_then_9 s :
  wp cell_15
     (fun _ s15 => wp cell_9 (fun _ s9 => s9 = s15) (fun _ _ => False) s)
     (fun _ _ => True) s.
Proof.
  unfold cell_15. repeat eq_step.
  apply wp_run. intros r s' EM.
  destruct (call_model_frame _ _ _ _ _ EM) as [c ->].
  destruct r as [ex|y]; [done|].
  repeat eq_step.
  replay.
  match goal with
  | EM : call_model ?m ?x ?S9 = _ |- wp (call_model ?m ?x) _ _ ?S15 =>
      replace S15 with S9 by (apply same_globals; maps_equal);
      eapply wp_ok; [exact EM|]
  end.
  replay.
  reflexivity.
Qed.

Lemma wp_equation (m : M unit) (t : state) s :
  wp m (fun _ s' => s' = t) (fun _ _ => False) s -> m s = (inr tt, t).
Proof. unfold wp. destruct (m s) as [[e|[]] s']; [done|]. by intros ->. Qed.

(** X13.  Cell 15 is cell 9 with the definition of the criterion moved below the
    fetching and flattening of the batch.  Whenever one of the two ends
    normally from a state, so does the other, and they leave the kernel in
    the same state: the same bindings, parameters, generator state, output
    and calls. *)
Theorem cells_9_and_15_agree (s : state) :
  (cell_9 s).1 = inr tt \/ (cell_15 s).1 = inr tt ->
  cell_15 s = cell_9 s.
Proof.
  intros [H|H].
  - pose proof (cell_9_then_15 s) as L. unfold wp at 1 in L.
    destruct (cell_9 s) as [[e|[]] s9]; [done|].
    by apply wp_equation.
  - pose proof (cell_15_then_9 s) as L. unfold wp at 1 in L.
    destruct (cell_15 s) as [[e|[]] s15]; [done|].
    symmetry. by apply wp_equation.
Qed.

End SameForwardPass.

(** ** The names a cell assigns to *)

Ltac names_tac :=
  unfold keeps_names in *; st_simpl;
  let x := fresh "x" in
  let Hx := fresh "Hx" in
  intros x Hx;
  try (match goal with
       | H : forall y, y ∉ _ -> _ = _ |- _ => rewrite <- (H x Hx)
       end);
  repeat (apply not_elem_of_cons in Hx as [? Hx]);
  repeat (rewrite lookup_insert_ne by congruence);
  reflexivity.

Ltac sub_names :=
  intros Hin; repeat (apply elem_of_cons in Hin as [->|Hin]);
  [..|by apply elem_of_nil in Hin];
  repeat first [ apply list_elem_of_here | apply list_elem_of_further ].

Ltac epoch_names Hk Hns :=
  let y := fresh "y" in
  let Hy := fresh "Hy" in
  let Hy' := fresh "Hy'" in
  intros y Hy; rewrite <- (Hk y Hy); st_simpl;
  assert (y ∉ ["epoch"; "running_loss"]) as Hy'
    by (intros Hin; apply Hy, Hns; revert Hin; sub_names);
  repeat (apply not_elem_of_cons in Hy' as [? Hy']);
  by repeat (rewrite lookup_insert_ne by congruence).

Section Names.
Context {F : Framework} {X : Indexing F}.

Lemma train_batch_names_kept ns b s0 s :
  ["images"; "labels"; "logits"; "loss"; "running_loss"] ⊆ ns ->
  keeps_names ns s0 s ->
  wp (train_batch b) (fun _ s' => keeps_names ns s0 s')
     (fun _ s' => keeps_names ns s0 s') s.
Proof.
  intros Hns Hk. unfold train_batch, forward_backward, step_and_log.
  wp_steps ltac:(idtac).
  all: intros y Hy; rewrite <- (Hk y Hy); st_simpl;
    assert (y ∉ ["images"; "labels"; "logits"; "loss"; "running_loss"]) as Hy'
      by (intros Hin; apply Hy, Hns, Hin);
    repeat (apply not_elem_of_cons in Hy' as [? Hy']);
    repeat (rewrite lookup_insert_ne by congruence); reflexivity.
Qed.

Lemma train_epoch_names_kept ns e s0 s :
  ["epoch"; "images"; "labels"; "logits"; "loss"; "running_loss"] ⊆ ns ->
  keeps_names ns s0 s ->
  wp (train_epoch e) (fun _ s' => keeps_names ns s0 s')
     (fun _ s' => keeps_names ns s0 s') s.
Proof.
  intros Hns Hk.
  unfold train_epoch. wp_steps ltac:(epoch_names Hk Hns).
  eapply wp_mono;
    [apply (wp_for_each (fun _ s' => keeps_names ns s0 s') _ _
              (fun _ s' => keeps_names ns s0 s'))
    | | ].
  - epoch_names Hk Hns.
  - intros done b rest s1 _ Hk1. apply train_batch_names_kept; [|done].
    intros z Hz. apply Hns. revert Hz. sub_names.
  - done.
  - intros [] s2 Hk2. cbn beta. unfold print_training_loss.
    wp_steps ltac:(done). all: done.
  - intros ex s2 Hk2. exact Hk2.
Qed.

Lemma cell_37_names_kept s :
  wp cell_37
     (fun _ s' => keeps_names ["model"; "criterion"; "optimizer"; "epochs"; "epoch";
                               "running_loss"; "images"; "labels"; "logits"; "loss"] s s')
     (fun _ s' => keeps_names ["model"; "criterion"; "optimizer"; "epochs"; "epoch";
                               "running_loss"; "images"; "labels"; "logits"; "loss"] s s')
     s.
Proof.
  unfold cell_37. wp_steps ltac:(names_tac).
  eapply wp_mono;
    [apply (wp_for_each
              (fun _ s' => keeps_names ["model"; "criterion"; "optimizer"; "epochs";
                                        "epoch"; "running_loss"; "images"; "labels";
                                        "logits"; "loss"] s s') _ _
              (fun _ s' => keeps_names ["model"; "criterion"; "optimizer"; "epochs";
                                        "epoch"; "running_loss"; "images"; "labels";
                                        "logits"; "loss"] s s'))
    | | ].
  - names_tac.
  - intros done e rest s1 _ Hk1. apply train_epoch_names_kept; [intros z; sub_names|done].
  - done.
  - by intros [] s2 Hk2.
  - by intros ex s2 Hk2.
Qed.

(** X14.  A cell rebinds no name but those its text assigns to: every other name
    of the kernel is bound after the cell, or unbound, as it was before,
    whether the cell ends normally or raises.  In particular no cell but
    cell 4 rebinds [trainloader], the cells 16 and 33 bind nothing, and the
    cells 31, 32, 33 and 60 leave [model] and [criterion] alone. *)
Theorem cells_rebind_only_what_they_assign (cell : M unit) (ns : list string)
    (s : state) (x : string) :
  (cell, ns) ∈ assigned_names ->
  x ∉ ns ->
  globals (cell s).2 !! x = globals s !! x.
Proof.
  intros Hcell.
  assert (wp cell (fun _ s' => keeps_names ns s s') (fun _ s' => keeps_names ns s s') s)
    as H.
  { unfold assigned_names in Hcell.
    repeat (apply elem_of_cons in Hcell as [[= -> ->]|Hcell]);
      [| | | | | | | | | |by apply elem_of_nil in Hcell].
    - unfold cell_4. wp_steps ltac:(names_tac). all: names_tac.
    - unfold cell_30. wp_steps ltac:(names_tac). all: names_tac.
    - unfold cell_9. wp_steps ltac:(names_tac). all: names_tac.
    - unfold cell_15. wp_steps ltac:(names_tac). all: names_tac.
    - unfold cell_16, first_weight. wp_steps ltac:(names_tac). all: names_tac.
    - unfold cell_31. wp_steps ltac:(names_tac). all: names_tac.
    - unfold cell_32, first_weight. wp_steps ltac:(names_tac). all: names_tac.
    - unfold cell_33, first_weight. wp_steps ltac:(names_tac). all: names_tac.
    - apply cell_37_names_kept.
    - unfold cell_60. wp_steps ltac:(names_tac). all: names_tac. }
  unfold wp in H. intros Hx.
  destruct (cell s) as [[e|[]] s']; cbn [snd]; by apply H.
Qed.

End Names.

(** ** The shapes along the prediction *)

Section PredictionShapes.
#[local] Existing Instance Shapes.framework.
Import Shapes.

Lemma sh_getitem n rest l :
  0 < n ->
  t_getitem {| dims := n :: rest; leaves := l |} 0 = inr {| dims := rest; leaves := l |}.
Proof.
  intros Hn. change (getitem {| dims := n :: rest; leaves := l |} 0
                     = inr {| dims := rest; leaves := l |}).
  unfold getitem. cbn [dims leaves].
  replace ((- Z.of_nat n <=? 0)%Z && (0 <? Z.of_nat n)%Z) with true; [done|].
  symmetry. apply andb_true_intro. split; [apply Z.leb_le|apply Z.ltb_lt]; lia.
Qed.

Lemma sh_view_image l :
  t_view {| dims := [1; 28; 28]; leaves := l |} [1; 784]%Z
  = inr {| dims := [1; 784]; leaves := l |}.
Proof. reflexivity. Qed.

Lemma sh_view_back l :
  t_view {| dims := [1; 784]; leaves := l |} [1; 28; 28]%Z
  = inr {| dims := [1; 28; 28]; leaves := l |}.
Proof. reflexivity. Qed.

Lemma prediction_shapes d s0 s n :
  prepared s0 s ->
  globals s !! "trainloader" = Some (VLoader (loader d)) ->
  globals s !! "torch" = Some (VModule n) ->
  0 < d ->
  wp cell_60
     (fun _ s' => exists evs,
        calls s' = calls s ++ evs /\
        dims_of evs = [[1; 28; 28]; [1; 784]; [1; 128]; [1; 128]; [1; 64]; [1; 64];
                       [1; 10]; [1; 10]; [1; 10]; [1; 10]; [1; 28; 28]])
     (fun _ _ => False) s.
Proof.
  intros ([Hm Ho] & Hc & Hge & Hps) Hld Htorch Hd.
  destruct (first_batch_size d Hd) as [rest Hb].
  assert (0 < d `min` 64) as Hn by lia.
  unfold params_shaped, parameter_shapes in Hps. rewrite !Forall_cons in Hps.
  cbn [fst snd] in Hps.
  destruct Hps as ((p1 & H1 & D1) & (p2 & H2 & D2) & (p3 & H3 & D3) &
                   (p4 & H4 & D4) & (p5 & H5 & D5) & (p6 & H6 & D6) & _).
  unfold cell_60. repeat run_step.
  cbn [fetch_batches framework dl_dataset batch_size shuffle loader].
  rewrite Hb. cbn [fmap list_fmap].
  repeat run_step.
  eapply wp_ok; [apply lib_ok, sh_getitem, Hn|]. rewrite ?Hge.
  repeat run_step.
  eapply wp_ok; [apply lib_ok, sh_view_image|]. rewrite ?Hge.
  repeat run_step.
  cbn [layers model_37].
  repeat run_step.
  eapply wp_ok; [apply lib_ok; by apply sh_linear|].
  repeat run_step. cbn [detach F_relu framework plain dims].
  eapply wp_ok; [apply lib_ok; by apply sh_linear|].
  repeat run_step. cbn [detach F_relu framework plain dims].
  eapply wp_ok; [apply lib_ok; by apply sh_linear|].
  repeat run_step. cbn [detach F_relu framework plain dims].
  eapply wp_ok; [apply lib_ok, sh_log_softmax|].
  repeat run_step. cbn [detach F_relu framework plain dims].
  eapply wp_ok; [apply lib_ok; reflexivity|]. rewrite ?Hge.
  repeat run_step.
  eapply wp_ok; [apply lib_ok, sh_view_back|]. rewrite ?Hge.
  repeat run_step.
  eapply wp_ok; [apply lib_ok; reflexivity|].
  repeat run_step.
  eexists. split; [trace_eq|reflexivity].
Qed.

(** X15.  With the shapes of PyTorch's tensors, in a kernel that holds the model
    of cell 37 with its parameters and the loader of cell 4 over a training
    set that is not empty, the prediction cell ends normally: it takes one
    image of 1 x 28 x 28 out of the first batch, flattens it to one row of
    784 elements, the layers give 128, 64 and 10 elements for that row, the
    exponential keeps the 10, and the image is shown as 1 x 28 x 28. *)
Theorem prediction_is_made_on_one_image (d : nat) (s0 s : @state Shapes.framework)
    (n : string) :
  prepared s0 s ->
  globals s !! "trainloader" = Some (VLoader (loader d)) ->
  globals s !! "torch" = Some (VModule n) ->
  0 < d ->
  (cell_60 s).1 = inr tt /\
  dims_of (since s (cell_60 s).2)
  = [[1; 28; 28]; [1; 784]; [1; 128]; [1; 128]; [1; 64]; [1; 64];
     [1; 10]; [1; 10]; [1; 10]; [1; 10]; [1; 28; 28]].
Proof.
  intros Hp Hld Ht Hd. pose proof (prediction_shapes d s0 s n Hp Hld Ht Hd) as H.
  unfold wp in H. destruct (cell_60 s) as [[e|[]] s']; [done|].
  destruct H as (evs & Hc & Hdims). cbn [fst snd]. by rewrite (since_app _ _ _ Hc).
Qed.

End PredictionShapes.

(** ** The gradient of a new tensor *)

Section NewTensor.
Import Exercises Autograd.
Context {F : Framework} {X : Indexing F} {Y : Elementwise F}.

Lemma cell_21_after s :
  wp cell_21
     (fun _ s1 => exists d,
        globals s1 !! "x" = Some (VTensor (leaf (next s) d)) /\
        heap s1 = <[next s := {| data := d; grad := None |}]> (heap s) /\
        grad_enabled s1 = grad_enabled s)
     (fun _ _ => True) s.
Proof.
  unfold cell_21. wp_steps ltac:(done).
  eexists. split_and!; [by map_simpl|done|done].
Qed.

Lemma cell_22_after s :
  wp cell_22
     (fun _ s2 => exists x y0,
        globals s !! "x" = Some (VTensor x) /\
        t_pow x 2 = inr y0 /\
        globals s2 !! "y" = Some (VTensor (record (grad_enabled s) y0)) /\
        globals s2 !! "x" = Some (VTensor x) /\
        heap s2 = heap s /\ grad_enabled s2 = grad_enabled s)
     (fun _ _ => True) s.
Proof.
  unfold cell_22. wp_steps ltac:(done).
  eexists _, _. split_and!; try done; by map_simpl.
Qed.

Lemma cell_24_after s :
  wp cell_24
     (fun _ s3 => exists y z0,
        globals s !! "y" = Some (VTensor y) /\
        t_mean y = inr z0 /\
        globals s3 !! "z" = Some (VTensor (record (grad_enabled s) z0)) /\
        globals s3 !! "x" = globals s !! "x" /\
        heap s3 = heap s /\ grad_enabled s3 = grad_enabled s)
     (fun _ _ => True) s.
Proof.
  unfold cell_24. wp_steps ltac:(done).
  eexists _, _. split_and!; try done; by map_simpl.
Qed.

Lemma cell_25_prints s t l p :
  globals s !! "x" = Some (VTensor t) ->
  leaf_of t = Some l ->
  heap s !! l = Some p ->
  cell_25 s = (inr tt, set_stdout (stdout s ++ [[show_grad (grad p)]]) s).
Proof.
  intros Hx Hl Hp.
  assert (wp cell_25
            (fun _ s' => s' = set_stdout (stdout s ++ [[show_grad (grad p)]]) s)
            (fun _ _ => False) s) as H.
  { unfold cell_25. repeat run_step. unfold tensor_grad. rewrite Hl.
    repeat run_step. reflexivity. }
  unfold wp in H. destruct (cell_25 s) as [[e|[]] s']; [done|by subst].
Qed.

Lemma cell_26_prints s t z l p :
  globals s !! "x" = Some (VTensor t) ->
  globals s !! "z" = Some (VTensor z) ->
  leaf_of t = Some l ->
  heap s !! l = Some p ->
  grad p = None ->
  wp cell_26
     (fun _ s' => exists gs rest,
        autograd z = inr gs /\
        stdout s' = stdout s ++ [show_grad (gs !! l)] :: rest)
     (fun e s' =>
        match autograd z with
        | inr gs => exists rest, stdout s' = stdout s ++ [show_grad (gs !! l)] :: rest
        | inl le => e = LibError le /\ stdout s' = stdout s
        end) s.
Proof.
  intros Hx Hz Hl Hp Hg. unfold cell_26.
  repeat run_step.
  apply wp_lib. destruct (autograd z) as [le|gs] eqn:Ea; st_simpl; [done|].
  repeat run_step. unfold tensor_grad. rewrite Hl.
  assert (backward_into gs (heap s) !! l
          = Some (match gs !! l with Some g => accumulate g p | None => p end)) as Hb.
  { unfold backward_into. by rewrite map_lookup_imap, Hp. }
  repeat run_step.
  assert (show_grad (grad (match gs !! l with Some g => accumulate g p | None => p end))
          = show_grad (gs !! l)) as ->.
  { destruct (gs !! l); simpl; by rewrite Hg. }
  apply wp_lib. destruct (t_div t 2) as [le|half] eqn:Ed; st_simpl.
  - by exists [].
  - repeat run_step. eexists gs, [_]. split; [done|]. by rewrite <- app_assoc.
Qed.

(** X16.  In the cells 21 to 26, once [x] has been drawn (21), squared (22)
    and the mean [z] of the square taken (24): [x] is a new leaf of the
    graph whose gradient field is empty, so cell 25 prints [None]; and
    cell 26, whose first statement is [z.backward()], then prints as
    gradient of [x] what the framework computes as the gradient of [z] for
    [x], or ends with the exception of the backward pass without printing
    anything.  This assumes that the tensor returned for a new leaf is
    recognised as that leaf. *)
Theorem gradient_of_a_new_tensor (s s1 s2 s3 : state) :
  (forall l d, leaf_of (leaf l d) = Some l) ->
  cell_21 s = (inr tt, s1) ->
  cell_22 s1 = (inr tt, s2) ->
  cell_24 s2 = (inr tt, s3) ->
  exists d y0 z0,
    globals s3 !! "x" = Some (VTensor (leaf (next s) d)) /\
    t_pow (leaf (next s) d) 2 = inr y0 /\
    t_mean (record (grad_enabled s) y0) = inr z0 /\
    globals s3 !! "z" = Some (VTensor (record (grad_enabled s) z0)) /\
    cell_25 s3 = (inr tt, set_stdout (stdout s3 ++ [[Str "None"]]) s3) /\
    match autograd (record (grad_enabled s) z0) with
    | inr gs =>
        exists rest,
          stdout (cell_26 s3).2 = stdout s3 ++ [show_grad (gs !! next s)] :: rest
    | inl le =>
        (cell_26 s3).1 = inl (LibError le) /\ stdout (cell_26 s3).2 = stdout s3
    end.
Proof.
  intros Hleaf H21 H22 H24.
  pose proof (cell_21_after s) as A1. pose proof (cell_22_after s1) as A2.
  pose proof (cell_24_after s2) as A3. unfold wp in A1, A2, A3.
  rewrite H21 in A1. rewrite H22 in A2. rewrite H24 in A3.
  destruct A1 as (d & Hx1 & Hh1 & Hg1).
  destruct A2 as (x & y0 & Hx1' & Hpow & Hy2 & Hx2 & Hh2 & Hg2).
  destruct A3 as (y & z0 & Hy2' & Hmean & Hz3 & Hx3 & Hh3 & Hg3).
  simplify_eq. rewrite ?Hg2, ?Hg1 in Hz3. rewrite ?Hg1 in Hmean.
  rewrite Hx2 in Hx3.
  assert (heap s3 !! next s = Some {| data := d; grad := None |}) as Hp.
  { by rewrite Hh3, Hh2, Hh1, lookup_insert_eq. }
  exists d, y0, z0. split_and!; try done.
  - by rewrite (cell_25_prints s3 _ _ _ Hx3 (Hleaf _ _) Hp).
  - pose proof (cell_26_prints s3 _ _ _ _ Hx3 Hz3 (Hleaf _ _) Hp eq_refl) as A4.
    unfold wp in A4. destruct (cell_26 s3) as [[e|[]] s4]; cbn [fst snd].
    + destruct (autograd _) as [le|gs]; [|done]. by destruct A4 as [-> ->].
    + destruct A4 as (gs & rest & -> & Hout). by exists rest.
Qed.

End NewTensor.


(** ** The further properties at concrete kernels *)

Section MoreInstances.
#[local] Existing Instance Toy.framework.

(** X2 on the kernel that cell 4 alone leaves behind. *)
Lemma training_needs_the_import_of_cell_31_witness :
  globals toy_after_4 !! "nn" = Some (VModule "torch.nn") /\
  globals toy_after_4 !! "optim" = None /\
  (cell_37 toy_after_4).1 = inl (NameError "optim") /\
  globals (cell_37 toy_after_4).2 !! "model" = Some (VModel (model_37 toy_after_4)) /\
  globals (cell_37 toy_after_4).2 !! "criterion" = Some (VCriterion NLLLoss) /\
  globals (cell_37 toy_after_4).2 !! "optimizer" = globals toy_after_4 !! "optimizer" /\
  stdout (cell_37 toy_after_4).2 = stdout toy_after_4 /\
  since toy_after_4 (cell_37 toy_after_4).2 = take 4 (construction_37 toy_after_4).
Proof.
  split; [reflexivity|]. split; [reflexivity|].
  apply (training_needs_the_import_of_cell_31 toy_after_4 "torch.nn"); reflexivity.
Defined.

(** X3 on a kernel whose loader holds no example. *)
Lemma training_divides_by_the_length_of_the_loader_witness :
  globals toy_empty !! "trainloader" = Some (VLoader toy_empty_loader) /\
  loader_len toy_empty_loader = 0 /\
  (cell_37 toy_empty).1 <> inr tt /\
  stdout (cell_37 toy_empty).2 = stdout toy_empty /\
  (forall n n',
     globals toy_empty !! "nn" = Some (VModule n) ->
     globals toy_empty !! "optim" = Some (VModule n') ->
     yields_nothing toy_empty_loader ->
     (cell_37 toy_empty).1 = inl ZeroDivisionError /\
     since toy_empty (cell_37 toy_empty).2
     = construction_37 toy_empty ++ [EIter toy_empty_loader 0]).
Proof.
  split; [reflexivity|]. split; [reflexivity|].
  apply (training_divides_by_the_length_of_the_loader toy_empty_loader toy_empty);
    reflexivity.
Defined.

(** X4 at cell 9, on a kernel whose loader holds no example. *)
Lemma forward_cells_need_a_batch_witness :
  globals toy_empty !! "nn" = Some (VModule "torch.nn") /\
  globals toy_empty !! "trainloader" = Some (VLoader toy_empty_loader) /\
  yields_nothing toy_empty_loader /\
  (cell_9 toy_empty).1 = inl StopIteration /\
  phases (since toy_empty (cell_9 toy_empty).2) = [] /\
  stdout (cell_9 toy_empty).2 = stdout toy_empty.
Proof.
  assert (yields_nothing toy_empty_loader) as Hy by (intros g; reflexivity).
  split; [reflexivity|]. split; [reflexivity|]. split; [exact Hy|].
  apply (forward_cells_need_a_batch toy_empty_loader toy_empty "torch.nn" cell_9);
    [reflexivity|reflexivity|exact Hy|].
  apply list_elem_of_further, list_elem_of_here.
Defined.

(** X5 at cell 16 and the first weight that cell 15 has drawn. *)
Lemma existing_weights_are_kept_witness :
  0 < next toy_after_15 /\
  heap toy_after_15 !! 0 = Some toy_first_weight /\
  exists p', heap (cell_16 toy_after_15).2 !! 0 = Some p' /\
             data p' = data toy_first_weight.
Proof.
  assert (0 < next toy_after_15) as Hn by (vm_compute; lia).
  split; [exact Hn|]. split; [reflexivity|].
  apply (existing_weights_are_kept cell_16 toy_after_15); [|exact Hn|reflexivity].
  do 4 apply list_elem_of_further. apply list_elem_of_here.
Defined.

(** X6 on the kernel that the cells 15, 31 and 32 leave behind. *)
Lemma step_updates_only_its_parameters_witness :
  globals toy_after_32 !! "optimizer" = Some (VOptimizer toy_optimizer) /\
  (forall l, l ∉ param_group toy_optimizer ->
     heap (cell_33 toy_after_32).2 !! l = heap toy_after_32 !! l) /\
  (forall l p, heap toy_after_32 !! l = Some p -> grad p = None ->
     heap (cell_33 toy_after_32).2 !! l = Some p) /\
  (forall l p, heap toy_after_32 !! l = Some p ->
     exists p', heap (cell_33 toy_after_32).2 !! l = Some p' /\ grad p' = grad p).
Proof.
  split; [reflexivity|].
  apply (step_updates_only_its_parameters toy_optimizer toy_after_32). reflexivity.
Defined.

End MoreInstances.

Section MoreInstances2.
#[local] Existing Instance Toy.framework.

(** X8 on the kernel that cell 4 leaves behind. *)
Lemma gradient_appears_with_the_backward_pass_witness :
  cell_15 (Toy.ready 0) = (inr tt, toy_after_15) /\
  exists loss,
    globals toy_after_15 !! "loss" = Some (VTensor loss) /\
    (forall l, l ∈ parameters (model_15 (Toy.ready 0)) ->
       exists p, heap toy_after_15 !! l = Some p /\ grad p = None) /\
    match autograd loss with
    | inr gs =>
        (cell_16 toy_after_15).1 = inr tt /\
        stdout (cell_16 toy_after_15).2
        = stdout toy_after_15 ++
          [[Str "Before backward pass: \n"; Str "None"];
           [Str "After backward pass: \n"; show_grad (gs !! next (Toy.ready 0))]] /\
        (forall l, l ∈ parameters (model_15 (Toy.ready 0)) ->
           exists p, heap (cell_16 toy_after_15).2 !! l = Some p /\ grad p = gs !! l)
    | inl le =>
        (cell_16 toy_after_15).1 = inl (LibError le) /\
        stdout (cell_16 toy_after_15).2
        = stdout toy_after_15 ++ [[Str "Before backward pass: \n"; Str "None"]] /\
        heap (cell_16 toy_after_15).2 = heap toy_after_15
    end.
Proof.
  assert (cell_15 (Toy.ready 0) = (inr tt, toy_after_15)) as H
    by (unfold toy_after_15; apply succeeded_run; vm_compute; reflexivity).
  split; [exact H|].
  exact (gradient_appears_with_the_backward_pass _ _ H).
Defined.

(** X9 on the kernel that cell 4 leaves behind. *)
Lemma manual_step_on_a_new_model_witness :
  cell_15 (Toy.ready 0) = (inr tt, toy_after_15) /\
  cell_31 toy_after_15 = (inr tt, toy_after_31) /\
  (cell_32;; cell_33) toy_after_31
  = (inr tt, ((cell_32;; cell_33) toy_after_31).2) /\
  exists loss gs,
    globals ((cell_32;; cell_33) toy_after_31).2 !! "loss" = Some (VTensor loss) /\
    autograd loss = inr gs /\
    forall l, l ∈ parameters (model_15 (Toy.ready 0)) ->
      exists p,
        heap toy_after_15 !! l = Some p /\
        heap ((cell_32;; cell_33) toy_after_31).2 !! l
        = Some {| data := match gs !! l with
                          | Some g => sgd_update (float_lit (1 # 100)) (data p) g
                          | None => data p
                          end;
                  grad := gs !! l |}.
Proof.
  assert (cell_15 (Toy.ready 0) = (inr tt, toy_after_15)) as H15
    by (unfold toy_after_15; apply succeeded_run; vm_compute; reflexivity).
  assert (cell_31 toy_after_15 = (inr tt, toy_after_31)) as H31
    by (unfold toy_after_31; apply succeeded_run; vm_compute; reflexivity).
  assert ((cell_32;; cell_33) toy_after_31
          = (inr tt, ((cell_32;; cell_33) toy_after_31).2)) as H33
    by (apply succeeded_run; vm_compute; reflexivity).
  split; [exact H15|]. split; [exact H31|]. split; [exact H33|].
  exact (manual_step_on_a_new_model _ _ _ _ H15 H31 H33).
Defined.

(** X10 when cell 15 is run again after cell 31. *)
Lemma optimizer_does_not_follow_the_model_witness :
  globals toy_after_31 !! "optimizer" = Some (VOptimizer toy_optimizer) /\
  Forall (fun l => l < next toy_after_31) (param_group toy_optimizer) /\
  cell_15 toy_after_31 = (inr tt, (cell_15 toy_after_31).2) /\
  globals (cell_15 toy_after_31).2 !! "model" = Some (VModel (model_15 toy_after_31)) /\
  globals (run_cells [cell_32; cell_33] (cell_15 toy_after_31).2) !! "optimizer"
  = Some (VOptimizer toy_optimizer) /\
  forall l, l ∈ parameters (model_15 toy_after_31) ->
    exists p1 p4,
      heap (cell_15 toy_after_31).2 !! l = Some p1 /\
      heap (run_cells [cell_32; cell_33] (cell_15 toy_after_31).2) !! l = Some p4 /\
      data p4 = data p1.
Proof.
  assert (globals toy_after_31 !! "optimizer" = Some (VOptimizer toy_optimizer))
    as Ho by reflexivity.
  assert (Forall (fun l => l < next toy_after_31) (param_group toy_optimizer)) as Hold
    by (repeat (constructor; [vm_compute; lia|]); constructor).
  assert (cell_15 toy_after_31 = (inr tt, (cell_15 toy_after_31).2)) as H15
    by (apply succeeded_run; vm_compute; reflexivity).
  split; [exact Ho|]. split; [exact Hold|]. split; [exact H15|].
  exact (optimizer_does_not_follow_the_model _ _ _ Ho Hold H15).
Defined.

(** X11 at the cells 4, 30 and 15, run from a new kernel. *)
Lemma model_and_criterion_stay_paired_witness :
  Forall (fun cell => cell ∈ notebook_cells) [cell_4; cell_30; cell_15] /\
  paired (Toy.start 0) /\
  paired (run_cells [cell_4; cell_30; cell_15] (Toy.start 0)).
Proof.
  assert (Forall (fun cell => cell ∈ notebook_cells) [cell_4; cell_30; cell_15]) as Hc.
  { unfold notebook_cells.
    apply Forall_cons. split; [apply list_elem_of_here|].
    apply Forall_cons. split; [apply list_elem_of_further, list_elem_of_here|].
    apply Forall_cons. split; [|apply Forall_nil_2].
    do 3 apply list_elem_of_further. apply list_elem_of_here. }
  assert (paired (Toy.start 0)) as Hp.
  { intros m Hm _. unfold Toy.start in Hm. cbn [globals] in Hm.
    rewrite lookup_empty in Hm. discriminate Hm. }
  split; [exact Hc|]. split; [exact Hp|].
  exact (model_and_criterion_stay_paired _ _ Hc Hp).
Defined.

(** X13 on the kernel that cell 4 leaves behind. *)
Lemma cells_9_and_15_agree_witness :
  ((cell_9 (Toy.ready 0)).1 = inr tt \/ (cell_15 (Toy.ready 0)).1 = inr tt) /\
  cell_15 (Toy.ready 0) = cell_9 (Toy.ready 0).
Proof.
  assert (H : (cell_9 (Toy.ready 0)).1 = inr tt \/ (cell_15 (Toy.ready 0)).1 = inr tt)
    by (left; apply succeeded_inr; vm_compute; reflexivity).
  split; [exact H|]. exact (cells_9_and_15_agree _ H).
Defined.

(** X14 at cell 37 and the name of the loader. *)
Lemma cells_rebind_only_what_they_assign_witness :
  ((cell_37, ["model"; "criterion"; "optimizer"; "epochs"; "epoch"; "running_loss";
              "images"; "labels"; "logits"; "loss"]) ∈ assigned_names) /\
  ("trainloader" ∉ ["model"; "criterion"; "optimizer"; "epochs"; "epoch";
                    "running_loss"; "images"; "labels"; "logits"; "loss"]) /\
  globals (cell_37 (Toy.ready 0)).2 !! "trainloader"
  = globals (Toy.ready 0) !! "trainloader".
Proof.
  assert ((cell_37, ["model"; "criterion"; "optimizer"; "epochs"; "epoch";
                     "running_loss"; "images"; "labels"; "logits"; "loss"])
          ∈ assigned_names) as Hc.
  { unfold assigned_names. do 8 apply list_elem_of_further. apply list_elem_of_here. }
  assert ("trainloader" ∉ ["model"; "criterion"; "optimizer"; "epochs"; "epoch";
                           "running_loss"; "images"; "labels"; "logits"; "loss"]) as Hx.
  { intros H. repeat (apply elem_of_cons in H as [H|H]; [discriminate H|]).
    by apply elem_of_nil in H. }
  split; [exact Hc|]. split; [exact Hx|].
  exact (cells_rebind_only_what_they_assign _ _ _ _ Hc Hx).
Defined.

End MoreInstances2.

Section MoreShapeInstances.
#[local] Existing Instance Shapes.framework.
#[local] Existing Instance shapes_indexing.

(** X12 with the shapes of the 60000 training images. *)
Lemma cell_32_expects_a_full_batch_witness :
  Shapes.ready_for_30 (N.to_nat 60000) Shapes.ready /\
  ((cell_15;; cell_31;; cell_32) Shapes.ready).1 = inr tt.
Proof.
  assert (Shapes.ready_for_30 (N.to_nat 60000) Shapes.ready) as H.
  { unfold Shapes.ready_for_30. split_and!.
    - eexists. reflexivity.
    - reflexivity.
    - lia.
    - reflexivity. }
  split; [exact H|].
  exact (cell_32_expects_a_full_batch _ _ H).
Defined.

(** X15 after the training cell, with the shapes of the 60000 training images. *)
Lemma prediction_is_made_on_one_image_witness :
  Shapes.prepared Shapes.ready (cell_37 Shapes.ready).2 /\
  globals (cell_37 Shapes.ready).2 !! "trainloader"
  = Some (VLoader (Shapes.loader (N.to_nat 60000))) /\
  globals (cell_37 Shapes.ready).2 !! "torch" = Some (VModule "torch") /\
  0 < N.to_nat 60000 /\
  (cell_60 (cell_37 Shapes.ready).2).1 = inr tt /\
  Shapes.dims_of (since (cell_37 Shapes.ready).2 (cell_60 (cell_37 Shapes.ready).2).2)
  = [[1; 28; 28]; [1; 784]; [1; 128]; [1; 128]; [1; 64]; [1; 64];
     [1; 10]; [1; 10]; [1; 10]; [1; 10]; [1; 28; 28]].
Proof.
  assert (Shapes.ready_for_37 (N.to_nat 60000) Shapes.ready) as H37.
  { unfold Shapes.ready_for_37. split_and!.
    - eexists. reflexivity.
    - eexists. reflexivity.
    - reflexivity.
    - lia.
    - reflexivity. }
  assert (Shapes.prepared Shapes.ready (cell_37 Shapes.ready).2) as Hp.
  { pose proof (cell_37_flows _ _ H37) as H. unfold wp in H.
    destruct (cell_37 Shapes.ready) as [[e|[]] s']; [done|]. apply H. }
  pose proof (cell_37_names_kept Shapes.ready) as K. unfold wp in K.
  assert (forall x, x ∉ ["model"; "criterion"; "optimizer"; "epochs"; "epoch";
                         "running_loss"; "images"; "labels"; "logits"; "loss"] ->
                    globals (cell_37 Shapes.ready).2 !! x = globals Shapes.ready !! x)
    as Hk.
  { destruct (cell_37 Shapes.ready) as [[e|[]] s']; exact K. }
  assert (globals (cell_37 Shapes.ready).2 !! "trainloader"
          = Some (VLoader (Shapes.loader (N.to_nat 60000)))) as Hld.
  { rewrite Hk; [reflexivity|]. intros H.
    repeat (apply elem_of_cons in H as [H|H]; [discriminate H|]).
    by apply elem_of_nil in H. }
  assert (globals (cell_37 Shapes.ready).2 !! "torch" = Some (VModule "torch")) as Ht.
  { rewrite Hk; [reflexivity|]. intros H.
    repeat (apply elem_of_cons in H as [H|H]; [discriminate H|]).
    by apply elem_of_nil in H. }
  assert (0 < N.to_nat 60000) as Hd by lia.
  split; [exact Hp|]. split; [exact Hld|]. split; [exact Ht|]. split; [exact Hd|].
  exact (prediction_is_made_on_one_image _ _ _ _ Hp Hld Ht Hd).
Defined.

End MoreShapeInstances.

Section NewTensorInstance.
Import Exercises Autograd.
#[local] Existing Instance Toy.framework.

(** X16 on the kernel that cell 4 leaves behind. *)
Lemma gradient_of_a_new_tensor_witness :
  (forall l d, leaf_of (leaf l d) = Some l) /\
  cell_21 (Toy.ready 0) = (inr tt, (cell_21 (Toy.ready 0)).2) /\
  cell_22 (cell_21 (Toy.ready 0)).2
  = (inr tt, (cell_22 (cell_21 (Toy.ready 0)).2).2) /\
  cell_24 (cell_22 (cell_21 (Toy.ready 0)).2).2
  = (inr tt, (cell_24 (cell_22 (cell_21 (Toy.ready 0)).2).2).2) /\
  exists d y0 z0,
    globals (cell_24 (cell_22 (cell_21 (Toy.ready 0)).2).2).2 !! "x"
    = Some (VTensor (leaf (next (Toy.ready 0)) d)) /\
    t_pow (leaf (next (Toy.ready 0)) d) 2 = inr y0 /\
    t_mean (record (grad_enabled (Toy.ready 0)) y0) = inr z0 /\
    globals (cell_24 (cell_22 (cell_21 (Toy.ready 0)).2).2).2 !! "z"
    = Some (VTensor (record (grad_enabled (Toy.ready 0)) z0)) /\
    cell_25 (cell_24 (cell_22 (cell_21 (Toy.ready 0)).2).2).2
    = (inr tt,
       set_stdout (stdout (cell_24 (cell_22 (cell_21 (Toy.ready 0)).2).2).2
                   ++ [[Str "None"]])
         (cell_24 (cell_22 (cell_21 (Toy.ready 0)).2).2).2) /\
    match autograd (record (grad_enabled (Toy.ready 0)) z0) with
    | inr gs =>
        exists rest,
          stdout (cell_26 (cell_24 (cell_22 (cell_21 (Toy.ready 0)).2).2).2).2
          = stdout (cell_24 (cell_22 (cell_21 (Toy.ready 0)).2).2).2
            ++ [show_grad (gs !! next (Toy.ready 0))] :: rest
    | inl le =>
        (cell_26 (cell_24 (cell_22 (cell_21 (Toy.ready 0)).2).2).2).1
        = inl (LibError le) /\
        stdout (cell_26 (cell_24 (cell_22 (cell_21 (Toy.ready 0)).2).2).2).2
        = stdout (cell_24 (cell_22 (cell_21 (Toy.ready 0)).2).2).2
    end.
Proof.
  assert (forall (l : loc) (d : @tensor Toy.framework), leaf_of (leaf l d) = Some l) as Hleaf.
  { intros l d. cbn. unfold toy_leaf_of. cbn. by rewrite map_to_list_singleton. }
  assert (cell_21 (Toy.ready 0) = (inr tt, (cell_21 (Toy.ready 0)).2)) as H21
    by (apply succeeded_run; vm_compute; reflexivity).
  assert (cell_22 (cell_21 (Toy.ready 0)).2
          = (inr tt, (cell_22 (cell_21 (Toy.ready 0)).2).2)) as H22
    by (apply succeeded_run; vm_compute; reflexivity).
  assert (cell_24 (cell_22 (cell_21 (Toy.ready 0)).2).2
          = (inr tt, (cell_24 (cell_22 (cell_21 (Toy.ready 0)).2).2).2)) as H24
    by (apply succeeded_run; vm_compute; reflexivity).
  split; [exact Hleaf|]. split; [exact H21|]. split; [exact H22|]. split; [exact H24|].
  exact (gradient_of_a_new_tensor _ _ _ _ Hleaf H21 H22 H24).
Defined.

End NewTensorInstance.
